(** * Operator execution core of the columnar plugin's arrow_compute code
      generator: [ExprVisitorImpl] and its nine operator variants
      (cpp/src/codegen/arrow_compute/expr_visitor_impl.h) and the code
      generator factory (cpp/src/codegen/code_generator_factory.h).

    The C++ methods are embedded as state-passing functions in a small
    monad that distinguishes falling through to the next statement, an
    early [return] of an [arrow::Status], and undefined behaviour (a null
    [shared_ptr] dereferenced, a vector or batch read out of range).  The
    kernels of [kernels_ext.h] are pluggable algorithm bodies: they are an
    interface here, as [extra::KernalBase] is in the source. *)

From Stdlib Require Import List String ZArith Lia Bool.
Import ListNotations.
Local Open Scope string_scope.
Local Open Scope Z_scope.

Set Implicit Arguments.

(** ** arrow::Status *)

Inductive StatusCode : Type :=
| OK | OutOfMemory | KeyError | TypeError | Invalid | IOError
| CapacityError | IndexError | UnknownError | NotImplemented
| SerializationError.

Record Status : Type := mkStatus { code : StatusCode; message : string }.

Definition Status_OK : Status := mkStatus OK "".
Definition Status_Invalid (msg : string) : Status := mkStatus Invalid msg.
Definition Status_NotImplemented (msg : string) : Status :=
  mkStatus NotImplemented msg.
Definition Status_TypeError (msg : string) : Status := mkStatus TypeError msg.

Definition ok (s : Status) : bool :=
  match code s with OK => true | _ => false end.

(** ** arrow::DataType, arrow::Field, arrow::Schema, arrow::RecordBatch *)

Inductive DataType : Type :=
| boolean | int32 | int64 | uint32 | float64 | utf8
| FixedSizeBinaryType (byte_width : Z).

Record Field : Type := field { name : string; type : DataType }.

Definition Schema : Type := list Field.

(** The schema functions are arrow's (arrow/type.h), a library outside
    these sources; they are written here as the library documents them. *)

(** The positions of the fields called [col_name] in a schema whose first
    field has position [i], in increasing order. *)
Fixpoint field_indices_from (i : Z) (schema : Schema) (col_name : string)
  : list Z :=
  match schema with
  | [] => []
  | f :: rest =>
      if String.eqb (name f) col_name
      then i :: field_indices_from (i + 1) rest col_name
      else field_indices_from (i + 1) rest col_name
  end.

(** [Schema::GetAllFieldIndices]. *)
Definition GetAllFieldIndices (schema : Schema) (col_name : string) : list Z :=
  field_indices_from 0 schema col_name.

(** [Schema::GetFieldIndex]: the position of the field called [col_name];
    [-1] when the schema has no field of that name, and also when it has
    more than one. *)
Definition GetFieldIndex (schema : Schema) (col_name : string) : Z :=
  match GetAllFieldIndices schema col_name with
  | [i] => i
  | _ => -1
  end.

(** [Schema::GetFieldByName]: the field at [GetFieldIndex], a null pointer
    when that is [-1]. *)
Definition GetFieldByName (schema : Schema) (col_name : string)
  : option Field :=
  let i := GetFieldIndex schema col_name in
  if i =? -1 then None else nth_error schema (Z.to_nat i).

(** ** ArrowComputeResultType *)

Module ArrowComputeResultType.
Inductive t : Type := None | Array | Batch | BatchIterator.
End ArrowComputeResultType.

Definition uint64_add (a b : Z) : Z := (a + b) mod 2 ^ 64.

(** ** The monad of method bodies *)

(** What a statement does to the state [S]: fall through with a value,
    return a status from the enclosing method, or undefined behaviour. *)
Inductive Step (S A : Type) : Type :=
| Continue (a : A) (s : S)
| Return (st : Status) (s : S)
| UB.
Arguments Continue {S A} a s.
Arguments Return {S A} st s.
Arguments UB {S A}.

Definition M (S A : Type) : Type := S -> Step S A.

Definition ret {S A} (a : A) : M S A := fun s => Continue a s.

Definition bind {S A B} (m : M S A) (k : A -> M S B) : M S B :=
  fun s =>
    match m s with
    | Continue a s' => k a s'
    | Return st s' => Return st s'
    | UB => UB
    end.

Definition return_ {S A} (st : Status) : M S A := fun s => Return st s.
Definition undefined {S A} : M S A := fun _ => UB.
Definition get {S} : M S S := fun s => Continue s s.
Definition modify {S} (f : S -> S) : M S unit := fun s => Continue tt (f s).

Declare Scope method_scope.
Delimit Scope method_scope with method.
Notation "x <- m ;; k" := (bind m (fun x => k))
  (at level 61, m at next level, right associativity) : method_scope.
Notation "m ;; k" := (bind m (fun _ => k))
  (at level 61, right associativity) : method_scope.
Local Open Scope method_scope.

(** RETURN_NOT_OK(s): leave the method with [s] unless it is OK. *)
Definition RETURN_NOT_OK {S} (m : M S Status) : M S unit :=
  st <- m ;; if ok st then ret tt else return_ st.

(** [*p] for a shared pointer [p]. *)
Definition deref {S A} (p : option A) : M S A :=
  match p with Some a => ret a | None => undefined end.

(** A range-based [for] over a vector, the body updating the locals [L]. *)
Fixpoint for_each {S A L} (xs : list A) (body : A -> L -> M S L) (l : L)
  : M S L :=
  match xs with
  | [] => ret l
  | x :: rest => l' <- body x l ;; for_each rest body l'
  end.

(** How a call of a method ends. *)
Inductive Outcome (S : Type) : Type :=
| Returned (st : Status) (s : S)
| Undefined.
Arguments Returned {S} st s.
Arguments Undefined {S}.

(** The status code a call returned, none when it was undefined. *)
Definition outcome_code {S} (o : Outcome S) : option StatusCode :=
  match o with
  | Returned st _ => Some (code st)
  | Undefined => None
  end.

(** A method body ends with the status it falls through to or with the
    one it returned early. *)
Definition run {S} (body : M S Status) (s : S) : Outcome S :=
  match body s with
  | Continue st s' => Returned st s'
  | Return st s' => Returned st s'
  | UB => Undefined
  end.

(** ** The collaborators outside these sources *)

(** The calls [extra::<K>::Make(&p_->ctx_, args..., &kernel)] of the
    source, one constructor per kernel class with the arguments passed
    (the function context [ctx_] is arrow's memory context and is left
    out). *)
Inductive KernelMake : Type :=
| SplitArrayListWithActionKernel (action_name_list : list string)
                                 (type_list : list DataType)
| SumArrayKernel (data_type : DataType)
| AppendArrayKernel
| CountArrayKernel (data_type : DataType)
| UniqueArrayKernel
| SumCountArrayKernel (data_type : DataType)
| AvgByCountArrayKernel (data_type : DataType)
| MinArrayKernel (data_type : DataType)
| MaxArrayKernel (data_type : DataType)
| EncodeArrayKernel
| HashAggrArrayKernel (type_list : list DataType)
| ProbeArrayKernel
| TakeArrayKernel
| NTakeArrayKernel
| SortArraysToIndicesKernel (nulls_first asc : bool)
| ShuffleArrayListKernel (type_list : list DataType)
| ProbeArraysKernel (data_type : DataType) (join_type : Z).

(** What a call of a kernel method yields: its status, the kernel object
    after the call, the value left in the out parameter (the parameter's
    previous value is passed in), and the microseconds the steady clock
    advanced meanwhile. *)
Record KernelCall (Kernel Out : Type) : Type := {
  result : Status;
  kernel' : Kernel;
  out : Out;
  took : Z }.

(** arrow's arrays, the result iterators of result_iterator.h, the
    [TIME_TO_STRING] macro of utils/macros.h and the kernels of
    kernels_ext.h: [extra::KernalBase] with the overloads of [Evaluate]
    and [Finish] that the operators call. *)
Class KernalBase : Type := {
  Array : Type;
  ResultIterator : Type;
  Kernel : Type;
  TIME_TO_STRING : Z -> string;
  Make : KernelMake -> option Kernel -> Status * option Kernel;
  (* Evaluate(const ArrayList& in) *)
  Evaluate_list : Kernel -> list Array -> KernelCall Kernel unit;
  (* Evaluate(const ArrayList& in, const std::shared_ptr<arrow::Array>& dict) *)
  Evaluate_list_with : Kernel -> list Array -> option Array ->
                       KernelCall Kernel unit;
  (* Evaluate(const ArrayList& in, std::shared_ptr<arrow::Array>* out) *)
  Evaluate_list_to_array : Kernel -> list Array -> option Array ->
                           KernelCall Kernel (option Array);
  (* Evaluate(const ArrayList& in, ArrayList* out) *)
  Evaluate_list_to_batch : Kernel -> list Array -> list Array ->
                           KernelCall Kernel (list Array);
  (* Evaluate(const std::shared_ptr<arrow::Array>& in) *)
  Evaluate_array : Kernel -> option Array -> KernelCall Kernel unit;
  (* Evaluate(const std::shared_ptr<arrow::Array>& in,
              std::shared_ptr<arrow::Array>* out) *)
  Evaluate_array_to_array : Kernel -> option Array -> option Array ->
                            KernelCall Kernel (option Array);
  (* Finish(ArrayList* out) *)
  Finish_batch : Kernel -> list Array -> KernelCall Kernel (list Array);
  (* Finish(std::shared_ptr<arrow::Array>* out) *)
  Finish_array : Kernel -> option Array -> KernelCall Kernel (option Array);
  kernel_MakeResultIterator : Kernel -> Schema -> option ResultIterator ->
                              KernelCall Kernel (option ResultIterator);
  kernel_SetMember : Kernel -> option (list Array) -> KernelCall Kernel unit;
  SetDependencyInput : Kernel -> option Array -> KernelCall Kernel unit;
  SetDependencyIter : Kernel -> option ResultIterator -> Z ->
                      KernelCall Kernel unit }.

Section Framework.
Context `{KernalBase}.

Definition ArrayList : Type := list Array.

(** A record batch is its columns. *)
Definition RecordBatch : Type := list Array.

Definition num_columns (batch : RecordBatch) : Z :=
  Z.of_nat (List.length batch).

(** [batch->column(i)]: reading outside [0, num_columns) is undefined. *)
Definition column {S} (batch : RecordBatch) (i : Z) : M S Array :=
  if (0 <=? i) && (i <? num_columns batch)
  then deref (nth_error batch (Z.to_nat i))
  else undefined.

(** ** ExprVisitor: the context [p_] the operators share *)

Record ExprVisitor : Type := {
  func_name_ : string;
  schema_ : Schema;
  param_field_names_ : list string;
  action_name_list_ : list string;
  action_param_list_ : list string;
  in_record_batch_ : RecordBatch;
  in_array_ : option Array;
  member_record_batch_ : option RecordBatch;
  dependency_result_type_ : ArrowComputeResultType.t;
  return_type_ : ArrowComputeResultType.t;
  result_fields_ : list Field;
  result_array_ : option Array;
  result_batch_ : ArrayList;
  elapse_time_ : Z }.

Definition set_dependency_result_type_ (v : ArrowComputeResultType.t)
  (p : ExprVisitor) : ExprVisitor :=
  {| func_name_ := func_name_ p; schema_ := schema_ p;
     param_field_names_ := param_field_names_ p;
     action_name_list_ := action_name_list_ p;
     action_param_list_ := action_param_list_ p;
     in_record_batch_ := in_record_batch_ p; in_array_ := in_array_ p;
     member_record_batch_ := member_record_batch_ p;
     dependency_result_type_ := v;
     return_type_ := return_type_ p; result_fields_ := result_fields_ p;
     result_array_ := result_array_ p; result_batch_ := result_batch_ p;
     elapse_time_ := elapse_time_ p |}.

Definition set_return_type_ (v : ArrowComputeResultType.t)
  (p : ExprVisitor) : ExprVisitor :=
  {| func_name_ := func_name_ p; schema_ := schema_ p;
     param_field_names_ := param_field_names_ p;
     action_name_list_ := action_name_list_ p;
     action_param_list_ := action_param_list_ p;
     in_record_batch_ := in_record_batch_ p; in_array_ := in_array_ p;
     member_record_batch_ := member_record_batch_ p;
     dependency_result_type_ := dependency_result_type_ p;
     return_type_ := v; result_fields_ := result_fields_ p;
     result_array_ := result_array_ p; result_batch_ := result_batch_ p;
     elapse_time_ := elapse_time_ p |}.

Definition set_result_fields_ (v : list Field)
  (p : ExprVisitor) : ExprVisitor :=
  {| func_name_ := func_name_ p; schema_ := schema_ p;
     param_field_names_ := param_field_names_ p;
     action_name_list_ := action_name_list_ p;
     action_param_list_ := action_param_list_ p;
     in_record_batch_ := in_record_batch_ p; in_array_ := in_array_ p;
     member_record_batch_ := member_record_batch_ p;
     dependency_result_type_ := dependency_result_type_ p;
     return_type_ := return_type_ p; result_fields_ := v;
     result_array_ := result_array_ p; result_batch_ := result_batch_ p;
     elapse_time_ := elapse_time_ p |}.

Definition set_result_array_ (v : option Array)
  (p : ExprVisitor) : ExprVisitor :=
  {| func_name_ := func_name_ p; schema_ := schema_ p;
     param_field_names_ := param_field_names_ p;
     action_name_list_ := action_name_list_ p;
     action_param_list_ := action_param_list_ p;
     in_record_batch_ := in_record_batch_ p; in_array_ := in_array_ p;
     member_record_batch_ := member_record_batch_ p;
     dependency_result_type_ := dependency_result_type_ p;
     return_type_ := return_type_ p; result_fields_ := result_fields_ p;
     result_array_ := v; result_batch_ := result_batch_ p;
     elapse_time_ := elapse_time_ p |}.

Definition set_result_batch_ (v : ArrayList)
  (p : ExprVisitor) : ExprVisitor :=
  {| func_name_ := func_name_ p; schema_ := schema_ p;
     param_field_names_ := param_field_names_ p;
     action_name_list_ := action_name_list_ p;
     action_param_list_ := action_param_list_ p;
     in_record_batch_ := in_record_batch_ p; in_array_ := in_array_ p;
     member_record_batch_ := member_record_batch_ p;
     dependency_result_type_ := dependency_result_type_ p;
     return_type_ := return_type_ p; result_fields_ := result_fields_ p;
     result_array_ := result_array_ p; result_batch_ := v;
     elapse_time_ := elapse_time_ p |}.

(** The caller replaces the input batch before a call. *)
Definition set_in_record_batch_ (v : RecordBatch)
  (p : ExprVisitor) : ExprVisitor :=
  {| func_name_ := func_name_ p; schema_ := schema_ p;
     param_field_names_ := param_field_names_ p;
     action_name_list_ := action_name_list_ p;
     action_param_list_ := action_param_list_ p;
     in_record_batch_ := v; in_array_ := in_array_ p;
     member_record_batch_ := member_record_batch_ p;
     dependency_result_type_ := dependency_result_type_ p;
     return_type_ := return_type_ p; result_fields_ := result_fields_ p;
     result_array_ := result_array_ p; result_batch_ := result_batch_ p;
     elapse_time_ := elapse_time_ p |}.

Definition set_elapse_time_ (v : Z) (p : ExprVisitor) : ExprVisitor :=
  {| func_name_ := func_name_ p; schema_ := schema_ p;
     param_field_names_ := param_field_names_ p;
     action_name_list_ := action_name_list_ p;
     action_param_list_ := action_param_list_ p;
     in_record_batch_ := in_record_batch_ p; in_array_ := in_array_ p;
     member_record_batch_ := member_record_batch_ p;
     dependency_result_type_ := dependency_result_type_ p;
     return_type_ := return_type_ p; result_fields_ := result_fields_ p;
     result_array_ := result_array_ p; result_batch_ := result_batch_ p;
     elapse_time_ := v |}.

(** ** ExprVisitorImpl: the members every operator inherits *)

Record ExprVisitorImpl : Type := {
  initialized_ : bool;
  finish_return_type_ : ArrowComputeResultType.t;
  kernel_ : option Kernel }.

(** A class derived from [ExprVisitorImpl]. *)
Class Derived (T : Type) : Type := {
  base : T -> ExprVisitorImpl;
  with_base : ExprVisitorImpl -> T -> T }.

(** What a method runs on: the operator [this], the context [p_] it points
    to, the lines written to [std::cout] and the caller's iterator holder
    that the [out] parameter of [MakeResultIterator] points to. *)
Record Frame (T : Type) : Type := {
  this : T;
  p_ : ExprVisitor;
  cout : list string;
  out_iter : option ResultIterator }.

Definition with_this {T U} (o : U) (s : Frame T) : Frame U :=
  {| this := o; p_ := p_ s; cout := cout s; out_iter := out_iter s |}.

Definition with_p_ {T} (p : ExprVisitor) (s : Frame T) : Frame T :=
  {| this := this s; p_ := p; cout := cout s; out_iter := out_iter s |}.

Definition with_cout {T} (c : list string) (s : Frame T) : Frame T :=
  {| this := this s; p_ := p_ s; cout := c; out_iter := out_iter s |}.

Definition with_out_iter {T} (o : option ResultIterator) (s : Frame T)
  : Frame T :=
  {| this := this s; p_ := p_ s; cout := cout s; out_iter := o |}.

End Framework.

(** ** Statements over the members *)

Section Members.
Context `{KernalBase} {T : Type} `{Derived T}.

Definition update_p_ (f : ExprVisitor -> ExprVisitor) : M (Frame T) unit :=
  modify (fun s => with_p_ (f (p_ s)) s).

Definition update_this (f : T -> T) : M (Frame T) unit :=
  modify (fun s => with_this (f (this s)) s).

Definition update_base (f : ExprVisitorImpl -> ExprVisitorImpl)
  : M (Frame T) unit :=
  update_this (fun o => with_base (f (base o)) o).

Definition set_initialized_ (v : bool) : M (Frame T) unit :=
  update_base (fun b =>
    {| initialized_ := v; finish_return_type_ := finish_return_type_ b;
       kernel_ := kernel_ b |}).

Definition set_finish_return_type_ (v : ArrowComputeResultType.t)
  : M (Frame T) unit :=
  update_base (fun b =>
    {| initialized_ := initialized_ b; finish_return_type_ := v;
       kernel_ := kernel_ b |}).

Definition set_kernel_ (v : option Kernel) : M (Frame T) unit :=
  update_base (fun b =>
    {| initialized_ := initialized_ b;
       finish_return_type_ := finish_return_type_ b; kernel_ := v |}).

(** [p_->elapse_time_ += micros] on an unsigned 64-bit counter. *)
Definition add_elapse_time_ (micros : Z) : M (Frame T) unit :=
  update_p_ (fun p => set_elapse_time_ (uint64_add (elapse_time_ p) micros) p).

(** [extra::<K>::Make(&p_->ctx_, ..., &kernel_)]. *)
Definition make_kernel_ (m : KernelMake) : M (Frame T) Status :=
  s <- get ;;
  let r := Make m (kernel_ (base (this s))) in
  set_kernel_ (snd r) ;;
  ret (fst r).

(** [kernel_->method(...)]: undefined on a null [kernel_]; the kernel
    object is left in the state the method put it in. *)
Definition kernel_call {O} (method : Frame T -> Kernel -> KernelCall Kernel O)
  : M (Frame T) (KernelCall Kernel O) :=
  s <- get ;;
  k <- deref (kernel_ (base (this s))) ;;
  let r := method s k in
  set_kernel_ (Some (kernel' r)) ;;
  ret r.

Definition no_out {S} (_ : unit) : M S unit := ret tt.

(** The status of a kernel call, its out parameter stored by [store]. *)
Definition status_of {S K O} (call : M S (KernelCall K O))
  (store : O -> M S unit) : M S Status :=
  r <- call ;; store (out r) ;; ret (result r).

(** Modelled from the spec: the macro [TIME_MICRO_OR_RAISE(time, expr)] of
    utils/macros.h, which is not among the sources.  It runs [expr] between
    two readings of the steady clock, returns its status from the method if
    it is not OK and otherwise adds the elapsed microseconds to [time]; the
    spec describes the counter as cumulative elapsed-time accounting that
    is never used for control decisions. *)
Definition TIME_MICRO_OR_RAISE {S K O} (add_time : Z -> M S unit)
  (call : M S (KernelCall K O)) (store : O -> M S unit) : M S O :=
  r <- call ;;
  store (out r) ;;
  if ok (result r) then add_time (took r) ;; ret (out r)
  else return_ (result r).

Definition print (line : string) : M (Frame T) unit :=
  modify (fun s => with_cout (cout s ++ [line])%list s).

End Members.

(** ** ExprVisitorImpl: the virtual methods' default bodies *)

Module ExprVisitorImpl.
Section Defaults.
Context `{KernalBase} {T : Type} `{Derived T}.

Definition Eval : Frame T -> Outcome (Frame T) :=
  run (return_ (Status_NotImplemented "ExprVisitorImpl Eval is abstract.")).

Definition Init : Frame T -> Outcome (Frame T) :=
  run (return_ (Status_NotImplemented "ExprVisitorImpl Init is abstract.")).

Definition SetMember : Frame T -> Outcome (Frame T) :=
  run (return_ (Status_NotImplemented "ExprVisitorImpl Init is abstract.")).

Definition SetDependency (dependency_iter : option ResultIterator)
  (index : Z) : Frame T -> Outcome (Frame T) :=
  run (return_
         (Status_NotImplemented "ExprVisitorImpl SetDependency is abstract.")).

(** The body prints only when DEBUG is defined. *)
Definition Finish_ : M (Frame T) Status := ret Status_OK.

Definition Finish : Frame T -> Outcome (Frame T) := run Finish_.

Definition MakeResultIterator (schema : Schema)
  : Frame T -> Outcome (Frame T) :=
  run (s <- get ;;
       return_ (Status_NotImplemented
                  ("ExprVisitorImpl " ++ func_name_ (p_ s)
                   ++ " MakeResultIterator is abstract."))).

Definition GetColumnIdAndFieldByName (schema : Schema) (col_name : string)
  : Status * (Z * option Field) :=
  let id := GetFieldIndex schema col_name in
  let out_field := GetFieldByName schema col_name in
  if id <? 0
  then (Status_Invalid
          ("GetColumnIdAndFieldByName doesn't found col_name " ++ col_name),
        (id, out_field))
  else (Status_OK, (id, out_field)).

End Defaults.
End ExprVisitorImpl.

(** ** SplitArrayListWithActionVisitorImpl *)

Module SplitArrayListWithActionVisitorImpl.
Section Class.
Context `{KernalBase}.

Record t : Type := {
  super : ExprVisitorImpl;
  col_id_list_ : list Z }.

#[global] Instance derived : Derived t := {|
  base := super;
  with_base b o := {| super := b; col_id_list_ := col_id_list_ o |} |}.

Definition push_col_id (col_id : Z) (o : t) : t :=
  {| super := super o; col_id_list_ := (col_id_list_ o ++ [col_id])%list |}.

Definition Init : Frame t -> Outcome (Frame t) :=
  run (
    s <- get ;;
    if initialized_ (base (this s)) then return_ Status_OK else
    if match action_name_list_ (p_ s) with [] => true | _ => false end
    then return_ (Status_Invalid
      ("ExprVisitor::SplitArrayListWithAction have empty action_name_list, "
       ++ "this " ++ "is invalid."))
    else
    type_list <- for_each (action_param_list_ (p_ s))
      (fun col_name type_list =>
         s <- get ;;
         let r := ExprVisitorImpl.GetColumnIdAndFieldByName
                    (schema_ (p_ s)) col_name in
         RETURN_NOT_OK (ret (fst r)) ;;
         field <- deref (snd (snd r)) ;;
         update_p_ (fun p =>
           set_result_fields_ (result_fields_ p ++ [field])%list p) ;;
         update_this (push_col_id (fst (snd r))) ;;
         ret (type_list ++ [type field])%list)
      [] ;;
    RETURN_NOT_OK (make_kernel_
      (SplitArrayListWithActionKernel (action_name_list_ (p_ s)) type_list)) ;;
    set_initialized_ true ;;
    ret Status_OK).

Definition Eval : Frame t -> Outcome (Frame t) :=
  run (
    s <- get ;;
    match dependency_result_type_ (p_ s) with
    | ArrowComputeResultType.Array =>
        col_list <- for_each (col_id_list_ (this s))
          (fun col_id col_list =>
             if col_id >=? num_columns (in_record_batch_ (p_ s))
             then return_ (Status_Invalid
               ("SplitArrayListWithActionVisitorImpl Eval col_id is bigger than input "
                ++ "batch numColumns."))
             else
             col <- column (in_record_batch_ (p_ s)) col_id ;;
             ret (col_list ++ [col])%list)
          [] ;;
        TIME_MICRO_OR_RAISE add_elapse_time_
          (kernel_call (fun s k =>
             Evaluate_list_with k col_list (in_array_ (p_ s))))
          no_out ;;
        set_finish_return_type_ ArrowComputeResultType.Batch ;;
        update_p_ (set_dependency_result_type_ ArrowComputeResultType.None) ;;
        ret Status_OK
    | _ =>
        return_ (Status_NotImplemented
          "SplitArrayListWithActionVisitorImpl: Does not support this type of input.")
    end).

Definition Finish : Frame t -> Outcome (Frame t) :=
  run (
    RETURN_NOT_OK ExprVisitorImpl.Finish_ ;;
    s <- get ;;
    match finish_return_type_ (base (this s)) with
    | ArrowComputeResultType.Batch =>
        RETURN_NOT_OK (status_of
          (kernel_call (fun s k => Finish_batch k (result_batch_ (p_ s))))
          (fun o => update_p_ (set_result_batch_ o))) ;;
        update_p_ (set_return_type_ ArrowComputeResultType.Batch) ;;
        ret Status_OK
    | _ =>
        return_ (Status_NotImplemented
          ("SplitArrayListWithActionVisitorImpl only support finish_return_type as "
           ++ "Batch."))
    end).

Definition MakeResultIterator (schema : Schema)
  : Frame t -> Outcome (Frame t) :=
  run (
    s <- get ;;
    match finish_return_type_ (base (this s)) with
    | ArrowComputeResultType.Batch =>
        TIME_MICRO_OR_RAISE add_elapse_time_
          (kernel_call (fun s k =>
             kernel_MakeResultIterator k schema (out_iter s)))
          (fun o => modify (with_out_iter o)) ;;
        update_p_ (set_return_type_ ArrowComputeResultType.BatchIterator) ;;
        ret Status_OK
    | _ =>
        return_ (Status_Invalid
          ("SplitArrayListWithActionVisitorImpl Finish does not support dependency type "
           ++ "other than Batch."))
    end).

End Class.
End SplitArrayListWithActionVisitorImpl.

(** ** AggregateVisitorImpl *)

Module AggregateVisitorImpl.
Section Class.
Context `{KernalBase}.

Record t : Type := {
  super : ExprVisitorImpl;
  col_id_list_ : list Z;
  func_name_ : string }.

#[global] Instance derived : Derived t := {|
  base := super;
  with_base b o :=
    {| super := b; col_id_list_ := col_id_list_ o;
       func_name_ := func_name_ o |} |}.

Definition push_col_id (col_id : Z) (o : t) : t :=
  {| super := super o; col_id_list_ := (col_id_list_ o ++ [col_id])%list;
     func_name_ := func_name_ o |}.

(** [p_->result_fields_.erase(p_->result_fields_.end() - 1)]. *)
Definition erase_last : M (Frame t) unit :=
  s <- get ;;
  match result_fields_ (p_ s) with
  | [] => undefined
  | fields => update_p_ (set_result_fields_ (removelast fields))
  end.

Definition Init : Frame t -> Outcome (Frame t) :=
  run (
    s <- get ;;
    if initialized_ (base (this s)) then return_ Status_OK else
    for_each (param_field_names_ (p_ s))
      (fun col_name (_ : unit) =>
         s <- get ;;
         let r := ExprVisitorImpl.GetColumnIdAndFieldByName
                    (schema_ (p_ s)) col_name in
         RETURN_NOT_OK (ret (fst r)) ;;
         field <- deref (snd (snd r)) ;;
         update_p_ (fun p =>
           set_result_fields_ (result_fields_ p ++ [field])%list p) ;;
         update_this (push_col_id (fst (snd r))))
      tt ;;
    s <- get ;;
    first <- deref (nth_error (result_fields_ (p_ s)) 0) ;;
    let data_type := type first in
    let func_name := func_name_ (this s) in
    (if String.eqb func_name "sum" then
       RETURN_NOT_OK (make_kernel_ (SumArrayKernel data_type))
     else if String.eqb func_name "append" then
       RETURN_NOT_OK (make_kernel_ AppendArrayKernel)
     else if String.eqb func_name "count" then
       RETURN_NOT_OK (make_kernel_ (CountArrayKernel data_type))
     else if String.eqb func_name "unique" then
       RETURN_NOT_OK (make_kernel_ UniqueArrayKernel)
     else if String.eqb func_name "sum_count" then
       update_p_ (fun p =>
         set_result_fields_ (result_fields_ p ++ [field "cnt" int64])%list p) ;;
       RETURN_NOT_OK (make_kernel_ (SumCountArrayKernel data_type))
     else if String.eqb func_name "avgByCount" then
       erase_last ;;
       RETURN_NOT_OK (make_kernel_ (AvgByCountArrayKernel data_type))
     else if String.eqb func_name "min" then
       RETURN_NOT_OK (make_kernel_ (MinArrayKernel data_type))
     else if String.eqb func_name "max" then
       RETURN_NOT_OK (make_kernel_ (MaxArrayKernel data_type))
     else ret tt) ;;
    set_initialized_ true ;;
    ret Status_OK).

Definition Eval : Frame t -> Outcome (Frame t) :=
  run (
    s <- get ;;
    match dependency_result_type_ (p_ s) with
    | ArrowComputeResultType.None =>
        in_ <- for_each (col_id_list_ (this s))
          (fun col_id in_ =>
             if col_id >=? num_columns (in_record_batch_ (p_ s))
             then return_ (Status_Invalid
               ("AggregateVisitorImpl Eval col_id is bigger than input "
                ++ "batch numColumns."))
             else
             col <- column (in_record_batch_ (p_ s)) col_id ;;
             ret (in_ ++ [col])%list)
          [] ;;
        RETURN_NOT_OK (status_of
          (kernel_call (fun _ k => Evaluate_list k in_)) no_out) ;;
        set_finish_return_type_ ArrowComputeResultType.Batch ;;
        ret Status_OK
    | _ =>
        return_ (Status_NotImplemented
          "AggregateVisitorImpl: Does not support this type of input.")
    end).

Definition Finish : Frame t -> Outcome (Frame t) :=
  run (
    RETURN_NOT_OK ExprVisitorImpl.Finish_ ;;
    s <- get ;;
    match finish_return_type_ (base (this s)) with
    | ArrowComputeResultType.Batch =>
        RETURN_NOT_OK (status_of
          (kernel_call (fun s k => Finish_batch k (result_batch_ (p_ s))))
          (fun o => update_p_ (set_result_batch_ o))) ;;
        update_p_ (set_return_type_ ArrowComputeResultType.Batch) ;;
        ret Status_OK
    | _ =>
        return_ (Status_NotImplemented
          ("AggregateVisitorImpl only support finish_return_type as "
           ++ "Array."))
    end).

End Class.
End AggregateVisitorImpl.

(** ** EncodeVisitorImpl *)

Module EncodeVisitorImpl.
Section Class.
Context `{KernalBase}.

Record t : Type := {
  super : ExprVisitorImpl;
  col_id_list_ : list Z;
  concat_kernel_ : option Kernel;
  concat_elapse_time : Z }.

#[global] Instance derived : Derived t := {|
  base := super;
  with_base b o :=
    {| super := b; col_id_list_ := col_id_list_ o;
       concat_kernel_ := concat_kernel_ o;
       concat_elapse_time := concat_elapse_time o |} |}.

Definition push_col_id (col_id : Z) (o : t) : t :=
  {| super := super o; col_id_list_ := (col_id_list_ o ++ [col_id])%list;
     concat_kernel_ := concat_kernel_ o;
     concat_elapse_time := concat_elapse_time o |}.

Definition set_concat_kernel_ (v : option Kernel) (o : t) : t :=
  {| super := super o; col_id_list_ := col_id_list_ o;
     concat_kernel_ := v; concat_elapse_time := concat_elapse_time o |}.

Definition add_concat_elapse_time (micros : Z) : M (Frame t) unit :=
  update_this (fun o =>
    {| super := super o; col_id_list_ := col_id_list_ o;
       concat_kernel_ := concat_kernel_ o;
       concat_elapse_time := uint64_add (concat_elapse_time o) micros |}).

(** [concat_kernel_->method(...)]. *)
Definition concat_kernel_call {O}
  (method : Kernel -> KernelCall Kernel O)
  : M (Frame t) (KernelCall Kernel O) :=
  s <- get ;;
  k <- deref (concat_kernel_ (this s)) ;;
  let r := method k in
  update_this (set_concat_kernel_ (Some (kernel' r))) ;;
  ret r.

Definition Init : Frame t -> Outcome (Frame t) :=
  run (
    s <- get ;;
    if initialized_ (base (this s)) then return_ Status_OK else
    RETURN_NOT_OK (make_kernel_ EncodeArrayKernel) ;;
    type_list <- for_each (param_field_names_ (p_ s))
      (fun col_name type_list =>
         s <- get ;;
         let r := ExprVisitorImpl.GetColumnIdAndFieldByName
                    (schema_ (p_ s)) col_name in
         RETURN_NOT_OK (ret (fst r)) ;;
         field <- deref (snd (snd r)) ;;
         update_this (push_col_id (fst (snd r))) ;;
         ret (type_list ++ [type field])%list)
      [] ;;
    (if Z.of_nat (List.length type_list) >? 1 then
       RETURN_NOT_OK (
         s <- get ;;
         let r := Make (HashAggrArrayKernel type_list)
                       (concat_kernel_ (this s)) in
         update_this (set_concat_kernel_ (snd r)) ;;
         ret (fst r))
     else ret tt) ;;
    let result_field := field "res" uint32 in
    update_p_ (fun p =>
      set_result_fields_ (result_fields_ p ++ [result_field])%list p) ;;
    set_initialized_ true ;;
    ret Status_OK).

Definition Eval : Frame t -> Outcome (Frame t) :=
  run (
    s <- get ;;
    match dependency_result_type_ (p_ s) with
    | ArrowComputeResultType.None =>
        col <-
          match concat_kernel_ (this s) with
          | Some _ =>
              array_list <- for_each (col_id_list_ (this s))
                (fun col_id array_list =>
                   col <- column (in_record_batch_ (p_ s)) col_id ;;
                   ret (array_list ++ [col])%list)
                [] ;;
              TIME_MICRO_OR_RAISE add_concat_elapse_time
                (concat_kernel_call (fun k =>
                   Evaluate_list_to_array k array_list None))
                (fun _ => ret tt)
          | None =>
              col_id <- deref (nth_error (col_id_list_ (this s)) 0) ;;
              col <- column (in_record_batch_ (p_ s)) col_id ;;
              ret (Some col)
          end ;;
        TIME_MICRO_OR_RAISE add_elapse_time_
          (kernel_call (fun s k =>
             Evaluate_array_to_array k col (result_array_ (p_ s))))
          (fun o => update_p_ (set_result_array_ o)) ;;
        update_p_ (set_return_type_ ArrowComputeResultType.Array) ;;
        ret Status_OK
    | _ =>
        return_ (Status_NotImplemented
          "EncodeVisitorImpl: Does not support this type of input.")
    end).

Definition Finish : Frame t -> Outcome (Frame t) :=
  run (
    s <- get ;;
    print ("Concat keys took "
           ++ TIME_TO_STRING (concat_elapse_time (this s))) ;;
    ret Status_OK).

End Class.
End EncodeVisitorImpl.

(** ** ProbeVisitorImpl *)

Module ProbeVisitorImpl.
Section Class.
Context `{KernalBase}.

Record t : Type := {
  super : ExprVisitorImpl;
  col_id_ : Z }.

#[global] Instance derived : Derived t := {|
  base := super;
  with_base b o := {| super := b; col_id_ := col_id_ o |} |}.

Definition set_col_id_ (v : Z) (o : t) : t :=
  {| super := super o; col_id_ := v |}.

Definition Init : Frame t -> Outcome (Frame t) :=
  run (
    s <- get ;;
    if initialized_ (base (this s)) then return_ Status_OK else
    RETURN_NOT_OK (make_kernel_ ProbeArrayKernel) ;;
    match param_field_names_ (p_ s) with
    | [col_name] =>
        let r := ExprVisitorImpl.GetColumnIdAndFieldByName
                   (schema_ (p_ s)) col_name in
        update_this (set_col_id_ (fst (snd r))) ;;
        RETURN_NOT_OK (ret (fst r)) ;;
        field <- deref (snd (snd r)) ;;
        update_p_ (fun p =>
          set_result_fields_ (result_fields_ p ++ [field])%list p) ;;
        set_initialized_ true ;;
        ret Status_OK
    | _ =>
        return_ (Status_Invalid
          ("EncodeVisitorImpl expects param_field_name_list only contains one "
           ++ "element."))
    end).

Definition Eval : Frame t -> Outcome (Frame t) :=
  run (
    s <- get ;;
    match dependency_result_type_ (p_ s) with
    | ArrowComputeResultType.None =>
        col <- column (in_record_batch_ (p_ s)) (col_id_ (this s)) ;;
        r <- kernel_call (fun _ k => Evaluate_array k (Some col)) ;;
        RETURN_NOT_OK (ret (result r)) ;;
        add_elapse_time_ (took r) ;;
        set_finish_return_type_ ArrowComputeResultType.Array ;;
        ret Status_OK
    | _ =>
        return_ (Status_NotImplemented
          "EncodeVisitorImpl: Does not support this type of input.")
    end).

Definition SetMember : Frame t -> Outcome (Frame t) :=
  run (
    s <- get ;;
    if negb (initialized_ (base (this s)))
    then return_ (Status_Invalid "Kernel is not initialized")
    else
    RETURN_NOT_OK (status_of
      (kernel_call (fun s k =>
         kernel_SetMember k (member_record_batch_ (p_ s))))
      no_out) ;;
    ret Status_OK).

Definition Finish : Frame t -> Outcome (Frame t) :=
  run (
    RETURN_NOT_OK ExprVisitorImpl.Finish_ ;;
    s <- get ;;
    match finish_return_type_ (base (this s)) with
    | ArrowComputeResultType.Array =>
        RETURN_NOT_OK (status_of
          (kernel_call (fun s k => Finish_array k (result_array_ (p_ s))))
          (fun o => update_p_ (set_result_array_ o))) ;;
        update_p_ (set_return_type_ ArrowComputeResultType.Array) ;;
        ret Status_OK
    | _ =>
        return_ (Status_NotImplemented
          ("AggregateVisitorImpl only support finish_return_type as "
           ++ "Array."))
    end).

End Class.
End ProbeVisitorImpl.

(** ** TakeVisitorImpl *)

Module TakeVisitorImpl.
Section Class.
Context `{KernalBase}.

Record t : Type := {
  super : ExprVisitorImpl;
  col_id_ : Z }.

#[global] Instance derived : Derived t := {|
  base := super;
  with_base b o := {| super := b; col_id_ := col_id_ o |} |}.

Definition set_col_id_ (v : Z) (o : t) : t :=
  {| super := super o; col_id_ := v |}.

Definition Init : Frame t -> Outcome (Frame t) :=
  run (
    s <- get ;;
    if initialized_ (base (this s)) then return_ Status_OK else
    RETURN_NOT_OK (make_kernel_ TakeArrayKernel) ;;
    match param_field_names_ (p_ s) with
    | [col_name] =>
        let r := ExprVisitorImpl.GetColumnIdAndFieldByName
                   (schema_ (p_ s)) col_name in
        update_this (set_col_id_ (fst (snd r))) ;;
        RETURN_NOT_OK (ret (fst r)) ;;
        field <- deref (snd (snd r)) ;;
        update_p_ (fun p =>
          set_result_fields_ (result_fields_ p ++ [field])%list p) ;;
        set_initialized_ true ;;
        ret Status_OK
    | _ =>
        return_ (Status_Invalid
          ("EncodeVisitorImpl expects param_field_name_list only contains one "
           ++ "element."))
    end).

Definition Eval : Frame t -> Outcome (Frame t) :=
  run (
    s <- get ;;
    match dependency_result_type_ (p_ s) with
    | ArrowComputeResultType.None =>
        col <- column (in_record_batch_ (p_ s)) (col_id_ (this s)) ;;
        r <- kernel_call (fun _ k => Evaluate_array k (Some col)) ;;
        RETURN_NOT_OK (ret (result r)) ;;
        add_elapse_time_ (took r) ;;
        set_finish_return_type_ ArrowComputeResultType.Array ;;
        ret Status_OK
    | _ =>
        return_ (Status_NotImplemented
          "EncodeVisitorImpl: Does not support this type of input.")
    end).

Definition SetMember : Frame t -> Outcome (Frame t) :=
  run (
    s <- get ;;
    if negb (initialized_ (base (this s)))
    then return_ (Status_Invalid "Kernel is not initialized")
    else
    RETURN_NOT_OK (status_of
      (kernel_call (fun s k =>
         kernel_SetMember k (member_record_batch_ (p_ s))))
      no_out) ;;
    ret Status_OK).

Definition Finish : Frame t -> Outcome (Frame t) :=
  run (
    RETURN_NOT_OK ExprVisitorImpl.Finish_ ;;
    s <- get ;;
    match finish_return_type_ (base (this s)) with
    | ArrowComputeResultType.Array =>
        RETURN_NOT_OK (status_of
          (kernel_call (fun s k => Finish_array k (result_array_ (p_ s))))
          (fun o => update_p_ (set_result_array_ o))) ;;
        update_p_ (set_return_type_ ArrowComputeResultType.Array) ;;
        ret Status_OK
    | _ =>
        return_ (Status_NotImplemented
          ("AggregateVisitorImpl only support finish_return_type as "
           ++ "Array."))
    end).

End Class.
End TakeVisitorImpl.

(** ** NTakeVisitorImpl *)

Module NTakeVisitorImpl.
Section Class.
Context `{KernalBase}.

Record t : Type := {
  super : ExprVisitorImpl;
  col_id_ : Z }.

#[global] Instance derived : Derived t := {|
  base := super;
  with_base b o := {| super := b; col_id_ := col_id_ o |} |}.

Definition set_col_id_ (v : Z) (o : t) : t :=
  {| super := super o; col_id_ := v |}.

Definition Init : Frame t -> Outcome (Frame t) :=
  run (
    s <- get ;;
    if initialized_ (base (this s)) then return_ Status_OK else
    RETURN_NOT_OK (make_kernel_ NTakeArrayKernel) ;;
    match param_field_names_ (p_ s) with
    | [col_name] =>
        let r := ExprVisitorImpl.GetColumnIdAndFieldByName
                   (schema_ (p_ s)) col_name in
        update_this (set_col_id_ (fst (snd r))) ;;
        RETURN_NOT_OK (ret (fst r)) ;;
        field <- deref (snd (snd r)) ;;
        update_p_ (fun p =>
          set_result_fields_ (result_fields_ p ++ [field])%list p) ;;
        set_initialized_ true ;;
        ret Status_OK
    | _ =>
        return_ (Status_Invalid
          ("EncodeVisitorImpl expects param_field_name_list only contains one "
           ++ "element."))
    end).

Definition Eval : Frame t -> Outcome (Frame t) :=
  run (
    s <- get ;;
    match dependency_result_type_ (p_ s) with
    | ArrowComputeResultType.None =>
        col <- column (in_record_batch_ (p_ s)) (col_id_ (this s)) ;;
        r <- kernel_call (fun _ k => Evaluate_array k (Some col)) ;;
        RETURN_NOT_OK (ret (result r)) ;;
        add_elapse_time_ (took r) ;;
        set_finish_return_type_ ArrowComputeResultType.Array ;;
        ret Status_OK
    | _ =>
        return_ (Status_NotImplemented
          "EncodeVisitorImpl: Does not support this type of input.")
    end).

Definition SetMember : Frame t -> Outcome (Frame t) :=
  run (
    s <- get ;;
    if negb (initialized_ (base (this s)))
    then return_ (Status_Invalid "Kernel is not initialized")
    else
    RETURN_NOT_OK (status_of
      (kernel_call (fun s k =>
         kernel_SetMember k (member_record_batch_ (p_ s))))
      no_out) ;;
    ret Status_OK).

Definition Finish : Frame t -> Outcome (Frame t) :=
  run (
    RETURN_NOT_OK ExprVisitorImpl.Finish_ ;;
    s <- get ;;
    match finish_return_type_ (base (this s)) with
    | ArrowComputeResultType.Array =>
        RETURN_NOT_OK (status_of
          (kernel_call (fun s k => Finish_array k (result_array_ (p_ s))))
          (fun o => update_p_ (set_result_array_ o))) ;;
        update_p_ (set_return_type_ ArrowComputeResultType.Array) ;;
        ret Status_OK
    | _ =>
        return_ (Status_NotImplemented
          ("AggregateVisitorImpl only support finish_return_type as "
           ++ "Array."))
    end).

End Class.
End NTakeVisitorImpl.

(** ** SortArraysToIndicesVisitorImpl *)

Module SortArraysToIndicesVisitorImpl.
Section Class.
Context `{KernalBase}.

Record t : Type := {
  super : ExprVisitorImpl;
  col_id_ : Z;
  nulls_first_ : bool;
  asc_ : bool }.

#[global] Instance derived : Derived t := {|
  base := super;
  with_base b o :=
    {| super := b; col_id_ := col_id_ o; nulls_first_ := nulls_first_ o;
       asc_ := asc_ o |} |}.

Definition set_col_id_ (v : Z) (o : t) : t :=
  {| super := super o; col_id_ := v; nulls_first_ := nulls_first_ o;
     asc_ := asc_ o |}.

Definition Init : Frame t -> Outcome (Frame t) :=
  run (
    s <- get ;;
    if initialized_ (base (this s)) then return_ Status_OK else
    RETURN_NOT_OK (make_kernel_
      (SortArraysToIndicesKernel (nulls_first_ (this s)) (asc_ (this s)))) ;;
    match param_field_names_ (p_ s) with
    | [col_name] =>
        let r := ExprVisitorImpl.GetColumnIdAndFieldByName
                   (schema_ (p_ s)) col_name in
        update_this (set_col_id_ (fst (snd r))) ;;
        RETURN_NOT_OK (ret (fst r)) ;;
        field <- deref (snd (snd r)) ;;
        update_p_ (fun p =>
          set_result_fields_ (result_fields_ p ++ [field])%list p) ;;
        set_initialized_ true ;;
        ret Status_OK
    | _ =>
        return_ (Status_Invalid
          ("SortArraysToIndicesVisitorImpl expects param_field_name_list only "
           ++ "contains " ++ "one element."))
    end).

Definition Eval : Frame t -> Outcome (Frame t) :=
  run (
    s <- get ;;
    match dependency_result_type_ (p_ s) with
    | ArrowComputeResultType.None =>
        if col_id_ (this s) >=? num_columns (in_record_batch_ (p_ s))
        then return_ (Status_Invalid
          ("SortArraysToIndicesVisitorImpl Eval col_id is bigger than input "
           ++ "batch numColumns."))
        else
        col <- column (in_record_batch_ (p_ s)) (col_id_ (this s)) ;;
        RETURN_NOT_OK (status_of
          (kernel_call (fun _ k => Evaluate_array k (Some col))) no_out) ;;
        set_finish_return_type_ ArrowComputeResultType.Array ;;
        ret Status_OK
    | _ =>
        return_ (Status_NotImplemented
          "SortArraysToIndicesVisitorImpl: Does not support this type of input.")
    end).

Definition Finish : Frame t -> Outcome (Frame t) :=
  run (
    RETURN_NOT_OK ExprVisitorImpl.Finish_ ;;
    s <- get ;;
    match finish_return_type_ (base (this s)) with
    | ArrowComputeResultType.Array =>
        TIME_MICRO_OR_RAISE add_elapse_time_
          (kernel_call (fun s k => Finish_array k (result_array_ (p_ s))))
          (fun o => update_p_ (set_result_array_ o)) ;;
        update_p_ (set_return_type_ ArrowComputeResultType.Array) ;;
        ret Status_OK
    | _ =>
        return_ (Status_NotImplemented
          ("SortArraysToIndicesVisitorImpl only support finish_return_type as "
           ++ "Array."))
    end).

End Class.
End SortArraysToIndicesVisitorImpl.

(** ** ShuffleArrayListVisitorImpl *)

Module ShuffleArrayListVisitorImpl.
Section Class.
Context `{KernalBase}.

Record t : Type := {
  super : ExprVisitorImpl;
  col_id_list_ : list Z }.

#[global] Instance derived : Derived t := {|
  base := super;
  with_base b o := {| super := b; col_id_list_ := col_id_list_ o |} |}.

Definition push_col_id (col_id : Z) (o : t) : t :=
  {| super := super o; col_id_list_ := (col_id_list_ o ++ [col_id])%list |}.

Definition Init : Frame t -> Outcome (Frame t) :=
  run (
    s <- get ;;
    if initialized_ (base (this s)) then return_ Status_OK else
    type_list <- for_each (param_field_names_ (p_ s))
      (fun col_name type_list =>
         s <- get ;;
         let r := ExprVisitorImpl.GetColumnIdAndFieldByName
                    (schema_ (p_ s)) col_name in
         RETURN_NOT_OK (ret (fst r)) ;;
         field <- deref (snd (snd r)) ;;
         update_p_ (fun p =>
           set_result_fields_ (result_fields_ p ++ [field])%list p) ;;
         update_this (push_col_id (fst (snd r))) ;;
         ret (type_list ++ [type field])%list)
      [] ;;
    RETURN_NOT_OK (make_kernel_ (ShuffleArrayListKernel type_list)) ;;
    set_initialized_ true ;;
    ret Status_OK).

Definition Eval : Frame t -> Outcome (Frame t) :=
  run (
    s <- get ;;
    col_list <- for_each (col_id_list_ (this s))
      (fun col_id col_list =>
         if col_id >=? num_columns (in_record_batch_ (p_ s))
         then return_ (Status_Invalid
           ("ShuffleArrayListVisitorImpl Eval col_id is bigger than input "
            ++ "batch numColumns."))
         else
         col <- column (in_record_batch_ (p_ s)) col_id ;;
         ret (col_list ++ [col])%list)
      [] ;;
    match dependency_result_type_ (p_ s) with
    | ArrowComputeResultType.None =>
        (* This indicates shuffle indices was not cooked yet. *)
        RETURN_NOT_OK (status_of
          (kernel_call (fun _ k => Evaluate_list k col_list)) no_out) ;;
        set_finish_return_type_ ArrowComputeResultType.Batch ;;
        ret Status_OK
    | ArrowComputeResultType.BatchIterator =>
        RETURN_NOT_OK (status_of
          (kernel_call (fun s k =>
             Evaluate_list_to_batch k col_list (result_batch_ (p_ s))))
          (fun o => update_p_ (set_result_batch_ o))) ;;
        update_p_ (set_return_type_ ArrowComputeResultType.Batch) ;;
        ret Status_OK
    | _ =>
        return_ (Status_NotImplemented
          "ShuffleArrayListVisitorImpl: Does not support this type of input.")
    end).

Definition Finish : Frame t -> Outcome (Frame t) :=
  run (
    RETURN_NOT_OK ExprVisitorImpl.Finish_ ;;
    (* override ExprVisitorImpl Finish *)
    s <- get ;;
    match in_array_ (p_ s) with
    | None =>
        return_ (Status_Invalid
          ("ShuffleArrayListVisitorImpl depends on an indices array to indicate "
           ++ "shuffle, " ++ "while input_array is invalid."))
    | Some _ =>
        RETURN_NOT_OK (status_of
          (kernel_call (fun s k => SetDependencyInput k (in_array_ (p_ s))))
          no_out) ;;
        s <- get ;;
        match finish_return_type_ (base (this s)) with
        | ArrowComputeResultType.Batch =>
            TIME_MICRO_OR_RAISE add_elapse_time_
              (kernel_call (fun s k => Finish_batch k (result_batch_ (p_ s))))
              (fun o => update_p_ (set_result_batch_ o)) ;;
            update_p_ (set_return_type_ ArrowComputeResultType.Batch) ;;
            ret Status_OK
        | _ =>
            return_ (Status_Invalid
              ("ShuffleArrayListVisitorImpl Finish does not support dependency type "
               ++ "other " ++ "than Batch and BatchList."))
        end
    end).

Definition SetDependency (dependency_iter : option ResultIterator)
  (index : Z) : Frame t -> Outcome (Frame t) :=
  run (
    RETURN_NOT_OK (status_of
      (kernel_call (fun _ k => SetDependencyIter k dependency_iter index))
      no_out) ;;
    update_p_ (set_dependency_result_type_ ArrowComputeResultType.BatchIterator) ;;
    ret Status_OK).

Definition MakeResultIterator (schema : Schema)
  : Frame t -> Outcome (Frame t) :=
  run (
    s <- get ;;
    match in_array_ (p_ s) with
    | Some _ =>
        RETURN_NOT_OK (status_of
          (kernel_call (fun s k => SetDependencyInput k (in_array_ (p_ s))))
          no_out)
    | None => ret tt
    end ;;
    s <- get ;;
    match finish_return_type_ (base (this s)) with
    | ArrowComputeResultType.Batch =>
        TIME_MICRO_OR_RAISE add_elapse_time_
          (kernel_call (fun s k =>
             kernel_MakeResultIterator k schema (out_iter s)))
          (fun o => modify (with_out_iter o)) ;;
        update_p_ (set_return_type_ ArrowComputeResultType.BatchIterator) ;;
        ret Status_OK
    | _ =>
        return_ (Status_Invalid
          ("ShuffleArrayListVisitorImpl Finish does not support dependency type "
           ++ "other " ++ "than Batch and BatchList."))
    end).

End Class.
End ShuffleArrayListVisitorImpl.

(** ** ProbeArraysVisitorImpl *)

Module ProbeArraysVisitorImpl.
Section Class.
Context `{KernalBase}.

Record t : Type := {
  super : ExprVisitorImpl;
  join_type_ : Z;
  concat_kernel_ : option Kernel;
  col_id_list_ : list Z;
  concat_elapse_time : Z }.

#[global] Instance derived : Derived t := {|
  base := super;
  with_base b o :=
    {| super := b; join_type_ := join_type_ o;
       concat_kernel_ := concat_kernel_ o; col_id_list_ := col_id_list_ o;
       concat_elapse_time := concat_elapse_time o |} |}.

Definition push_col_id (col_id : Z) (o : t) : t :=
  {| super := super o; join_type_ := join_type_ o;
     concat_kernel_ := concat_kernel_ o;
     col_id_list_ := (col_id_list_ o ++ [col_id])%list;
     concat_elapse_time := concat_elapse_time o |}.

Definition set_concat_kernel_ (v : option Kernel) (o : t) : t :=
  {| super := super o; join_type_ := join_type_ o; concat_kernel_ := v;
     col_id_list_ := col_id_list_ o;
     concat_elapse_time := concat_elapse_time o |}.

Definition add_concat_elapse_time (micros : Z) : M (Frame t) unit :=
  update_this (fun o =>
    {| super := super o; join_type_ := join_type_ o;
       concat_kernel_ := concat_kernel_ o; col_id_list_ := col_id_list_ o;
       concat_elapse_time := uint64_add (concat_elapse_time o) micros |}).

Definition concat_kernel_call {O}
  (method : Kernel -> KernelCall Kernel O)
  : M (Frame t) (KernelCall Kernel O) :=
  s <- get ;;
  k <- deref (concat_kernel_ (this s)) ;;
  let r := method k in
  update_this (set_concat_kernel_ (Some (kernel' r))) ;;
  ret r.

(** [struct ArrayItemIndex { uint64_t id; uint64_t array_id; }]. *)
Definition sizeof_ArrayItemIndex : Z := 16.
Definition sizeof_int32_t : Z := 4.

Definition Init : Frame t -> Outcome (Frame t) :=
  run (
    s <- get ;;
    if initialized_ (base (this s)) then return_ Status_OK else
    type_list <- for_each (param_field_names_ (p_ s))
      (fun col_name type_list =>
         s <- get ;;
         let r := ExprVisitorImpl.GetColumnIdAndFieldByName
                    (schema_ (p_ s)) col_name in
         RETURN_NOT_OK (ret (fst r)) ;;
         field <- deref (snd (snd r)) ;;
         update_this (push_col_id (fst (snd r))) ;;
         ret (type_list ++ [type field])%list)
      [] ;;
    data_type <-
      (if Z.of_nat (List.length type_list) >? 1 then
         RETURN_NOT_OK (
           s <- get ;;
           let r := Make (HashAggrArrayKernel type_list)
                         (concat_kernel_ (this s)) in
           update_this (set_concat_kernel_ (snd r)) ;;
           ret (fst r)) ;;
         ret int64
       else deref (nth_error type_list 0)) ;;
    s <- get ;;
    RETURN_NOT_OK (make_kernel_
      (ProbeArraysKernel data_type (join_type_ (this s)))) ;;
    let out_type :=
      FixedSizeBinaryType (sizeof_ArrayItemIndex / sizeof_int32_t) in
    let result_field := field "res" out_type in
    update_p_ (fun p =>
      set_result_fields_ (result_fields_ p ++ [result_field])%list p) ;;
    set_initialized_ true ;;
    ret Status_OK).

Definition Eval : Frame t -> Outcome (Frame t) :=
  run (
    s <- get ;;
    match dependency_result_type_ (p_ s) with
    | ArrowComputeResultType.None =>
        col <-
          match concat_kernel_ (this s) with
          | Some _ =>
              array_list <- for_each (col_id_list_ (this s))
                (fun col_id array_list =>
                   col <- column (in_record_batch_ (p_ s)) col_id ;;
                   ret (array_list ++ [col])%list)
                [] ;;
              TIME_MICRO_OR_RAISE add_concat_elapse_time
                (concat_kernel_call (fun k =>
                   Evaluate_list_to_array k array_list None))
                (fun _ => ret tt)
          | None =>
              col_id <- deref (nth_error (col_id_list_ (this s)) 0) ;;
              col <- column (in_record_batch_ (p_ s)) col_id ;;
              ret (Some col)
          end ;;
        TIME_MICRO_OR_RAISE add_elapse_time_
          (kernel_call (fun _ k => Evaluate_array k col)) no_out ;;
        set_finish_return_type_ ArrowComputeResultType.Batch ;;
        ret Status_OK
    | _ =>
        return_ (Status_NotImplemented
          "ProbeArraysVisitorImpl: Does not support this type of input.")
    end).

Definition Finish : Frame t -> Outcome (Frame t) :=
  run (
    s <- get ;;
    print ("Concat keys took "
           ++ TIME_TO_STRING (concat_elapse_time (this s))) ;;
    ret Status_OK).

Definition MakeResultIterator (schema : Schema)
  : Frame t -> Outcome (Frame t) :=
  run (
    s <- get ;;
    match finish_return_type_ (base (this s)) with
    | ArrowComputeResultType.Batch =>
        TIME_MICRO_OR_RAISE add_elapse_time_
          (kernel_call (fun s k =>
             kernel_MakeResultIterator k schema (out_iter s)))
          (fun o => modify (with_out_iter o)) ;;
        ret Status_OK
    | _ =>
        return_ (Status_NotImplemented
          ("ProbeArraysVisitorImpl MakeResultIterator: Does not support this type of "
           ++ "input"))
    end).

End Class.
End ProbeArraysVisitorImpl.

(** ** Virtual dispatch over the operator variants *)

Section Dispatch.
Context `{KernalBase}.

(** A [std::shared_ptr<ExprVisitorImpl>] whose dynamic type is one of the
    nine classes. *)
Inductive Impl : Type :=
| SplitArrayListWithAction (o : SplitArrayListWithActionVisitorImpl.t)
| Aggregate (o : AggregateVisitorImpl.t)
| Encode (o : EncodeVisitorImpl.t)
| Probe (o : ProbeVisitorImpl.t)
| Take (o : TakeVisitorImpl.t)
| NTake (o : NTakeVisitorImpl.t)
| SortArraysToIndices (o : SortArraysToIndicesVisitorImpl.t)
| ShuffleArrayList (o : ShuffleArrayListVisitorImpl.t)
| ProbeArrays (o : ProbeArraysVisitorImpl.t).

(** Run the method of class [T] on the object [o] that [this] points to. *)
Definition dispatch {T} (inj : T -> Impl)
  (method : Frame T -> Outcome (Frame T)) (o : T) (s : Frame Impl)
  : Outcome (Frame Impl) :=
  match method (with_this o s) with
  | Returned st s' => Returned st (with_this (inj (this s')) s')
  | Undefined => Undefined
  end.

Definition impl_base (i : Impl) : ExprVisitorImpl :=
  match i with
  | SplitArrayListWithAction o => base o
  | Aggregate o => base o
  | Encode o => base o
  | Probe o => base o
  | Take o => base o
  | NTake o => base o
  | SortArraysToIndices o => base o
  | ShuffleArrayList o => base o
  | ProbeArrays o => base o
  end.

Definition impl_with_base (b : ExprVisitorImpl) (i : Impl) : Impl :=
  match i with
  | SplitArrayListWithAction o => SplitArrayListWithAction (with_base b o)
  | Aggregate o => Aggregate (with_base b o)
  | Encode o => Encode (with_base b o)
  | Probe o => Probe (with_base b o)
  | Take o => Take (with_base b o)
  | NTake o => NTake (with_base b o)
  | SortArraysToIndices o => SortArraysToIndices (with_base b o)
  | ShuffleArrayList o => ShuffleArrayList (with_base b o)
  | ProbeArrays o => ProbeArrays (with_base b o)
  end.

#[global] Instance impl_derived : Derived Impl := {|
  base := impl_base;
  with_base := impl_with_base |}.

Definition Init (s : Frame Impl) : Outcome (Frame Impl) :=
  match this s with
  | SplitArrayListWithAction o =>
      dispatch SplitArrayListWithAction
               SplitArrayListWithActionVisitorImpl.Init o s
  | Aggregate o => dispatch Aggregate AggregateVisitorImpl.Init o s
  | Encode o => dispatch Encode EncodeVisitorImpl.Init o s
  | Probe o => dispatch Probe ProbeVisitorImpl.Init o s
  | Take o => dispatch Take TakeVisitorImpl.Init o s
  | NTake o => dispatch NTake NTakeVisitorImpl.Init o s
  | SortArraysToIndices o =>
      dispatch SortArraysToIndices SortArraysToIndicesVisitorImpl.Init o s
  | ShuffleArrayList o =>
      dispatch ShuffleArrayList ShuffleArrayListVisitorImpl.Init o s
  | ProbeArrays o => dispatch ProbeArrays ProbeArraysVisitorImpl.Init o s
  end.

Definition Eval (s : Frame Impl) : Outcome (Frame Impl) :=
  match this s with
  | SplitArrayListWithAction o =>
      dispatch SplitArrayListWithAction
               SplitArrayListWithActionVisitorImpl.Eval o s
  | Aggregate o => dispatch Aggregate AggregateVisitorImpl.Eval o s
  | Encode o => dispatch Encode EncodeVisitorImpl.Eval o s
  | Probe o => dispatch Probe ProbeVisitorImpl.Eval o s
  | Take o => dispatch Take TakeVisitorImpl.Eval o s
  | NTake o => dispatch NTake NTakeVisitorImpl.Eval o s
  | SortArraysToIndices o =>
      dispatch SortArraysToIndices SortArraysToIndicesVisitorImpl.Eval o s
  | ShuffleArrayList o =>
      dispatch ShuffleArrayList ShuffleArrayListVisitorImpl.Eval o s
  | ProbeArrays o => dispatch ProbeArrays ProbeArraysVisitorImpl.Eval o s
  end.

Definition Finish (s : Frame Impl) : Outcome (Frame Impl) :=
  match this s with
  | SplitArrayListWithAction o =>
      dispatch SplitArrayListWithAction
               SplitArrayListWithActionVisitorImpl.Finish o s
  | Aggregate o => dispatch Aggregate AggregateVisitorImpl.Finish o s
  | Encode o => dispatch Encode EncodeVisitorImpl.Finish o s
  | Probe o => dispatch Probe ProbeVisitorImpl.Finish o s
  | Take o => dispatch Take TakeVisitorImpl.Finish o s
  | NTake o => dispatch NTake NTakeVisitorImpl.Finish o s
  | SortArraysToIndices o =>
      dispatch SortArraysToIndices SortArraysToIndicesVisitorImpl.Finish o s
  | ShuffleArrayList o =>
      dispatch ShuffleArrayList ShuffleArrayListVisitorImpl.Finish o s
  | ProbeArrays o => dispatch ProbeArrays ProbeArraysVisitorImpl.Finish o s
  end.

(** Only the probe-build, take and n-take classes override [SetMember]. *)
Definition SetMember (s : Frame Impl) : Outcome (Frame Impl) :=
  match this s with
  | Probe o => dispatch Probe ProbeVisitorImpl.SetMember o s
  | Take o => dispatch Take TakeVisitorImpl.SetMember o s
  | NTake o => dispatch NTake NTakeVisitorImpl.SetMember o s
  | _ => ExprVisitorImpl.SetMember s
  end.

(** Only the shuffle class overrides [SetDependency]. *)
Definition SetDependency (dependency_iter : option ResultIterator)
  (index : Z) (s : Frame Impl) : Outcome (Frame Impl) :=
  match this s with
  | ShuffleArrayList o =>
      dispatch ShuffleArrayList
        (ShuffleArrayListVisitorImpl.SetDependency dependency_iter index) o s
  | _ => ExprVisitorImpl.SetDependency dependency_iter index s
  end.

Definition MakeResultIterator (schema : Schema) (s : Frame Impl)
  : Outcome (Frame Impl) :=
  match this s with
  | SplitArrayListWithAction o =>
      dispatch SplitArrayListWithAction
        (SplitArrayListWithActionVisitorImpl.MakeResultIterator schema) o s
  | ShuffleArrayList o =>
      dispatch ShuffleArrayList
        (ShuffleArrayListVisitorImpl.MakeResultIterator schema) o s
  | ProbeArrays o =>
      dispatch ProbeArrays
        (ProbeArraysVisitorImpl.MakeResultIterator schema) o s
  | _ => ExprVisitorImpl.MakeResultIterator schema s
  end.

(** The name of the object's class. *)
Definition class_name (i : Impl) : string :=
  match i with
  | SplitArrayListWithAction _ => "SplitArrayListWithActionVisitorImpl"
  | Aggregate _ => "AggregateVisitorImpl"
  | Encode _ => "EncodeVisitorImpl"
  | Probe _ => "ProbeVisitorImpl"
  | Take _ => "TakeVisitorImpl"
  | NTake _ => "NTakeVisitorImpl"
  | SortArraysToIndices _ => "SortArraysToIndicesVisitorImpl"
  | ShuffleArrayList _ => "ShuffleArrayListVisitorImpl"
  | ProbeArrays _ => "ProbeArraysVisitorImpl"
  end.

(** The tags with a [case] label of their own in the class's [Eval]. *)
Definition supports (i : Impl) (tag : ArrowComputeResultType.t) : bool :=
  match i, tag with
  | SplitArrayListWithAction _, ArrowComputeResultType.Array => true
  | SplitArrayListWithAction _, _ => false
  | ShuffleArrayList _, ArrowComputeResultType.None => true
  | ShuffleArrayList _, ArrowComputeResultType.BatchIterator => true
  | ShuffleArrayList _, _ => false
  | _, ArrowComputeResultType.None => true
  | _, _ => false
  end.

(** The resolved column indices the object holds. *)
Definition resolved_columns (i : Impl) : list Z :=
  match i with
  | SplitArrayListWithAction o =>
      SplitArrayListWithActionVisitorImpl.col_id_list_ o
  | Aggregate o => AggregateVisitorImpl.col_id_list_ o
  | Encode o => EncodeVisitorImpl.col_id_list_ o
  | Probe o => [ProbeVisitorImpl.col_id_ o]
  | Take o => [TakeVisitorImpl.col_id_ o]
  | NTake o => [NTakeVisitorImpl.col_id_ o]
  | SortArraysToIndices o => [SortArraysToIndicesVisitorImpl.col_id_ o]
  | ShuffleArrayList o => ShuffleArrayListVisitorImpl.col_id_list_ o
  | ProbeArrays o => ProbeArraysVisitorImpl.col_id_list_ o
  end.

Definition is_shuffle (i : Impl) : bool :=
  match i with ShuffleArrayList _ => true | _ => false end.

(** The tag of the context replaced. *)
Definition retag {T} (tag : ArrowComputeResultType.t) (s : Frame T)
  : Frame T :=
  with_p_ (set_dependency_result_type_ tag (p_ s)) s.

(** The kernel object that [kernel_] points to replaced by [k]. *)
Definition rebind_kernel (k : Kernel) (s : Frame Impl) : Frame Impl :=
  with_this
    (with_base
       {| initialized_ := initialized_ (base (this s));
          finish_return_type_ := finish_return_type_ (base (this s));
          kernel_ := Some k |}
       (this s))
    s.

(** The classes that override [SetMember]. *)
Definition overrides_SetMember (i : Impl) : bool :=
  match i with Probe _ | Take _ | NTake _ => true | _ => false end.


(** The loop that gathers the columns at [col_ids] after checking each
    index against the batch's column count. *)
Definition checked_columns {S} (batch : RecordBatch) (msg : string)
  (col_ids : list Z) : list Array -> M S (list Array) :=
  for_each col_ids
    (fun col_id col_list =>
       if col_id >=? num_columns batch
       then return_ (Status_Invalid msg)
       else
       col <- column batch col_id ;;
       ret (col_list ++ [col])%list).

End Dispatch.

(** ** code_generator_factory.h *)

Section Factory.

(** [gandiva::Expression], the codes [ARROW_COMPUTE], [GANDIVA] and
    [COMPUTE_EXT] and [ExprVisitor::create] of codegen/expr_visitor.h are
    not among the sources.  [create] yields its status and the value
    [codegen_type] holds afterwards. *)
Variable Expression : Type.
Variables ARROW_COMPUTE GANDIVA COMPUTE_EXT : Z.
Variable create : list Expression -> Status * Z.

Record GeneratorArgs : Type := {
  schema_ptr : Schema;
  exprs_vector : list Expression;
  ret_types : list Field;
  return_when_finish : bool }.

Inductive CodeGenerator : Type :=
| ArrowComputeCodeGenerator (args : GeneratorArgs)
| GandivaCodeGenerator (args : GeneratorArgs)
| ComputeExtCodeGenerator (args : GeneratorArgs).

(** The status returned and the pointer left in [*out]. *)
Definition CreateCodeGenerator (schema_ptr : Schema)
  (exprs_vector : list Expression) (ret_types : list Field)
  (return_when_finish : bool) : Status * option CodeGenerator :=
  let args := {| schema_ptr := schema_ptr; exprs_vector := exprs_vector;
                 ret_types := ret_types;
                 return_when_finish := return_when_finish |} in
  let status := fst (create exprs_vector) in
  let codegen_type := snd (create exprs_vector) in
  if codegen_type =? ARROW_COMPUTE then
    (status, Some (ArrowComputeCodeGenerator args))
  else if codegen_type =? GANDIVA then
    (status, Some (GandivaCodeGenerator args))
  else if codegen_type =? COMPUTE_EXT then
    (status, Some (ComputeExtCodeGenerator args))
  else
    (Status_TypeError "Unrecognized expression type.", None).

End Factory.

(** ** Reasoning about method bodies *)

(** [triple m s Q R]: run from [s], the statement [m] falls through with a
    value and state satisfying [Q], or returns from the method with a
    status and state satisfying [R]; nothing is said when it is undefined. *)
Definition triple {S A} (m : M S A) (s : S) (Q : A -> S -> Prop)
  (R : Status -> S -> Prop) : Prop :=
  match m s with
  | Continue a s' => Q a s'
  | Return st s' => R st s'
  | UB => True
  end.

(** [total m s Q R]: as [triple], and the statement is defined: run from
    [s] it does fall through or return. *)
Definition total {S A} (m : M S A) (s : S) (Q : A -> S -> Prop)
  (R : Status -> S -> Prop) : Prop :=
  match m s with
  | Continue a s' => Q a s'
  | Return st s' => R st s'
  | UB => False
  end.

(** ** Vocabulary of the further properties *)

Section Vocabulary.
Context `{KernalBase}.

(** What [Init] may change: in the context the result-field list only,
    and neither the printed lines nor the caller's iterator holder. *)
Definition init_frame {T} (s s1 : Frame T) : Prop :=
  set_result_fields_ (result_fields_ (p_ s)) (p_ s1) = p_ s /\
  cout s1 = cout s /\ out_iter s1 = out_iter s.

(** The column names an operator's [Init] resolves: the action parameters
    for the split operator, the parameter field names for the others. *)
Definition referenced_columns (i : Impl) (p : ExprVisitor) : list string :=
  match i with
  | SplitArrayListWithAction _ => action_param_list_ p
  | _ => param_field_names_ p
  end.

(** The classes that keep a vector [col_id_list_], which [Init] appends
    to; the others hold one [col_id_], which [Init] overwrites. *)
Definition has_column_list (i : Impl) : bool :=
  match i with
  | SplitArrayListWithAction _ | Aggregate _ | Encode _
  | ShuffleArrayList _ | ProbeArrays _ => true
  | _ => false
  end.

(** The classes whose [Eval] compares a column index with the batch's
    column count before reading the column. *)
Definition checks_bounds (i : Impl) : bool :=
  match i with
  | SplitArrayListWithAction _ | Aggregate _ | SortArraysToIndices _
  | ShuffleArrayList _ => true
  | _ => false
  end.

(** The value of [finish_return_type_] that the class's [Finish] (for the
    probe-arrays class its [MakeResultIterator]) has a [case] for; the
    encode class has no such switch. *)
Definition finish_kind (i : Impl) : option ArrowComputeResultType.t :=
  match i with
  | SplitArrayListWithAction _ | Aggregate _ | ShuffleArrayList _
  | ProbeArrays _ => Some ArrowComputeResultType.Batch
  | Probe _ | Take _ | NTake _ | SortArraysToIndices _ =>
      Some ArrowComputeResultType.Array
  | Encode _ => None
  end.

(** The classes whose [Finish] is a switch on [finish_return_type_] with
    a NotImplemented default. *)
Definition finish_switches (i : Impl) : bool :=
  match i with
  | SplitArrayListWithAction _ | Aggregate _ | Probe _ | Take _ | NTake _
  | SortArraysToIndices _ => true
  | _ => false
  end.

(** The classes that override [MakeResultIterator]. *)
Definition overrides_MakeResultIterator (i : Impl) : bool :=
  match i with
  | SplitArrayListWithAction _ | ShuffleArrayList _ | ProbeArrays _ => true
  | _ => false
  end.

(** What [Init] registered and the caller supplied, which [Eval] only
    reads: the resolved columns, the initialized flag, the result fields,
    the schema, the parameter names, the input batch, the indices array,
    the member batch, the printed lines and the iterator holder. *)
Definition registration {T} `{Derived T} (cols : T -> list Z) (s : Frame T) :=
  (cols (this s), initialized_ (base (this s)), result_fields_ (p_ s),
   schema_ (p_ s), param_field_names_ (p_ s), in_record_batch_ (p_ s),
   in_array_ (p_ s), member_record_batch_ (p_ s), cout s, out_iter s).

(** The schema's lookup finds [col_name]: the index it gives is a position
    of the schema. *)
Definition resolves (schema : Schema) (col_name : string) : Prop :=
  0 <= GetFieldIndex schema col_name < Z.of_nat (List.length schema).

(** Where the operator stands in its life cycle: the tag it reads, the
    kind it announced for [Finish] and the kind of result it published. *)
Definition progress {T} `{Derived T} (s : Frame T) :=
  (dependency_result_type_ (p_ s), finish_return_type_ (base (this s)),
   return_type_ (p_ s)).

(** The operator's [kernel_] pointer replaced by [k]. *)
Definition with_kernel_ (k : option Kernel) (s : Frame Impl) : Frame Impl :=
  with_this
    (with_base
       {| initialized_ := initialized_ (base (this s));
          finish_return_type_ := finish_return_type_ (base (this s));
          kernel_ := k |}
       (this s))
    s.

(** The kernel that the [Init] of a class makes before it looks at the
    parameter names. *)
Definition kernel_made_first (i : Impl) : option KernelMake :=
  match i with
  | Encode _ => Some EncodeArrayKernel
  | Probe _ => Some ProbeArrayKernel
  | Take _ => Some TakeArrayKernel
  | NTake _ => Some NTakeArrayKernel
  | SortArraysToIndices o =>
      Some (SortArraysToIndicesKernel
              (SortArraysToIndicesVisitorImpl.nulls_first_ o)
              (SortArraysToIndicesVisitorImpl.asc_ o))
  | _ => None
  end.

(** The result-field list after a successful [Init], from the list before
    and the fields of the resolved columns: the encode and probe-arrays
    operators register one field res of their own, the aggregate operator
    adds cnt for sum_count and drops the last field for avgByCount, and
    every other case registers the columns' fields. *)
Definition registered_fields (i : Impl) (before fields : list Field)
  : list Field :=
  match i with
  | Encode _ => (before ++ [field "res" uint32])%list
  | ProbeArrays _ => (before ++ [field "res" (FixedSizeBinaryType 4)])%list
  | Aggregate o =>
      if String.eqb (AggregateVisitorImpl.func_name_ o) "sum_count"
      then (before ++ fields ++ [field "cnt" int64])%list
      else if String.eqb (AggregateVisitorImpl.func_name_ o) "avgByCount"
      then removelast (before ++ fields)%list
      else (before ++ fields)%list
  | _ => (before ++ fields)%list
  end.

End Vocabulary.

(** ** A recording kernel, for running the operators on concrete inputs *)

Module Recorder.

(** The kernel remembers how it was made and what it was given. *)
Record t : Type := {
  made : KernelMake;
  seen : list (list Z);
  member : option (list (list Z));
  dependency : option (list Z) }.

Definition fresh (m : KernelMake) : t :=
  {| made := m; seen := []; member := None; dependency := None |}.

Definition feed (cols : list (list Z)) (k : t) : t :=
  {| made := made k; seen := (seen k ++ cols)%list; member := member k;
     dependency := dependency k |}.

Definition done {O} (k : t) (o : O) : KernelCall t O :=
  {| result := Status_OK; kernel' := k; out := o; took := 1 |}.

#[local] Instance kernels : KernalBase := {|
  Array := list Z;
  ResultIterator := list (list Z);
  Kernel := t;
  TIME_TO_STRING := fun time => if time >? 10000 then "ms" else "us";
  Make := fun m _ => (Status_OK, Some (fresh m));
  Evaluate_list := fun k cols => done (feed cols k) tt;
  Evaluate_list_with := fun k cols _ => done (feed cols k) tt;
  Evaluate_list_to_array := fun k cols _ =>
    done (feed cols k) (Some (List.concat cols));
  Evaluate_list_to_batch := fun k cols _ => done (feed cols k) cols;
  Evaluate_array := fun k col =>
    done (feed (match col with Some c => [c] | None => [] end) k) tt;
  Evaluate_array_to_array := fun k col _ =>
    done (feed (match col with Some c => [c] | None => [] end) k) col;
  Finish_batch := fun k _ => done k (seen k);
  Finish_array := fun k _ => done k (Some (List.concat (seen k)));
  kernel_MakeResultIterator := fun k _ _ => done k (Some (seen k));
  kernel_SetMember := fun k m =>
    done {| made := made k; seen := seen k; member := m;
            dependency := dependency k |} tt;
  SetDependencyInput := fun k a =>
    done {| made := made k; seen := seen k; member := member k;
            dependency := a |} tt;
  SetDependencyIter := fun k _ _ => done k tt |}.

(** A context over the schema [(a : int64, b : float64, cnt : int64)] and
    an input batch of these three columns. *)
Definition visitor (params : list string)
  (tag : ArrowComputeResultType.t) (batch : list (list Z))
  (indices : option (list Z)) : ExprVisitor :=
  {| func_name_ := "example";
     schema_ := [field "a" int64; field "b" float64; field "cnt" int64];
     param_field_names_ := params;
     action_name_list_ := ["action_sum"];
     action_param_list_ := params;
     in_record_batch_ := batch;
     in_array_ := indices;
     member_record_batch_ := Some [[10; 20; 30]];
     dependency_result_type_ := tag;
     return_type_ := ArrowComputeResultType.None;
     result_fields_ := [];
     result_array_ := None;
     result_batch_ := [];
     elapse_time_ := 0 |}.

Definition three_columns : list (list Z) := [[1; 2; 3]; [4; 5; 6]; [3; 3; 3]].

Definition frame {T} (o : T) (p : ExprVisitor) : Frame T :=
  {| this := o; p_ := p; cout := []; out_iter := None |}.

(** The members of a newly made operator; [finish_return_type_] has no
    initializer in the source and is given a value here. *)
Definition unset : ExprVisitorImpl :=
  {| initialized_ := false;
     finish_return_type_ := ArrowComputeResultType.None;
     kernel_ := None |}.

Definition split : Impl :=
  SplitArrayListWithAction
    {| SplitArrayListWithActionVisitorImpl.super := unset;
       SplitArrayListWithActionVisitorImpl.col_id_list_ := [] |}.

Definition aggregate (func_name : string) : Impl :=
  Aggregate
    {| AggregateVisitorImpl.super := unset;
       AggregateVisitorImpl.col_id_list_ := [];
       AggregateVisitorImpl.func_name_ := func_name |}.

Definition encode : Impl :=
  Encode
    {| EncodeVisitorImpl.super := unset;
       EncodeVisitorImpl.col_id_list_ := [];
       EncodeVisitorImpl.concat_kernel_ := None;
       EncodeVisitorImpl.concat_elapse_time := 0 |}.

Definition probe : Impl :=
  Probe {| ProbeVisitorImpl.super := unset; ProbeVisitorImpl.col_id_ := 0 |}.

Definition take : Impl :=
  Take {| TakeVisitorImpl.super := unset; TakeVisitorImpl.col_id_ := 0 |}.

Definition ntake : Impl :=
  NTake {| NTakeVisitorImpl.super := unset; NTakeVisitorImpl.col_id_ := 0 |}.

Definition sort : Impl :=
  SortArraysToIndices
    {| SortArraysToIndicesVisitorImpl.super := unset;
       SortArraysToIndicesVisitorImpl.col_id_ := 0;
       SortArraysToIndicesVisitorImpl.nulls_first_ := false;
       SortArraysToIndicesVisitorImpl.asc_ := true |}.

Definition shuffle : Impl :=
  ShuffleArrayList
    {| ShuffleArrayListVisitorImpl.super := unset;
       ShuffleArrayListVisitorImpl.col_id_list_ := [] |}.

Definition probe_arrays : Impl :=
  ProbeArrays
    {| ProbeArraysVisitorImpl.super := unset;
       ProbeArraysVisitorImpl.join_type_ := 0;
       ProbeArraysVisitorImpl.concat_kernel_ := None;
       ProbeArraysVisitorImpl.col_id_list_ := [];
       ProbeArraysVisitorImpl.concat_elapse_time := 0 |}.

(** The frame a call leaves, the one it was made on when it is undefined. *)
Definition after (call : Frame Impl -> Outcome (Frame Impl))
  (s : Frame Impl) : Frame Impl :=
  match call s with Returned _ s' => s' | Undefined => s end.

(** The caller hands the operator its next input batch. *)
Definition next_batch (batch : list (list Z)) (s : Frame Impl)
  : Frame Impl :=
  with_p_ (set_in_record_batch_ batch (p_ s)) s.

End Recorder.

(** * Properties *)

Section Facts.
Context `{KernalBase}.

Lemma with_this_this {T} (s : Frame T) : with_this (this s) s = s.
Proof. destruct s; reflexivity. Qed.

Lemma dispatch_unchanged {T} (inj : T -> Impl) method (o : T) st
  (s : Frame Impl) :
  this s = inj o ->
  method (with_this o s) = Returned st (with_this o s) ->
  dispatch inj method o s = Returned st s.
Proof.
  intros Hthis Hm. unfold dispatch. rewrite Hm. cbn.
  rewrite <- Hthis. destruct s; reflexivity.
Qed.

Lemma column_in_range {S} (batch : RecordBatch) (c : Z) :
  0 <= c < num_columns batch ->
  exists a, nth_error batch (Z.to_nat c) = Some a /\
            forall s : S, column batch c s = Continue a s.
Proof.
  intros Hc. unfold num_columns in Hc.
  destruct (nth_error batch (Z.to_nat c)) as [a|] eqn:E.
  - exists a. split; [reflexivity|]. intros s. unfold column, num_columns.
    replace (0 <=? c) with true by (symmetry; apply Z.leb_le; lia).
    replace (c <? Z.of_nat (List.length batch)) with true
      by (symmetry; apply Z.ltb_lt; lia).
    cbn. rewrite E. reflexivity.
  - apply nth_error_None in E. lia.
Qed.

Lemma column_out_of_range {S} (batch : RecordBatch) (c : Z) (s : S) :
  c < 0 \/ num_columns batch <= c -> column batch c s = UB.
Proof.
  intros Hc. unfold column.
  destruct (0 <=? c) eqn:E1; destruct (c <? num_columns batch) eqn:E2;
    try reflexivity.
  apply Z.leb_le in E1. apply Z.ltb_lt in E2. lia.
Qed.

Lemma checked_columns_in_range {S} batch msg col_ids :
  Forall (fun c => 0 <= c < num_columns batch) col_ids ->
  forall acc (s : S), exists cols,
    checked_columns batch msg col_ids acc s = Continue cols s.
Proof.
  unfold checked_columns.
  induction 1 as [|c rest Hc _ IH]; intros acc s; cbn.
  - eexists; reflexivity.
  - unfold bind at 1.
    replace (c >=? num_columns batch) with false
      by (symmetry; rewrite Z.geb_leb; apply Z.leb_gt; lia).
    destruct (column_in_range (S:=S) batch Hc) as [a [_ Ha]].
    unfold bind at 1. rewrite Ha. cbn. apply IH.
Qed.

Lemma checked_columns_out_of_range {S} batch msg col_ids :
  Forall (fun c => 0 <= c) col_ids ->
  Exists (fun c => num_columns batch <= c) col_ids ->
  forall acc (s : S),
    checked_columns batch msg col_ids acc s = Return (Status_Invalid msg) s.
Proof.
  unfold checked_columns.
  induction 1 as [|c rest Hc _ IH]; intros Hex acc s.
  - inversion Hex.
  - cbn. unfold bind at 1.
    destruct (c >=? num_columns batch) eqn:E.
    + reflexivity.
    + rewrite Z.geb_leb in E. apply Z.leb_gt in E.
      destruct (column_in_range (S:=S) batch (conj Hc E)) as [a [_ Ha]].
      unfold bind at 1. rewrite Ha. cbn. apply IH.
      inversion Hex; subst; [lia | assumption].
Qed.

End Facts.

Section RunLemmas.

Lemma run_bind_Continue {S A} (m : M S A) (k : A -> M S Status) s a s' :
  m s = Continue a s' -> run (bind m k) s = run (k a) s'.
Proof. intros E. unfold run, bind. rewrite E. reflexivity. Qed.

Lemma run_bind_Return {S A} (m : M S A) (k : A -> M S Status) s st s' :
  m s = Return st s' -> run (bind m k) s = Returned st s'.
Proof. intros E. unfold run, bind. rewrite E. reflexivity. Qed.

Lemma run_bind_UB {S A} (m : M S A) (k : A -> M S Status) s :
  m s = UB -> run (bind m k) s = Undefined.
Proof. intros E. unfold run, bind. rewrite E. reflexivity. Qed.

End RunLemmas.

Section Unsupported.
Context `{KernalBase}.

Lemma shuffle_Eval_unsupported_in_range (s : Frame ShuffleArrayListVisitorImpl.t) :
  dependency_result_type_ (p_ s) = ArrowComputeResultType.Array \/
  dependency_result_type_ (p_ s) = ArrowComputeResultType.Batch ->
  Forall (fun c => 0 <= c < num_columns (in_record_batch_ (p_ s)))
         (ShuffleArrayListVisitorImpl.col_id_list_ (this s)) ->
  ShuffleArrayListVisitorImpl.Eval s =
  Returned (Status_NotImplemented
    "ShuffleArrayListVisitorImpl: Does not support this type of input.") s.
Proof.
  intros Ht Hall.
  unfold ShuffleArrayListVisitorImpl.Eval.
  erewrite run_bind_Continue by reflexivity.
  destruct (checked_columns_in_range _
              ("ShuffleArrayListVisitorImpl Eval col_id is bigger than input "
               ++ "batch numColumns.") Hall [] s) as [cols Hc].
  erewrite run_bind_Continue by exact Hc.
  destruct Ht as [-> | ->]; reflexivity.
Qed.

Lemma shuffle_Eval_out_of_range (s : Frame ShuffleArrayListVisitorImpl.t) :
  Forall (fun c => 0 <= c)
         (ShuffleArrayListVisitorImpl.col_id_list_ (this s)) ->
  Exists (fun c => num_columns (in_record_batch_ (p_ s)) <= c)
         (ShuffleArrayListVisitorImpl.col_id_list_ (this s)) ->
  ShuffleArrayListVisitorImpl.Eval s =
  Returned (Status_Invalid
    ("ShuffleArrayListVisitorImpl Eval col_id is bigger than input "
     ++ "batch numColumns.")) s.
Proof.
  intros Hall Hex.
  unfold ShuffleArrayListVisitorImpl.Eval.
  erewrite run_bind_Continue by reflexivity.
  erewrite run_bind_Return; [reflexivity|].
  exact (checked_columns_out_of_range _ _ Hall Hex [] s).
Qed.

End Unsupported.

Section UnsupportedTag.
Context `{KernalBase}.

Lemma retag_same {T} (s : Frame T) :
  retag (dependency_result_type_ (p_ s)) s = s.
Proof. destruct s as [o p c i]; destruct p; reflexivity. Qed.

(** C1 (amended).  [Eval] entered with a tag that has no [case] label in
    the operator's class changes nothing in the operator, the context or
    the output holders.  For every class other than the shuffle operator,
    and for the shuffle operator when each of its resolved column indices
    lies within the input batch, it fails with NotImplemented; the message
    is one fixed text per class, the same for every unsupported tag, and
    for the split, aggregate, encode, sort, shuffle and probe-arrays
    classes it starts with the class's name.  The shuffle operator gathers
    its columns before it looks at the tag: with an index at or above the
    batch's column count it fails with Invalid instead. *)
Theorem Eval_unsupported_tag (s : Frame Impl) :
  supports (this s) (dependency_result_type_ (p_ s)) = false ->
  (is_shuffle (this s) = false \/
   Forall (fun c => 0 <= c < num_columns (in_record_batch_ (p_ s)))
          (resolved_columns (this s)) ->
   exists msg,
     Eval s = Returned (Status_NotImplemented msg) s /\
     (forall tag, supports (this s) tag = false ->
        Eval (retag tag s) = Returned (Status_NotImplemented msg) (retag tag s)) /\
     match this s with
     | Probe _ | Take _ | NTake _ => True
     | i => String.prefix (class_name i) msg = true
     end) /\
  (is_shuffle (this s) = true ->
   Forall (fun c => 0 <= c) (resolved_columns (this s)) ->
   Exists (fun c => num_columns (in_record_batch_ (p_ s)) <= c)
          (resolved_columns (this s)) ->
   exists msg, Eval s = Returned (Status_Invalid msg) s).
Proof.
  intros Hs.
  assert (Hall : forall tag, supports (this s) tag = false ->
     is_shuffle (this s) = false \/
     Forall (fun c => 0 <= c < num_columns (in_record_batch_ (p_ s)))
            (resolved_columns (this s)) ->
     exists msg,
       Eval (retag tag s) = Returned (Status_NotImplemented msg) (retag tag s) /\
       (forall tag', supports (this s) tag' = false ->
          Eval (retag tag' s) =
          Returned (Status_NotImplemented msg) (retag tag' s)) /\
       match this s with
       | Probe _ | Take _ | NTake _ => True
       | i => String.prefix (class_name i) msg = true
       end).
  { clear Hs. intros tag Hs Hr.
    assert (Hone : exists msg,
       (forall tag', supports (this s) tag' = false ->
          Eval (retag tag' s) =
          Returned (Status_NotImplemented msg) (retag tag' s)) /\
       match this s with
       | Probe _ | Take _ | NTake _ => True
       | i => String.prefix (class_name i) msg = true
       end).
    { destruct s as [i p c o]; cbn [this p_] in *.
      destruct i; cbn [is_shuffle resolved_columns] in Hr;
        try (eexists; split;
             [ intros tag' Ht; destruct tag'; try discriminate Ht;
               apply dispatch_unchanged; reflexivity
             | reflexivity ]).
      destruct Hr as [Hr | Hr]; [discriminate|].
      eexists; split.
      - intros tag' Ht. apply dispatch_unchanged; [reflexivity|].
        apply shuffle_Eval_unsupported_in_range.
        + destruct tag'; try discriminate Ht; cbn; auto.
        + exact Hr.
      - reflexivity. }
    destruct Hone as [msg [H1 H2]]. exists msg. auto. }
  split.
  - intros Hr. destruct (Hall _ Hs Hr) as [msg [H1 [H2 H3]]].
    rewrite retag_same in H1. exists msg. auto.
  - intros Hsh Hpos Hex. destruct s as [i p c o]; cbn [this p_] in *.
    destruct i; try discriminate Hsh. eexists.
    apply dispatch_unchanged; [reflexivity|].
    apply shuffle_Eval_out_of_range; assumption.
Qed.

End UnsupportedTag.

Section Triples.
Context {S : Type}.
Implicit Types (s : S) (R : Status -> S -> Prop).

Lemma triple_bind {A B} (m : M S A) (k : A -> M S B) s Q R :
  triple m s (fun a s' => triple (k a) s' Q R) R -> triple (bind m k) s Q R.
Proof. unfold triple, bind. destruct (m s); auto. Qed.

Lemma triple_ret {A} (a : A) s (Q : A -> S -> Prop) R :
  Q a s -> triple (ret a) s Q R.
Proof. auto. Qed.

Lemma triple_return {A} st s (Q : A -> S -> Prop) R :
  R st s -> triple (return_ st) s Q R.
Proof. auto. Qed.

Lemma triple_undefined {A} s (Q : A -> S -> Prop) R :
  triple undefined s Q R.
Proof. exact I. Qed.

Lemma triple_get s (Q : S -> S -> Prop) R : Q s s -> triple get s Q R.
Proof. auto. Qed.

Lemma triple_modify (f : S -> S) s (Q : unit -> S -> Prop) R :
  Q tt (f s) -> triple (modify f) s Q R.
Proof. auto. Qed.

Lemma triple_deref {A} (o : option A) s (Q : A -> S -> Prop) R :
  (forall a, o = Some a -> Q a s) -> triple (deref o) s Q R.
Proof. destruct o; cbn; auto. Qed.

Lemma triple_RETURN_NOT_OK (m : M S Status) s (Q : unit -> S -> Prop) R :
  triple m s (fun st s' => if ok st then Q tt s' else R st s') R ->
  triple (RETURN_NOT_OK m) s Q R.
Proof.
  intros Hm. unfold RETURN_NOT_OK. apply triple_bind.
  unfold triple in *. destruct (m s) as [st s'| |]; auto.
  destruct (ok st); auto.
Qed.

Lemma triple_weaken {A} (m : M S A) s (Q Q' : A -> S -> Prop) R R' :
  triple m s Q R ->
  (forall a s', Q a s' -> Q' a s') -> (forall st s', R st s' -> R' st s') ->
  triple m s Q' R'.
Proof. unfold triple. destruct (m s); auto. Qed.

Lemma triple_for_each {A L} (Inv : list A -> L -> S -> Prop)
  (xs : list A) (body : A -> L -> M S L) (l : L) s Q R :
  Inv xs l s ->
  (forall x rest l s, Inv (x :: rest) l s -> triple (body x l) s (Inv rest) R) ->
  (forall l s, Inv [] l s -> Q l s) ->
  triple (for_each xs body l) s Q R.
Proof.
  intros Hinv Hbody Hend. revert l s Hinv.
  induction xs as [|x rest IH]; intros l s Hinv.
  - apply triple_ret. auto.
  - cbn. apply triple_bind.
    eapply triple_weaken; [apply Hbody; exact Hinv | | auto].
    intros l' s' H'. apply IH. exact H'.
Qed.

Lemma run_triple (body : M S Status) s st s' (Q R : Status -> S -> Prop) :
  triple body s Q R -> run body s = Returned st s' -> Q st s' \/ R st s'.
Proof.
  unfold triple, run. destruct (body s); intros Ht E; inversion E; subst; auto.
Qed.

Lemma column_triple `{KernalBase} (batch : RecordBatch) (c : Z) s
  (Q : Array -> S -> Prop) R :
  (forall a, nth_error batch (Z.to_nat c) = Some a -> Q a s) ->
  triple (column batch c) s Q R.
Proof.
  intros HQ. unfold column.
  destruct ((0 <=? c) && (c <? num_columns batch)); [|exact I].
  apply triple_deref. exact HQ.
Qed.

End Triples.

(** One step of weakest-precondition reasoning through a method body. *)
Ltac wp_step :=
  lazymatch goal with
  | |- triple (bind _ _) _ _ _ => apply triple_bind
  | |- triple (ret _) _ _ _ => apply triple_ret
  | |- triple (return_ _) _ _ _ => apply triple_return
  | |- triple undefined _ _ _ => apply triple_undefined
  | |- triple get _ _ _ => apply triple_get
  | |- triple (modify _) _ _ _ => apply triple_modify
  | |- triple (deref _) _ _ _ => apply triple_deref; intros ? ?
  | |- triple (column _ _) _ _ _ => apply column_triple; intros ? ?
  | |- triple (RETURN_NOT_OK _) _ _ _ => apply triple_RETURN_NOT_OK
  | |- triple (update_p_ _) _ _ _ => unfold update_p_
  | |- triple (update_this _) _ _ _ => unfold update_this
  | |- triple (update_base _) _ _ _ => unfold update_base
  | |- triple (set_initialized_ _) _ _ _ => unfold set_initialized_
  | |- triple (set_finish_return_type_ _) _ _ _ =>
      unfold set_finish_return_type_
  | |- triple (set_kernel_ _) _ _ _ => unfold set_kernel_
  | |- triple (add_elapse_time_ _) _ _ _ => unfold add_elapse_time_
  | |- triple (make_kernel_ _) _ _ _ => unfold make_kernel_
  | |- triple (kernel_call _) _ _ _ => unfold kernel_call
  | |- triple (status_of _ _) _ _ _ => unfold status_of
  | |- triple (TIME_MICRO_OR_RAISE _ _ _) _ _ _ => unfold TIME_MICRO_OR_RAISE
  | |- triple (no_out _) _ _ _ => unfold no_out
  | |- triple (print _) _ _ _ => unfold print
  | |- triple AggregateVisitorImpl.erase_last _ _ _ =>
      unfold AggregateVisitorImpl.erase_last
  | |- triple (EncodeVisitorImpl.concat_kernel_call _) _ _ _ =>
      unfold EncodeVisitorImpl.concat_kernel_call
  | |- triple (EncodeVisitorImpl.add_concat_elapse_time _) _ _ _ =>
      unfold EncodeVisitorImpl.add_concat_elapse_time
  | |- triple (ProbeArraysVisitorImpl.concat_kernel_call _) _ _ _ =>
      unfold ProbeArraysVisitorImpl.concat_kernel_call
  | |- triple (ProbeArraysVisitorImpl.add_concat_elapse_time _) _ _ _ =>
      unfold ProbeArraysVisitorImpl.add_concat_elapse_time
  | |- triple (if ?b then _ else _) _ _ _ => destruct b eqn:?
  | |- triple (match ?x with _ => _ end) _ _ _ => destruct x eqn:?
  | |- triple (let _ := _ in _) _ _ _ => cbv zeta
  | |- if ?b then _ else _ => destruct b eqn:?
  end; cbv beta.

Ltac wp := repeat wp_step.

Section Totals.
Context {S : Type}.
Implicit Types (s : S) (R : Status -> S -> Prop).

Lemma total_bind {A B} (m : M S A) (k : A -> M S B) s Q R :
  total m s (fun a s' => total (k a) s' Q R) R -> total (bind m k) s Q R.
Proof. unfold total, bind. destruct (m s); auto. Qed.

Lemma total_ret {A} (a : A) s (Q : A -> S -> Prop) R :
  Q a s -> total (ret a) s Q R.
Proof. auto. Qed.






Lemma total_weaken {A} (m : M S A) s (Q Q' : A -> S -> Prop) R R' :
  total m s Q R ->
  (forall a s', Q a s' -> Q' a s') -> (forall st s', R st s' -> R' st s') ->
  total m s Q' R'.
Proof. unfold total. destruct (m s); auto. Qed.

Lemma total_for_each {A L} (Inv : list A -> L -> S -> Prop)
  (xs : list A) (body : A -> L -> M S L) (l : L) s Q R :
  Inv xs l s ->
  (forall x rest l s, Inv (x :: rest) l s -> total (body x l) s (Inv rest) R) ->
  (forall l s, Inv [] l s -> Q l s) ->
  total (for_each xs body l) s Q R.
Proof.
  intros Hinv Hbody Hend. revert l s Hinv.
  induction xs as [|x rest IH]; intros l s Hinv.
  - apply total_ret. auto.
  - cbn. apply total_bind.
    eapply total_weaken; [apply Hbody; exact Hinv | | auto].
    intros l' s' H'. apply IH. exact H'.
Qed.


End Totals.



Section InitOnce.
Context `{KernalBase}.

(** A loop whose effect on the state does not matter for what follows. *)
Ltac wp_loop :=
  lazymatch goal with
  | |- triple (for_each _ _ _) _ _ _ =>
      apply triple_for_each with (Inv := fun _ _ _ => True);
      [exact I | intros | intros]
  end.

Ltac wp_all := repeat first [wp_step | wp_loop].

Ltac init_marks T :=
  lazymatch goal with
  | HInit : run _ _ = Returned _ _ |- _ =>
      eapply run_triple
        with (Q := fun _ (s' : Frame T) => initialized_ (base (this s')) = true)
             (R := fun st (s' : Frame T) =>
                     ok st = false \/ initialized_ (base (this s')) = true)
        in HInit;
      [ destruct HInit as [Hi | [Hf | Hi]]; [exact Hi | congruence | exact Hi]
      | wp_all; cbn; auto ]
  end.

Lemma split_Init_marks :
  forall (s : Frame SplitArrayListWithActionVisitorImpl.t) st s',
    SplitArrayListWithActionVisitorImpl.Init s = Returned st s' ->
    ok st = true -> initialized_ (base (this s')) = true.
Proof.
  intros s st s' HInit Hok. unfold SplitArrayListWithActionVisitorImpl.Init in HInit.
  init_marks SplitArrayListWithActionVisitorImpl.t.
Qed.

Lemma split_Init_again :
  forall s : Frame SplitArrayListWithActionVisitorImpl.t,
    initialized_ (base (this s)) = true ->
    SplitArrayListWithActionVisitorImpl.Init s = Returned Status_OK s.
Proof.
  intros s Hi. unfold SplitArrayListWithActionVisitorImpl.Init, run, bind, get.
  rewrite Hi. reflexivity.
Qed.

Lemma aggregate_Init_marks :
  forall (s : Frame AggregateVisitorImpl.t) st s',
    AggregateVisitorImpl.Init s = Returned st s' ->
    ok st = true -> initialized_ (base (this s')) = true.
Proof.
  intros s st s' HInit Hok. unfold AggregateVisitorImpl.Init in HInit.
  init_marks AggregateVisitorImpl.t.
Qed.

Lemma aggregate_Init_again :
  forall s : Frame AggregateVisitorImpl.t,
    initialized_ (base (this s)) = true ->
    AggregateVisitorImpl.Init s = Returned Status_OK s.
Proof.
  intros s Hi. unfold AggregateVisitorImpl.Init, run, bind, get.
  rewrite Hi. reflexivity.
Qed.

Lemma encode_Init_marks :
  forall (s : Frame EncodeVisitorImpl.t) st s',
    EncodeVisitorImpl.Init s = Returned st s' ->
    ok st = true -> initialized_ (base (this s')) = true.
Proof.
  intros s st s' HInit Hok. unfold EncodeVisitorImpl.Init in HInit.
  init_marks EncodeVisitorImpl.t.
Qed.

Lemma encode_Init_again :
  forall s : Frame EncodeVisitorImpl.t,
    initialized_ (base (this s)) = true ->
    EncodeVisitorImpl.Init s = Returned Status_OK s.
Proof.
  intros s Hi. unfold EncodeVisitorImpl.Init, run, bind, get.
  rewrite Hi. reflexivity.
Qed.

Lemma probe_Init_marks :
  forall (s : Frame ProbeVisitorImpl.t) st s',
    ProbeVisitorImpl.Init s = Returned st s' ->
    ok st = true -> initialized_ (base (this s')) = true.
Proof.
  intros s st s' HInit Hok. unfold ProbeVisitorImpl.Init in HInit.
  init_marks ProbeVisitorImpl.t.
Qed.

Lemma probe_Init_again :
  forall s : Frame ProbeVisitorImpl.t,
    initialized_ (base (this s)) = true ->
    ProbeVisitorImpl.Init s = Returned Status_OK s.
Proof.
  intros s Hi. unfold ProbeVisitorImpl.Init, run, bind, get.
  rewrite Hi. reflexivity.
Qed.

Lemma take_Init_marks :
  forall (s : Frame TakeVisitorImpl.t) st s',
    TakeVisitorImpl.Init s = Returned st s' ->
    ok st = true -> initialized_ (base (this s')) = true.
Proof.
  intros s st s' HInit Hok. unfold TakeVisitorImpl.Init in HInit.
  init_marks TakeVisitorImpl.t.
Qed.

Lemma take_Init_again :
  forall s : Frame TakeVisitorImpl.t,
    initialized_ (base (this s)) = true ->
    TakeVisitorImpl.Init s = Returned Status_OK s.
Proof.
  intros s Hi. unfold TakeVisitorImpl.Init, run, bind, get.
  rewrite Hi. reflexivity.
Qed.

Lemma ntake_Init_marks :
  forall (s : Frame NTakeVisitorImpl.t) st s',
    NTakeVisitorImpl.Init s = Returned st s' ->
    ok st = true -> initialized_ (base (this s')) = true.
Proof.
  intros s st s' HInit Hok. unfold NTakeVisitorImpl.Init in HInit.
  init_marks NTakeVisitorImpl.t.
Qed.

Lemma ntake_Init_again :
  forall s : Frame NTakeVisitorImpl.t,
    initialized_ (base (this s)) = true ->
    NTakeVisitorImpl.Init s = Returned Status_OK s.
Proof.
  intros s Hi. unfold NTakeVisitorImpl.Init, run, bind, get.
  rewrite Hi. reflexivity.
Qed.

Lemma sort_Init_marks :
  forall (s : Frame SortArraysToIndicesVisitorImpl.t) st s',
    SortArraysToIndicesVisitorImpl.Init s = Returned st s' ->
    ok st = true -> initialized_ (base (this s')) = true.
Proof.
  intros s st s' HInit Hok. unfold SortArraysToIndicesVisitorImpl.Init in HInit.
  init_marks SortArraysToIndicesVisitorImpl.t.
Qed.

Lemma sort_Init_again :
  forall s : Frame SortArraysToIndicesVisitorImpl.t,
    initialized_ (base (this s)) = true ->
    SortArraysToIndicesVisitorImpl.Init s = Returned Status_OK s.
Proof.
  intros s Hi. unfold SortArraysToIndicesVisitorImpl.Init, run, bind, get.
  rewrite Hi. reflexivity.
Qed.

Lemma shuffle_Init_marks :
  forall (s : Frame ShuffleArrayListVisitorImpl.t) st s',
    ShuffleArrayListVisitorImpl.Init s = Returned st s' ->
    ok st = true -> initialized_ (base (this s')) = true.
Proof.
  intros s st s' HInit Hok. unfold ShuffleArrayListVisitorImpl.Init in HInit.
  init_marks ShuffleArrayListVisitorImpl.t.
Qed.

Lemma shuffle_Init_again :
  forall s : Frame ShuffleArrayListVisitorImpl.t,
    initialized_ (base (this s)) = true ->
    ShuffleArrayListVisitorImpl.Init s = Returned Status_OK s.
Proof.
  intros s Hi. unfold ShuffleArrayListVisitorImpl.Init, run, bind, get.
  rewrite Hi. reflexivity.
Qed.

Lemma probe_arrays_Init_marks :
  forall (s : Frame ProbeArraysVisitorImpl.t) st s',
    ProbeArraysVisitorImpl.Init s = Returned st s' ->
    ok st = true -> initialized_ (base (this s')) = true.
Proof.
  intros s st s' HInit Hok. unfold ProbeArraysVisitorImpl.Init in HInit.
  init_marks ProbeArraysVisitorImpl.t.
Qed.

Lemma probe_arrays_Init_again :
  forall s : Frame ProbeArraysVisitorImpl.t,
    initialized_ (base (this s)) = true ->
    ProbeArraysVisitorImpl.Init s = Returned Status_OK s.
Proof.
  intros s Hi. unfold ProbeArraysVisitorImpl.Init, run, bind, get.
  rewrite Hi. reflexivity.
Qed.

Ltac init_twice marks again :=
  lazymatch goal with
  | HInit : dispatch ?inj ?method ?o ?s = Returned ?st ?s' |- _ =>
      unfold dispatch in HInit |- *;
      destruct (method (with_this o s)) as [st0 s0|] eqn:E;
      [ inversion HInit; subst; clear HInit | discriminate HInit ];
      cbn [this with_this p_ cout out_iter];
      rewrite again;
      [ destruct s0; reflexivity | cbn; eapply marks; eassumption ]
  end.

(** C3.  A call of [Init] on an operator that a first call initialized
    successfully returns OK and changes nothing: the result-field list of
    the context, the resolved column indices and the kernel are the ones
    the first call left. *)
Theorem Init_idempotent (s : Frame Impl) st s' :
  Init s = Returned st s' -> ok st = true ->
  Init s' = Returned Status_OK s'.
Proof.
  intros HInit Hok. unfold Init in HInit.
  destruct (this s) eqn:Ethis.
  - unfold Init at 1. init_twice split_Init_marks split_Init_again.
  - unfold Init at 1. init_twice aggregate_Init_marks aggregate_Init_again.
  - unfold Init at 1. init_twice encode_Init_marks encode_Init_again.
  - unfold Init at 1. init_twice probe_Init_marks probe_Init_again.
  - unfold Init at 1. init_twice take_Init_marks take_Init_again.
  - unfold Init at 1. init_twice ntake_Init_marks ntake_Init_again.
  - unfold Init at 1. init_twice sort_Init_marks sort_Init_again.
  - unfold Init at 1. init_twice shuffle_Init_marks shuffle_Init_again.
  - unfold Init at 1. init_twice probe_arrays_Init_marks probe_arrays_Init_again.
Qed.

End InitOnce.

Section DependencyTag.
Context `{KernalBase}.

Ltac wp_keeping s0 :=
  repeat first
    [ wp_step
    | lazymatch goal with
      | |- triple (for_each _ _ _) _ _ _ =>
          apply triple_for_each
            with (Inv := fun _ _ s' =>
                    dependency_result_type_ (p_ s') =
                    dependency_result_type_ (p_ s0));
          [ | intros | intros]
      end ].

Ltac keeps_tag T :=
  lazymatch goal with
  | HEval : run _ ?s = Returned _ _ |- _ =>
      eapply run_triple
        with (Q := fun _ (s' : Frame T) =>
                     dependency_result_type_ (p_ s') =
                     dependency_result_type_ (p_ s))
             (R := fun _ (s' : Frame T) =>
                     dependency_result_type_ (p_ s') =
                     dependency_result_type_ (p_ s))
        in HEval;
      [ destruct HEval as [Hi | Hi]; exact Hi
      | wp_keeping s; cbn in *; try congruence; auto ]
  end.

Lemma aggregate_Eval_keeps_tag (s : Frame AggregateVisitorImpl.t) st s' :
  AggregateVisitorImpl.Eval s = Returned st s' ->
  dependency_result_type_ (p_ s') = dependency_result_type_ (p_ s).
Proof.
  intros HEval. unfold AggregateVisitorImpl.Eval in HEval.
  keeps_tag AggregateVisitorImpl.t.
Qed.

Lemma encode_Eval_keeps_tag (s : Frame EncodeVisitorImpl.t) st s' :
  EncodeVisitorImpl.Eval s = Returned st s' ->
  dependency_result_type_ (p_ s') = dependency_result_type_ (p_ s).
Proof.
  intros HEval. unfold EncodeVisitorImpl.Eval in HEval.
  keeps_tag EncodeVisitorImpl.t.
Qed.

Lemma probe_Eval_keeps_tag (s : Frame ProbeVisitorImpl.t) st s' :
  ProbeVisitorImpl.Eval s = Returned st s' ->
  dependency_result_type_ (p_ s') = dependency_result_type_ (p_ s).
Proof.
  intros HEval. unfold ProbeVisitorImpl.Eval in HEval.
  keeps_tag ProbeVisitorImpl.t.
Qed.

Lemma take_Eval_keeps_tag (s : Frame TakeVisitorImpl.t) st s' :
  TakeVisitorImpl.Eval s = Returned st s' ->
  dependency_result_type_ (p_ s') = dependency_result_type_ (p_ s).
Proof.
  intros HEval. unfold TakeVisitorImpl.Eval in HEval.
  keeps_tag TakeVisitorImpl.t.
Qed.

Lemma ntake_Eval_keeps_tag (s : Frame NTakeVisitorImpl.t) st s' :
  NTakeVisitorImpl.Eval s = Returned st s' ->
  dependency_result_type_ (p_ s') = dependency_result_type_ (p_ s).
Proof.
  intros HEval. unfold NTakeVisitorImpl.Eval in HEval.
  keeps_tag NTakeVisitorImpl.t.
Qed.

Lemma sort_Eval_keeps_tag (s : Frame SortArraysToIndicesVisitorImpl.t) st s' :
  SortArraysToIndicesVisitorImpl.Eval s = Returned st s' ->
  dependency_result_type_ (p_ s') = dependency_result_type_ (p_ s).
Proof.
  intros HEval. unfold SortArraysToIndicesVisitorImpl.Eval in HEval.
  keeps_tag SortArraysToIndicesVisitorImpl.t.
Qed.

Lemma shuffle_Eval_keeps_tag (s : Frame ShuffleArrayListVisitorImpl.t) st s' :
  ShuffleArrayListVisitorImpl.Eval s = Returned st s' ->
  dependency_result_type_ (p_ s') = dependency_result_type_ (p_ s).
Proof.
  intros HEval. unfold ShuffleArrayListVisitorImpl.Eval in HEval.
  keeps_tag ShuffleArrayListVisitorImpl.t.
Qed.

Lemma probe_arrays_Eval_keeps_tag (s : Frame ProbeArraysVisitorImpl.t) st s' :
  ProbeArraysVisitorImpl.Eval s = Returned st s' ->
  dependency_result_type_ (p_ s') = dependency_result_type_ (p_ s).
Proof.
  intros HEval. unfold ProbeArraysVisitorImpl.Eval in HEval.
  keeps_tag ProbeArraysVisitorImpl.t.
Qed.

Lemma split_Eval_consumes_tag
  (s : Frame SplitArrayListWithActionVisitorImpl.t) st s' :
  SplitArrayListWithActionVisitorImpl.Eval s = Returned st s' ->
  ok st = true ->
  dependency_result_type_ (p_ s) = ArrowComputeResultType.Array /\
  finish_return_type_ (base (this s')) = ArrowComputeResultType.Batch /\
  dependency_result_type_ (p_ s') = ArrowComputeResultType.None.
Proof.
  intros HEval Hok. unfold SplitArrayListWithActionVisitorImpl.Eval in HEval.
  eapply run_triple
    with (Q := fun _ (s' : Frame SplitArrayListWithActionVisitorImpl.t) =>
            dependency_result_type_ (p_ s) = ArrowComputeResultType.Array /\
            finish_return_type_ (base (this s')) =
              ArrowComputeResultType.Batch /\
            dependency_result_type_ (p_ s') = ArrowComputeResultType.None)
         (R := fun st (_ : Frame SplitArrayListWithActionVisitorImpl.t) =>
                 ok st = false)
    in HEval.
  - destruct HEval as [HQ | HR]; [exact HQ | congruence].
  - repeat first
      [ wp_step
      | lazymatch goal with
        | |- triple (for_each _ _ _) _ _ _ =>
            apply triple_for_each with (Inv := fun _ _ _ => True);
            [exact I | intros | intros]
        end ]; cbn; auto.
Qed.

(** C10.  A successful [Eval] of the split-by-action operator was entered
    with the tag Array, sets the operator's [finish_return_type_] to Batch
    and the context's [dependency_result_type_] to None.  The [Eval] of
    every other class returns with the tag it was entered with. *)
Theorem Eval_dependency_tag (s : Frame Impl) st s' :
  Eval s = Returned st s' ->
  match this s with
  | SplitArrayListWithAction _ =>
      ok st = true ->
      dependency_result_type_ (p_ s) = ArrowComputeResultType.Array /\
      finish_return_type_ (base (this s')) = ArrowComputeResultType.Batch /\
      dependency_result_type_ (p_ s') = ArrowComputeResultType.None
  | _ => dependency_result_type_ (p_ s') = dependency_result_type_ (p_ s)
  end.
Proof.
  intros HEval. unfold Eval in HEval.
  destruct (this s) eqn:Ethis; unfold dispatch in HEval;
    match type of HEval with
    | match ?m with _ => _ end = _ =>
        destruct m as [st0 s0|] eqn:E;
        [ inversion HEval; subst; clear HEval | discriminate HEval ]
    end; cbn [this with_this p_].
  - intros Hok. apply (split_Eval_consumes_tag _ E Hok).
  - apply (aggregate_Eval_keeps_tag _ E).
  - apply (encode_Eval_keeps_tag _ E).
  - apply (probe_Eval_keeps_tag _ E).
  - apply (take_Eval_keeps_tag _ E).
  - apply (ntake_Eval_keeps_tag _ E).
  - apply (sort_Eval_keeps_tag _ E).
  - apply (shuffle_Eval_keeps_tag _ E).
  - apply (probe_arrays_Eval_keeps_tag _ E).
Qed.

End DependencyTag.

(** Unfold the statements of a method body and compute. *)
Ltac msimpl :=
  repeat (progress (
    cbv beta delta [run bind get ret return_ undefined deref modify
      RETURN_NOT_OK status_of TIME_MICRO_OR_RAISE kernel_call make_kernel_
      no_out set_kernel_ set_initialized_ set_finish_return_type_
      add_elapse_time_ update_base update_this update_p_ print dispatch
      rebind_kernel retag
      ExprVisitorImpl.Finish_
      AggregateVisitorImpl.erase_last
      EncodeVisitorImpl.concat_kernel_call
      EncodeVisitorImpl.add_concat_elapse_time
      ProbeArraysVisitorImpl.concat_kernel_call
      ProbeArraysVisitorImpl.add_concat_elapse_time];
    cbn)).

Section SetMemberFacts.
Context `{KernalBase}.

(** C4 (amended).  On the probe-build, take and n-take operators
    [SetMember] before a successful [Init] fails with Invalid, the status
    kind that a column missing from the schema gets as well, with the
    message "Kernel is not initialized", and changes nothing.  On an
    initialized operator it passes the context's member record batch to
    the kernel's [SetMember] and returns OK when the kernel does, the
    kernel's own status otherwise. *)
Theorem SetMember_lifecycle (s : Frame Impl) :
  overrides_SetMember (this s) = true ->
  (initialized_ (base (this s)) = false ->
   SetMember s = Returned (Status_Invalid "Kernel is not initialized") s) /\
  (initialized_ (base (this s)) = true ->
   forall k, kernel_ (base (this s)) = Some k ->
     let r := kernel_SetMember k (member_record_batch_ (p_ s)) in
     SetMember s =
     Returned (if ok (result r) then Status_OK else result r)
              (rebind_kernel (kernel' r) s)).
Proof.
  intros Ho. destruct s as [i p c o].
  destruct i as [x|x|x|x|x|x|x|x|x]; try discriminate Ho; clear Ho;
    destruct x as [[ini frt ker] col]; cbn in *;
    (split; [ intros ->; reflexivity | intros -> k -> ]);
    unfold SetMember, ProbeVisitorImpl.SetMember,
      TakeVisitorImpl.SetMember, NTakeVisitorImpl.SetMember; msimpl;
    destruct (ok (result (kernel_SetMember k (member_record_batch_ p))));
    reflexivity.
Qed.

End SetMemberFacts.

Section ProbeArraysFacts.
Context `{KernalBase}.

Lemma probe_arrays_Eval_sets_Batch (s : Frame ProbeArraysVisitorImpl.t) st s' :
  ProbeArraysVisitorImpl.Eval s = Returned st s' -> ok st = true ->
  dependency_result_type_ (p_ s) = ArrowComputeResultType.None /\
  finish_return_type_ (base (this s')) = ArrowComputeResultType.Batch /\
  return_type_ (p_ s') = return_type_ (p_ s) /\
  result_batch_ (p_ s') = result_batch_ (p_ s).
Proof.
  intros HEval Hok. unfold ProbeArraysVisitorImpl.Eval in HEval.
  eapply run_triple
    with (Q := fun _ (s' : Frame ProbeArraysVisitorImpl.t) =>
            dependency_result_type_ (p_ s) = ArrowComputeResultType.None /\
            finish_return_type_ (base (this s')) =
              ArrowComputeResultType.Batch /\
            return_type_ (p_ s') = return_type_ (p_ s) /\
            result_batch_ (p_ s') = result_batch_ (p_ s))
         (R := fun st (_ : Frame ProbeArraysVisitorImpl.t) => ok st = false)
    in HEval.
  - destruct HEval as [HQ | HR]; [exact HQ | congruence].
  - repeat first
      [ wp_step
      | lazymatch goal with
        | |- triple (for_each _ _ _) _ _ _ =>
            apply triple_for_each
              with (Inv := fun _ _ s' => p_ s' = p_ s);
            [ | intros | intros]
        end ]; cbn in *; try congruence; auto;
      try match goal with
          | Hp : p_ _ = p_ s |- _ => rewrite Hp; auto
          end.
Qed.

(** C6 (amended).  The probe-arrays operator has no eager batch: [Finish]
    prints the time spent concatenating keys and returns OK, leaving the
    context with its result batch and return kind as they were.  Its
    materialization is [MakeResultIterator]: with [finish_return_type_]
    other than Batch it fails with NotImplemented and changes nothing;
    with Batch, which a successful [Eval] entered with the tag None sets,
    it hands the caller's holder to the kernel's [MakeResultIterator] and
    returns OK when the kernel does, without touching the result batch or
    the return kind. *)
Theorem probe_arrays_materialization (s : Frame Impl) o :
  this s = ProbeArrays o ->
  (exists line,
     Finish s = Returned Status_OK (with_cout (cout s ++ [line])%list s)) /\
  (forall schema,
     finish_return_type_ (base (this s)) <> ArrowComputeResultType.Batch ->
     exists msg,
       MakeResultIterator schema s = Returned (Status_NotImplemented msg) s) /\
  (forall schema k,
     finish_return_type_ (base (this s)) = ArrowComputeResultType.Batch ->
     kernel_ (base (this s)) = Some k ->
     let r := kernel_MakeResultIterator k schema (out_iter s) in
     exists s',
       MakeResultIterator schema s =
       Returned (if ok (result r) then Status_OK else result r) s' /\
       out_iter s' = out r /\
       return_type_ (p_ s') = return_type_ (p_ s) /\
       result_batch_ (p_ s') = result_batch_ (p_ s)) /\
  (forall st s',
     Eval s = Returned st s' -> ok st = true ->
     dependency_result_type_ (p_ s) = ArrowComputeResultType.None /\
     finish_return_type_ (base (this s')) = ArrowComputeResultType.Batch /\
     return_type_ (p_ s') = return_type_ (p_ s) /\
     result_batch_ (p_ s') = result_batch_ (p_ s)).
Proof.
  intros Hthis. destruct s as [i p c it]. cbn in Hthis. subst i.
  destruct o as [[ini frt ker] jt ck ids ct].
  split; [|split; [|split]].
  - eexists. unfold Finish, ProbeArraysVisitorImpl.Finish. msimpl.
    reflexivity.
  - intros schema Hfrt. cbn in Hfrt. eexists.
    unfold MakeResultIterator, ProbeArraysVisitorImpl.MakeResultIterator.
    destruct frt; try congruence; msimpl; reflexivity.
  - intros schema k Hfrt Hk. cbn in Hfrt, Hk. subst frt ker.
    unfold MakeResultIterator, ProbeArraysVisitorImpl.MakeResultIterator.
    msimpl.
    destruct (ok (result (kernel_MakeResultIterator k schema it)));
      eexists; repeat split.
  - intros st s' HEval Hok. unfold Eval in HEval. cbn [this] in HEval.
    unfold dispatch in HEval.
    match type of HEval with
    | match ?m with _ => _ end = _ =>
        destruct m as [st0 s0|] eqn:E;
        [ inversion HEval; subst; clear HEval | discriminate HEval ]
    end.
    apply (probe_arrays_Eval_sets_Batch _ E Hok).
Qed.

End ProbeArraysFacts.

Section ShuffleFacts.
Context `{KernalBase}.

(** C7 (amended).  With no indices array in the context, [Finish] of the
    shuffle operator fails with Invalid and changes nothing.
    [MakeResultIterator] binds the indices array only when there is one:
    without it the call goes on, fails with Invalid when
    [finish_return_type_] is not Batch, and otherwise hands the caller's
    holder to the kernel's [MakeResultIterator], returning OK with the
    return kind BatchIterator when the kernel returns OK. *)
Theorem shuffle_without_indices (s : Frame Impl) o :
  this s = ShuffleArrayList o ->
  in_array_ (p_ s) = None ->
  (exists msg, Finish s = Returned (Status_Invalid msg) s) /\
  (forall schema,
     finish_return_type_ (base (this s)) <> ArrowComputeResultType.Batch ->
     exists msg,
       MakeResultIterator schema s = Returned (Status_Invalid msg) s) /\
  (forall schema k,
     finish_return_type_ (base (this s)) = ArrowComputeResultType.Batch ->
     kernel_ (base (this s)) = Some k ->
     let r := kernel_MakeResultIterator k schema (out_iter s) in
     exists s',
       MakeResultIterator schema s =
       Returned (if ok (result r) then Status_OK else result r) s' /\
       out_iter s' = out r /\
       kernel_ (base (this s')) = Some (kernel' r) /\
       (ok (result r) = true ->
        return_type_ (p_ s') = ArrowComputeResultType.BatchIterator)).
Proof.
  intros Hthis Hin. destruct s as [i p c it]. cbn in Hthis, Hin. subst i.
  destruct o as [[ini frt ker] ids]. destruct p. cbn in Hin. subst.
  split; [|split].
  - eexists. unfold Finish, ShuffleArrayListVisitorImpl.Finish. msimpl.
    reflexivity.
  - intros schema Hfrt. cbn in Hfrt. eexists.
    unfold MakeResultIterator, ShuffleArrayListVisitorImpl.MakeResultIterator.
    destruct frt; try congruence; msimpl; reflexivity.
  - intros schema k Hfrt Hk. cbn in Hfrt, Hk. subst frt ker.
    unfold MakeResultIterator, ShuffleArrayListVisitorImpl.MakeResultIterator.
    msimpl.
    destruct (ok (result (kernel_MakeResultIterator k schema it))) eqn:Eok;
      eexists; repeat split; intros; congruence.
Qed.

End ShuffleFacts.

Section SetDependencyFacts.
Context `{KernalBase}.

Lemma checked_columns_gather {S} batch msg col_ids :
  Forall (fun c => 0 <= c < num_columns batch) col_ids ->
  forall acc (s : S), exists cols,
    Forall2 (fun c a => nth_error batch (Z.to_nat c) = Some a) col_ids cols /\
    checked_columns batch msg col_ids acc s = Continue (acc ++ cols)%list s.
Proof.
  unfold checked_columns.
  induction 1 as [|c rest Hc _ IH]; intros acc s; cbn.
  - exists []. rewrite app_nil_r. split; [constructor | reflexivity].
  - unfold bind at 1.
    replace (c >=? num_columns batch) with false
      by (symmetry; rewrite Z.geb_leb; apply Z.leb_gt; lia).
    destruct (column_in_range (S:=S) batch Hc) as [a [Hnth Ha]].
    unfold bind at 1. rewrite Ha. cbn.
    destruct (IH (acc ++ [a])%list s) as [cols [Hcols Hrun]].
    exists (a :: cols). split; [constructor; assumption|].
    rewrite Hrun. rewrite <- app_assoc. reflexivity.
Qed.

(** C9.  On the shuffle operator with a kernel bound,
    [SetDependency(iterator, index)] passes the iterator and the index to
    the kernel's [SetDependencyIter] and, when the kernel returns OK, sets
    the context's [dependency_result_type_] to BatchIterator and returns
    OK.  The next [Eval] then takes the branch of that tag: it gathers the
    resolved columns and calls the kernel's [Evaluate] that writes the
    context's result batch, setting the return kind to Batch when that
    call returns OK. *)
Theorem SetDependency_apply_path (s : Frame Impl) o iter index k :
  this s = ShuffleArrayList o ->
  kernel_ (base (this s)) = Some k ->
  let r := SetDependencyIter k iter index in
  ok (result r) = true ->
  let s1 := retag ArrowComputeResultType.BatchIterator
                  (rebind_kernel (kernel' r) s) in
  SetDependency iter index s = Returned Status_OK s1 /\
  dependency_result_type_ (p_ s1) = ArrowComputeResultType.BatchIterator /\
  (Forall (fun c => 0 <= c < num_columns (in_record_batch_ (p_ s)))
          (resolved_columns (this s)) ->
   exists cols,
     Forall2 (fun c a =>
                nth_error (in_record_batch_ (p_ s)) (Z.to_nat c) = Some a)
             (resolved_columns (this s)) cols /\
     let r2 := Evaluate_list_to_batch (kernel' r) cols
                 (result_batch_ (p_ s)) in
     exists s2,
       Eval s1 =
       Returned (if ok (result r2) then Status_OK else result r2) s2 /\
       result_batch_ (p_ s2) = out r2 /\
       kernel_ (base (this s2)) = Some (kernel' r2) /\
       (ok (result r2) = true ->
        return_type_ (p_ s2) = ArrowComputeResultType.Batch)).
Proof.
  intros Hthis Hk r Hok s1.
  destruct s as [i p c it]. cbn in Hthis. subst i.
  destruct o as [[ini frt ker] ids]. cbn in Hk. subst ker.
  split; [|split].
  - unfold SetDependency, ShuffleArrayListVisitorImpl.SetDependency.
    msimpl. fold r. rewrite Hok. reflexivity.
  - destruct p; reflexivity.
  - intros Hall. cbn in Hall.
    destruct (checked_columns_gather _
                ("ShuffleArrayListVisitorImpl Eval col_id is bigger than input "
                 ++ "batch numColumns.") Hall []
                (with_this
                   {| ShuffleArrayListVisitorImpl.super :=
                        {| initialized_ := ini; finish_return_type_ := frt;
                           kernel_ := Some (kernel' r) |};
                      ShuffleArrayListVisitorImpl.col_id_list_ := ids |} s1))
      as [cols [Hcols Hrun]].
    exists cols. split; [exact Hcols|]. intros r2.
    unfold Eval. subst s1. cbn [this retag rebind_kernel with_this with_p_
      with_base impl_derived impl_with_base base impl_base p_].
    unfold dispatch, ShuffleArrayListVisitorImpl.Eval.
    erewrite run_bind_Continue by reflexivity.
    erewrite run_bind_Continue.
    2:{ destruct p. exact Hrun. }
    destruct p. subst r2. msimpl.
    destruct (ok (result (Evaluate_list_to_batch _ _ _))) eqn:E2;
      (eexists; split; [reflexivity | repeat split; intros; congruence]).
Qed.

End SetDependencyFacts.

Section Lookup.

Lemma field_indices_from_In (schema : Schema) :
  forall i col_name j,
    In j (field_indices_from i schema col_name) ->
    i <= j < i + Z.of_nat (List.length schema) /\
    exists f,
      nth_error schema (Z.to_nat (j - i)) = Some f /\ name f = col_name.
Proof.
  induction schema as [|g rest IH]; intros i n j Hin;
    cbn [field_indices_from] in Hin.
  - destruct Hin.
  - cbn [List.length].
    assert (Hrest : In j (field_indices_from (i + 1) rest n) ->
                    i <= j < i + Z.of_nat (S (List.length rest)) /\
                    exists f,
                      nth_error (g :: rest) (Z.to_nat (j - i)) = Some f /\
                      name f = n).
    { intros H'. destruct (IH _ _ _ H') as [Hr (f & Hf & Hn)].
      split; [lia|]. exists f. split; [|exact Hn].
      replace (Z.to_nat (j - i)) with (S (Z.to_nat (j - (i + 1)))) by lia.
      exact Hf. }
    destruct (String.eqb (name g) n) eqn:E; [|auto].
    destruct Hin as [<- | Hin]; [|auto].
    split; [lia|]. exists g. rewrite Z.sub_diag.
    apply String.eqb_eq in E. auto.
Qed.

Lemma field_indices_from_length (schema : Schema) :
  forall i col_name,
    List.length (field_indices_from i schema col_name) =
    count_occ string_dec (map name schema) col_name.
Proof.
  induction schema as [|g rest IH]; intros i n;
    cbn [field_indices_from map]; [reflexivity|].
  destruct (String.eqb (name g) n) eqn:E.
  - apply String.eqb_eq in E. rewrite count_occ_cons_eq by exact E.
    cbn [List.length]. rewrite IH. reflexivity.
  - apply String.eqb_neq in E. rewrite count_occ_cons_neq by exact E.
    apply IH.
Qed.

Lemma GetFieldIndex_range (schema : Schema) (col_name : string) :
  -1 <= GetFieldIndex schema col_name < Z.of_nat (List.length schema).
Proof.
  unfold GetFieldIndex, GetAllFieldIndices.
  pose proof (field_indices_from_In schema 0 col_name) as Hin.
  destruct (field_indices_from 0 schema col_name) as [|j [|k l]]; try lia.
  destruct (Hin j (or_introl eq_refl)) as [Hr _]. lia.
Qed.

Lemma GetFieldIndex_unique (schema : Schema) (col_name : string) :
  0 <= GetFieldIndex schema col_name <->
  count_occ string_dec (map name schema) col_name = 1%nat.
Proof.
  rewrite <- (field_indices_from_length schema 0).
  unfold GetFieldIndex, GetAllFieldIndices.
  pose proof (field_indices_from_In schema 0 col_name) as Hin.
  destruct (field_indices_from 0 schema col_name) as [|j [|k l]];
    cbn [List.length].
  - split; [lia | discriminate].
  - split; [reflexivity|]. intros _.
    destruct (Hin j (or_introl eq_refl)) as [Hr _]. lia.
  - split; [lia | discriminate].
Qed.

Lemma GetFieldIndex_found (schema : Schema) (col_name : string) :
  0 <= GetFieldIndex schema col_name ->
  exists f,
    GetFieldByName schema col_name = Some f /\
    nth_error schema (Z.to_nat (GetFieldIndex schema col_name)) = Some f /\
    name f = col_name.
Proof.
  unfold GetFieldByName, GetFieldIndex, GetAllFieldIndices.
  pose proof (field_indices_from_In schema 0 col_name) as Hin.
  destruct (field_indices_from 0 schema col_name) as [|j [|k l]]; try lia.
  intros Hj. destruct (Hin j (or_introl eq_refl)) as [_ (f & Hf & Hn)].
  rewrite Z.sub_0_r in Hf. exists f.
  replace (j =? -1) with false by (symmetry; apply Z.eqb_neq; lia).
  auto.
Qed.

Lemma GetFieldByName_missing (schema : Schema) (col_name : string) :
  GetFieldIndex schema col_name < 0 -> GetFieldByName schema col_name = None.
Proof.
  intros Hneg. pose proof (GetFieldIndex_range schema col_name) as Hr.
  unfold GetFieldByName.
  replace (GetFieldIndex schema col_name) with (-1) by lia. reflexivity.
Qed.


End Lookup.

Section AggregateFields.
Context `{KernalBase}.

Lemma GetColumnIdAndFieldByName_field schema col_name :
  snd (snd (ExprVisitorImpl.GetColumnIdAndFieldByName schema col_name)) =
  GetFieldByName schema col_name.
Proof.
  unfold ExprVisitorImpl.GetColumnIdAndFieldByName.
  destruct (GetFieldIndex schema col_name <? 0); reflexivity.
Qed.



End AggregateFields.

Section AggregateCount.
Context `{KernalBase}.





End AggregateCount.

Section Slips.
Context `{KernalBase}.

(** The take operator reads its column with no check: with the tag None
    and a column index at or beyond the batch's column count the call is
    undefined.  The probe-build and n-take classes have the same body. *)
Lemma take_Eval_unchecked (s : Frame TakeVisitorImpl.t) :
  dependency_result_type_ (p_ s) = ArrowComputeResultType.None ->
  num_columns (in_record_batch_ (p_ s)) <= TakeVisitorImpl.col_id_ (this s) ->
  TakeVisitorImpl.Eval s = Undefined.
Proof.
  intros Htag Hcol. unfold TakeVisitorImpl.Eval.
  erewrite run_bind_Continue by reflexivity. rewrite Htag.
  apply run_bind_UB. apply column_out_of_range. right. exact Hcol.
Qed.

(** An aggregate operator whose function name is none of the eight that
    [Init] compares with comes out of a successful [Init] marked
    initialized, with the kernel pointer it went in with. *)
Lemma aggregate_Init_unlisted_name (s : Frame AggregateVisitorImpl.t) st s' :
  initialized_ (base (this s)) = false ->
  ~ In (AggregateVisitorImpl.func_name_ (this s))
       ["sum"; "append"; "count"; "unique"; "sum_count"; "avgByCount";
        "min"; "max"] ->
  AggregateVisitorImpl.Init s = Returned st s' -> ok st = true ->
  initialized_ (base (this s')) = true /\
  kernel_ (base (this s')) = kernel_ (base (this s)).
Proof.
  intros Hini Hname HInit Hok. unfold AggregateVisitorImpl.Init in HInit.
  eapply run_triple
    with (Q := fun _ (s' : Frame AggregateVisitorImpl.t) =>
            initialized_ (base (this s')) = true /\
            kernel_ (base (this s')) = kernel_ (base (this s)))
         (R := fun st (_ : Frame AggregateVisitorImpl.t) => ok st = false)
    in HInit.
  - destruct HInit as [HQ | HR]; [exact HQ | congruence].
  - clear HInit. wp_step. wp_step. wp_step; [congruence|]. wp_step.
    apply triple_for_each with
      (Inv := fun _ (_ : unit) (s1 : Frame AggregateVisitorImpl.t) =>
         kernel_ (base (this s1)) = kernel_ (base (this s)) /\
         AggregateVisitorImpl.func_name_ (this s1) =
         AggregateVisitorImpl.func_name_ (this s)).
    + split; reflexivity.
    + intros x rest [] s1 [Hk Hfn]. wp; cbn; auto.
    + intros [] s1 [Hk Hfn]. rewrite <- Hfn in Hname.
      wp; cbn in *; auto;
        repeat match goal with
               | E : String.eqb _ _ = true |- _ =>
                   apply String.eqb_eq in E
               end;
        exfalso; apply Hname; cbn; intuition congruence.
Qed.

End Slips.

(** ** The code generator factory *)

Section FactoryFacts.
Variable Expression : Type.
Variables ARROW_COMPUTE GANDIVA COMPUTE_EXT : Z.
Variable create : list Expression -> Status * Z.

(** An expression list whose code-generation type is none of the three
    recognized ones leaves a null generator and returns TypeError. *)
Lemma CreateCodeGenerator_unrecognized schema_ptr exprs_vector ret_types
  return_when_finish :
  snd (create exprs_vector) <> ARROW_COMPUTE ->
  snd (create exprs_vector) <> GANDIVA ->
  snd (create exprs_vector) <> COMPUTE_EXT ->
  CreateCodeGenerator ARROW_COMPUTE GANDIVA COMPUTE_EXT create
    schema_ptr exprs_vector ret_types return_when_finish =
  (Status_TypeError "Unrecognized expression type.", None).
Proof.
  intros H1 H2 H3. unfold CreateCodeGenerator.
  apply Z.eqb_neq in H1, H2, H3. rewrite H1, H2, H3. reflexivity.
Qed.

End FactoryFacts.

(** ** Runs on concrete inputs *)

Section Runs.
#[local] Existing Instance Recorder.kernels.
Import Recorder.

(** C1, the claim as stated fails: a shuffle operator that resolved the
    column cnt to index 2 and is given a batch of one column under the
    unsupported tag Array fails with Invalid, not NotImplemented; and the
    aggregate operator's NotImplemented message under the tag Array does
    not mention the tag. *)
Lemma Eval_unsupported_tag_counterexample :
  let s := next_batch [[1; 2; 3]]
             (retag ArrowComputeResultType.Array
                (after Init
                   (frame shuffle
                      (visitor ["cnt"] ArrowComputeResultType.None
                         three_columns None)))) in
  let a := frame (aggregate "sum")
             (visitor ["a"] ArrowComputeResultType.Array
                three_columns None) in
  supports (this s) (dependency_result_type_ (p_ s)) = false /\
  Eval s =
  Returned
    (Status_Invalid
       "ShuffleArrayListVisitorImpl Eval col_id is bigger than input batch numColumns.")
    s /\
  supports (this a) (dependency_result_type_ (p_ a)) = false /\
  Eval a =
  Returned
    (Status_NotImplemented
       "AggregateVisitorImpl: Does not support this type of input.")
    a.
Proof. repeat split. Qed.

(** The aggregate operator entered with the tag Array. *)
Lemma Eval_unsupported_tag_witness :
  let a := frame (aggregate "sum")
             (visitor ["a"] ArrowComputeResultType.Array
                three_columns None) in
  supports (this a) (dependency_result_type_ (p_ a)) = false /\
  exists msg, Eval a = Returned (Status_NotImplemented msg) a.
Proof.
  split; [reflexivity|].
  destruct (proj1 (Eval_unsupported_tag
                     (frame (aggregate "sum")
                        (visitor ["a"] ArrowComputeResultType.Array
                           three_columns None))
                     eq_refl) (or_introl eq_refl)) as [msg [Hm _]].
  exists msg. exact Hm.
Defined.

(** C2, the code at the failing input.  The encode, probe-build, take,
    n-take and probe-arrays operators resolve the column cnt to index 2 in
    [Init]; given a batch of one column their [Eval] reads column 2 with no
    check, which is undefined, where the aggregate and the sort operators
    on the same input return Invalid. *)
Theorem Eval_reads_unchecked_column :
  let p := visitor ["cnt"] ArrowComputeResultType.None three_columns None in
  let run_on i := Eval (next_batch [[1; 2; 3]] (after Init (frame i p))) in
  outcome_code (Init (frame encode p)) = Some OK /\
  resolved_columns (this (after Init (frame encode p))) = [2] /\
  run_on encode = Undefined /\
  run_on probe = Undefined /\
  run_on take = Undefined /\
  run_on ntake = Undefined /\
  run_on probe_arrays = Undefined /\
  outcome_code (run_on (aggregate "sum")) = Some Invalid /\
  outcome_code (run_on sort) = Some Invalid.
Proof. repeat split. Qed.

(** [Init] twice on an aggregate operator with the name sum_count. *)
Lemma Init_idempotent_witness :
  let s := frame (aggregate "sum_count")
             (visitor ["a"] ArrowComputeResultType.None three_columns None) in
  Init s = Returned Status_OK (after Init s) /\
  ok Status_OK = true /\
  Init (after Init s) = Returned Status_OK (after Init s).
Proof.
  split; [reflexivity|]. split; [reflexivity|].
  apply (Init_idempotent
           (frame (aggregate "sum_count")
              (visitor ["a"] ArrowComputeResultType.None three_columns None))
           (st := Status_OK)); reflexivity.
Defined.

(** C4, the claim as stated fails: [SetMember] before [Init] returns the
    status code Invalid, the very code a column missing from the schema
    gets; the code has no separate kind for a call out of order. *)
Lemma SetMember_lifecycle_counterexample :
  let s := frame probe
             (visitor ["a"] ArrowComputeResultType.None three_columns None) in
  initialized_ (base (this s)) = false /\
  SetMember s = Returned (Status_Invalid "Kernel is not initialized") s /\
  outcome_code (SetMember s) =
  Some (code (fst (ExprVisitorImpl.GetColumnIdAndFieldByName
                     (schema_ (p_ s)) "missing"))).
Proof. repeat split. Qed.

(** [SetMember] on a take operator after its [Init]. *)
Lemma SetMember_lifecycle_witness :
  let s := after Init
             (frame take
                (visitor ["a"] ArrowComputeResultType.None
                   three_columns None)) in
  overrides_SetMember (this s) = true /\
  initialized_ (base (this s)) = true /\
  kernel_ (base (this s)) = Some (fresh TakeArrayKernel) /\
  outcome_code (SetMember s) = Some OK.
Proof.
  split; [reflexivity|]. split; [reflexivity|]. split; [reflexivity|].
  rewrite (proj2 (SetMember_lifecycle
                    (after Init
                       (frame take
                          (visitor ["a"] ArrowComputeResultType.None
                             three_columns None)))
                    eq_refl) eq_refl (fresh TakeArrayKernel) eq_refl).
  reflexivity.
Defined.



(** C6, the claim as stated fails: [Finish] on a probe-arrays operator
    that has evaluated a batch returns OK, not NotImplemented; it prints a
    line and leaves the context as it was. *)
Lemma probe_arrays_materialization_counterexample :
  let s := after Eval
             (after Init
                (frame probe_arrays
                   (visitor ["a"] ArrowComputeResultType.None
                      three_columns None))) in
  Finish s =
  Returned Status_OK (with_cout (cout s ++ ["Concat keys took us"])%list s) /\
  outcome_code (Finish s) <> Some NotImplemented.
Proof. split; [reflexivity | discriminate]. Qed.

(** [Finish] on a newly made probe-arrays operator. *)
Lemma probe_arrays_materialization_witness :
  let o := {| ProbeArraysVisitorImpl.super := unset;
              ProbeArraysVisitorImpl.join_type_ := 0;
              ProbeArraysVisitorImpl.concat_kernel_ := None;
              ProbeArraysVisitorImpl.col_id_list_ := [];
              ProbeArraysVisitorImpl.concat_elapse_time := 0 |} in
  let s := frame probe_arrays
             (visitor ["a"] ArrowComputeResultType.None three_columns None) in
  this s = ProbeArrays o /\
  exists line,
    Finish s = Returned Status_OK (with_cout (cout s ++ [line])%list s).
Proof.
  split; [reflexivity|].
  exact (proj1 (probe_arrays_materialization
                  (frame probe_arrays
                     (visitor ["a"] ArrowComputeResultType.None
                        three_columns None))
                  eq_refl)).
Defined.

(** C7, the claim as stated fails: on a shuffle operator that has
    evaluated a batch, with no indices array in the context,
    [MakeResultIterator] returns OK and hands out an iterator. *)
Lemma shuffle_without_indices_counterexample :
  let s := after Eval
             (after Init
                (frame shuffle
                   (visitor ["a"; "b"] ArrowComputeResultType.None
                      three_columns None))) in
  in_array_ (p_ s) = None /\
  outcome_code (MakeResultIterator [] s) = Some OK /\
  out_iter (after (MakeResultIterator []) s) =
  Some [[1; 2; 3]; [4; 5; 6]] /\
  return_type_ (p_ (after (MakeResultIterator []) s)) =
  ArrowComputeResultType.BatchIterator.
Proof. repeat split. Qed.

(** [Finish] on a shuffle operator with no indices array. *)
Lemma shuffle_without_indices_witness :
  let s := frame shuffle
             (visitor ["a"; "b"] ArrowComputeResultType.None
                three_columns None) in
  this s = shuffle /\
  in_array_ (p_ s) = None /\
  exists msg, Finish s = Returned (Status_Invalid msg) s.
Proof.
  split; [reflexivity|]. split; [reflexivity|].
  exact (proj1 (shuffle_without_indices
                  (frame shuffle
                     (visitor ["a"; "b"] ArrowComputeResultType.None
                        three_columns None))
                  eq_refl eq_refl)).
Defined.

(** C8, the code at the failing input.  [Init] of an aggregate operator
    made with the function name median, which is none of the eight names
    the method compares with, returns OK and marks the operator
    initialized with no kernel bound, so that the next [Eval] dereferences
    a null kernel; with the name sum the kernel is bound. *)
Theorem Aggregate_Init_unknown_name :
  let p := visitor ["a"] ArrowComputeResultType.None three_columns None in
  let s := frame (aggregate "median") p in
  Init s = Returned Status_OK (after Init s) /\
  initialized_ (base (this (after Init s))) = true /\
  kernel_ (base (this (after Init s))) = None /\
  Eval (after Init s) = Undefined /\
  kernel_ (base (this (after Init (frame (aggregate "sum") p)))) =
  Some (fresh (SumArrayKernel int64)).
Proof. repeat split. Qed.

(** [SetDependency] on a shuffle operator after its [Init]. *)
Lemma SetDependency_apply_path_witness :
  let s := after Init
             (frame shuffle
                (visitor ["a"; "b"] ArrowComputeResultType.None
                   three_columns None)) in
  let k := fresh (ShuffleArrayListKernel [int64; float64]) in
  kernel_ (base (this s)) = Some k /\
  ok (result (SetDependencyIter k (Some [[2; 0; 1]]) 0)) = true /\
  SetDependency (Some [[2; 0; 1]]) 0 s =
  Returned Status_OK
    (retag ArrowComputeResultType.BatchIterator (rebind_kernel k s)).
Proof.
  split; [reflexivity|]. split; [reflexivity|].
  exact (proj1 (SetDependency_apply_path
                  (after Init
                     (frame shuffle
                        (visitor ["a"; "b"] ArrowComputeResultType.None
                           three_columns None)))
                  (Some [[2; 0; 1]]) 0 eq_refl eq_refl eq_refl)).
Defined.

(** [Eval] of a split operator entered with the tag Array. *)
Lemma Eval_dependency_tag_witness :
  let s := retag ArrowComputeResultType.Array
             (after Init
                (frame split
                   (visitor ["a"] ArrowComputeResultType.None
                      three_columns (Some [0; 1; 0])))) in
  Eval s = Returned Status_OK (after Eval s) /\
  ok Status_OK = true /\
  dependency_result_type_ (p_ s) = ArrowComputeResultType.Array /\
  finish_return_type_ (base (this (after Eval s))) =
  ArrowComputeResultType.Batch /\
  dependency_result_type_ (p_ (after Eval s)) = ArrowComputeResultType.None.
Proof.
  split; [reflexivity|]. split; [reflexivity|].
  exact (Eval_dependency_tag
           (retag ArrowComputeResultType.Array
              (after Init
                 (frame split
                    (visitor ["a"] ArrowComputeResultType.None
                       three_columns (Some [0; 1; 0])))))
           (st := Status_OK) eq_refl eq_refl).
Defined.

End Runs.

(** * Further properties of the operators *)

(** From a call through the virtual table to the call of the class. *)
Ltac through_dispatch H :=
  match type of H with
  | dispatch _ ?method ?o ?s = Returned _ _ =>
      unfold dispatch in H;
      destruct (method (with_this o s)) as [st0 s0|] eqn:E;
      [ inversion H; subst; clear H | discriminate H ]
  end.

Section InitFrame.
Context `{KernalBase}.

Lemma set_result_fields_same (p : ExprVisitor) :
  set_result_fields_ (result_fields_ p) p = p.
Proof. destruct p; reflexivity. Qed.

Lemma set_result_fields_twice (a b : list Field) (p : ExprVisitor) :
  set_result_fields_ a (set_result_fields_ b p) = set_result_fields_ a p.
Proof. reflexivity. Qed.

Ltac init_frames T :=
  lazymatch goal with
  | HInit : run _ ?s = Returned _ _ |- _ =>
      eapply run_triple
        with (Q := fun _ (s1 : Frame T) => init_frame s s1)
             (R := fun _ (s1 : Frame T) => init_frame s s1)
        in HInit;
      [ destruct HInit as [Hi | Hi]; exact Hi
      | repeat first
          [ wp_step
          | lazymatch goal with
            | |- triple (for_each _ _ _) _ _ _ =>
                apply triple_for_each
                  with (Inv := fun _ _ s1 => init_frame s s1);
                [ | intros | intros]
            end ];
        unfold init_frame in *; cbn in *;
        rewrite ?set_result_fields_twice;
        try (repeat split; try reflexivity; apply set_result_fields_same);
        try (intuition congruence) ]
  end.

Ltac init_flag T :=
  lazymatch goal with
  | HInit : run _ ?s = Returned _ _ |- _ =>
      eapply run_triple
        with (Q := fun st (s1 : Frame T) =>
                     initialized_ (base (this s1)) = ok st)
             (R := fun st (s1 : Frame T) =>
                     initialized_ (base (this s1)) = ok st)
        in HInit;
      [ destruct HInit as [Hi | Hi]; exact Hi
      | repeat first
          [ wp_step
          | lazymatch goal with
            | |- triple (for_each _ _ _) _ _ _ =>
                apply triple_for_each
                  with (Inv := fun _ _ s1 =>
                          initialized_ (base (this s1)) = false);
                [ | intros | intros]
            end ];
        cbn in *; try congruence; auto ]
  end.

Lemma split_Init_frame (s : Frame SplitArrayListWithActionVisitorImpl.t) st s' :
  SplitArrayListWithActionVisitorImpl.Init s = Returned st s' -> init_frame s s'.
Proof.
  intros HInit. unfold SplitArrayListWithActionVisitorImpl.Init in HInit.
  init_frames SplitArrayListWithActionVisitorImpl.t.
Qed.

Lemma split_Init_flag (s : Frame SplitArrayListWithActionVisitorImpl.t) st s' :
  SplitArrayListWithActionVisitorImpl.Init s = Returned st s' ->
  initialized_ (base (this s')) = ok st.
Proof.
  intros HInit. unfold SplitArrayListWithActionVisitorImpl.Init in HInit.
  init_flag SplitArrayListWithActionVisitorImpl.t.
Qed.

Lemma aggregate_Init_frame (s : Frame AggregateVisitorImpl.t) st s' :
  AggregateVisitorImpl.Init s = Returned st s' -> init_frame s s'.
Proof.
  intros HInit. unfold AggregateVisitorImpl.Init in HInit.
  init_frames AggregateVisitorImpl.t.
Qed.

Lemma aggregate_Init_flag (s : Frame AggregateVisitorImpl.t) st s' :
  AggregateVisitorImpl.Init s = Returned st s' ->
  initialized_ (base (this s')) = ok st.
Proof.
  intros HInit. unfold AggregateVisitorImpl.Init in HInit.
  init_flag AggregateVisitorImpl.t.
Qed.

Lemma encode_Init_frame (s : Frame EncodeVisitorImpl.t) st s' :
  EncodeVisitorImpl.Init s = Returned st s' -> init_frame s s'.
Proof.
  intros HInit. unfold EncodeVisitorImpl.Init in HInit.
  init_frames EncodeVisitorImpl.t.
Qed.

Lemma encode_Init_flag (s : Frame EncodeVisitorImpl.t) st s' :
  EncodeVisitorImpl.Init s = Returned st s' ->
  initialized_ (base (this s')) = ok st.
Proof.
  intros HInit. unfold EncodeVisitorImpl.Init in HInit.
  init_flag EncodeVisitorImpl.t.
Qed.

Lemma probe_Init_frame (s : Frame ProbeVisitorImpl.t) st s' :
  ProbeVisitorImpl.Init s = Returned st s' -> init_frame s s'.
Proof.
  intros HInit. unfold ProbeVisitorImpl.Init in HInit.
  init_frames ProbeVisitorImpl.t.
Qed.

Lemma probe_Init_flag (s : Frame ProbeVisitorImpl.t) st s' :
  ProbeVisitorImpl.Init s = Returned st s' ->
  initialized_ (base (this s')) = ok st.
Proof.
  intros HInit. unfold ProbeVisitorImpl.Init in HInit.
  init_flag ProbeVisitorImpl.t.
Qed.

Lemma take_Init_frame (s : Frame TakeVisitorImpl.t) st s' :
  TakeVisitorImpl.Init s = Returned st s' -> init_frame s s'.
Proof.
  intros HInit. unfold TakeVisitorImpl.Init in HInit.
  init_frames TakeVisitorImpl.t.
Qed.

Lemma take_Init_flag (s : Frame TakeVisitorImpl.t) st s' :
  TakeVisitorImpl.Init s = Returned st s' ->
  initialized_ (base (this s')) = ok st.
Proof.
  intros HInit. unfold TakeVisitorImpl.Init in HInit.
  init_flag TakeVisitorImpl.t.
Qed.

Lemma ntake_Init_frame (s : Frame NTakeVisitorImpl.t) st s' :
  NTakeVisitorImpl.Init s = Returned st s' -> init_frame s s'.
Proof.
  intros HInit. unfold NTakeVisitorImpl.Init in HInit.
  init_frames NTakeVisitorImpl.t.
Qed.

Lemma ntake_Init_flag (s : Frame NTakeVisitorImpl.t) st s' :
  NTakeVisitorImpl.Init s = Returned st s' ->
  initialized_ (base (this s')) = ok st.
Proof.
  intros HInit. unfold NTakeVisitorImpl.Init in HInit.
  init_flag NTakeVisitorImpl.t.
Qed.

Lemma sort_Init_frame (s : Frame SortArraysToIndicesVisitorImpl.t) st s' :
  SortArraysToIndicesVisitorImpl.Init s = Returned st s' -> init_frame s s'.
Proof.
  intros HInit. unfold SortArraysToIndicesVisitorImpl.Init in HInit.
  init_frames SortArraysToIndicesVisitorImpl.t.
Qed.

Lemma sort_Init_flag (s : Frame SortArraysToIndicesVisitorImpl.t) st s' :
  SortArraysToIndicesVisitorImpl.Init s = Returned st s' ->
  initialized_ (base (this s')) = ok st.
Proof.
  intros HInit. unfold SortArraysToIndicesVisitorImpl.Init in HInit.
  init_flag SortArraysToIndicesVisitorImpl.t.
Qed.

Lemma shuffle_Init_frame (s : Frame ShuffleArrayListVisitorImpl.t) st s' :
  ShuffleArrayListVisitorImpl.Init s = Returned st s' -> init_frame s s'.
Proof.
  intros HInit. unfold ShuffleArrayListVisitorImpl.Init in HInit.
  init_frames ShuffleArrayListVisitorImpl.t.
Qed.

Lemma shuffle_Init_flag (s : Frame ShuffleArrayListVisitorImpl.t) st s' :
  ShuffleArrayListVisitorImpl.Init s = Returned st s' ->
  initialized_ (base (this s')) = ok st.
Proof.
  intros HInit. unfold ShuffleArrayListVisitorImpl.Init in HInit.
  init_flag ShuffleArrayListVisitorImpl.t.
Qed.

Lemma probe_arrays_Init_frame (s : Frame ProbeArraysVisitorImpl.t) st s' :
  ProbeArraysVisitorImpl.Init s = Returned st s' -> init_frame s s'.
Proof.
  intros HInit. unfold ProbeArraysVisitorImpl.Init in HInit.
  init_frames ProbeArraysVisitorImpl.t.
Qed.

Lemma probe_arrays_Init_flag (s : Frame ProbeArraysVisitorImpl.t) st s' :
  ProbeArraysVisitorImpl.Init s = Returned st s' ->
  initialized_ (base (this s')) = ok st.
Proof.
  intros HInit. unfold ProbeArraysVisitorImpl.Init in HInit.
  init_flag ProbeArraysVisitorImpl.t.
Qed.

(** X1.  Whatever [Init] returns, the context it leaves differs from the
    one it was called on in the result-field list at most: the schema, the
    input batch, the parameter names, both tags, the output holders and
    the elapsed time are untouched, and nothing is printed. *)
Theorem Init_changes_result_fields_only (s : Frame Impl) st s' :
  Init s = Returned st s' ->
  set_result_fields_ (result_fields_ (p_ s)) (p_ s') = p_ s /\
  cout s' = cout s /\ out_iter s' = out_iter s.
Proof.
  intros HInit. unfold Init in HInit.
  destruct (this s) eqn:Ethis; through_dispatch HInit.
  - exact (split_Init_frame _ E).
  - exact (aggregate_Init_frame _ E).
  - exact (encode_Init_frame _ E).
  - exact (probe_Init_frame _ E).
  - exact (take_Init_frame _ E).
  - exact (ntake_Init_frame _ E).
  - exact (sort_Init_frame _ E).
  - exact (shuffle_Init_frame _ E).
  - exact (probe_arrays_Init_frame _ E).
Qed.

(** X2.  When [Init] returns, the operator is marked initialized exactly
    if the status is OK: a failed [Init] leaves [initialized_] false, so
    that a later [SetMember] still refuses and a later [Init] runs again. *)
Theorem Init_initialized_iff_OK (s : Frame Impl) st s' :
  Init s = Returned st s' ->
  initialized_ (base (this s')) = ok st.
Proof.
  intros HInit. unfold Init in HInit.
  destruct (this s) eqn:Ethis; through_dispatch HInit.
  - exact (split_Init_flag _ E).
  - exact (aggregate_Init_flag _ E).
  - exact (encode_Init_flag _ E).
  - exact (probe_Init_flag _ E).
  - exact (take_Init_flag _ E).
  - exact (ntake_Init_flag _ E).
  - exact (sort_Init_flag _ E).
  - exact (shuffle_Init_flag _ E).
  - exact (probe_arrays_Init_flag _ E).
Qed.

End InitFrame.

Section Resolution.
Context `{KernalBase}.

(** X3.  [GetColumnIdAndFieldByName] returns OK exactly for a name that
    one field of the schema carries and no second one: the index is then
    the position of that field and the field is the one at that position,
    carrying that name.  For a name that no field carries, and for a name
    that more than one field carries, it returns Invalid with a message
    that ends in the name, the index -1 and a null field. *)
Theorem GetColumnIdAndFieldByName_spec (schema : Schema) (col_name : string) :
  let r := ExprVisitorImpl.GetColumnIdAndFieldByName schema col_name in
  let occurrences := count_occ string_dec (map name schema) col_name in
  (occurrences = 1%nat ->
   fst r = Status_OK /\
   0 <= fst (snd r) < Z.of_nat (List.length schema) /\
   exists f,
     snd (snd r) = Some f /\
     nth_error schema (Z.to_nat (fst (snd r))) = Some f /\
     name f = col_name) /\
  (occurrences <> 1%nat ->
   fst r =
   Status_Invalid
     ("GetColumnIdAndFieldByName doesn't found col_name " ++ col_name) /\
   fst (snd r) = -1 /\ snd (snd r) = None).
Proof.
  cbv zeta. unfold ExprVisitorImpl.GetColumnIdAndFieldByName.
  pose proof (GetFieldIndex_range schema col_name) as Hr.
  split; intros Hin.
  - apply GetFieldIndex_unique in Hin.
    replace (GetFieldIndex schema col_name <? 0) with false
      by (symmetry; apply Z.ltb_ge; exact Hin).
    cbn [fst snd]. split; [reflexivity|]. split; [lia|].
    apply GetFieldIndex_found. exact Hin.
  - assert (Hneg : GetFieldIndex schema col_name < 0).
    { destruct (Z.ltb_spec (GetFieldIndex schema col_name) 0) as [|Hge];
        [assumption|]. apply GetFieldIndex_unique in Hge. tauto. }
    replace (GetFieldIndex schema col_name <? 0) with true
      by (symmetry; apply Z.ltb_lt; exact Hneg).
    cbn [fst snd]. split; [reflexivity|]. split; [lia|].
    apply GetFieldByName_missing. exact Hneg.
Qed.

Lemma GetColumnIdAndFieldByName_ok schema col_name :
  ok (fst (ExprVisitorImpl.GetColumnIdAndFieldByName schema col_name)) = true ->
  resolves schema col_name /\
  fst (snd (ExprVisitorImpl.GetColumnIdAndFieldByName schema col_name)) =
  GetFieldIndex schema col_name.
Proof.
  unfold ExprVisitorImpl.GetColumnIdAndFieldByName, resolves.
  pose proof (GetFieldIndex_range schema col_name) as Hr.
  destruct (GetFieldIndex schema col_name <? 0) eqn:E; cbn.
  - discriminate.
  - apply Z.ltb_ge in E. intros _. split; [lia | reflexivity].
Qed.

Lemma split_Init_resolves (s : Frame SplitArrayListWithActionVisitorImpl.t) st s' :
  initialized_ (base (this s)) = false ->
  SplitArrayListWithActionVisitorImpl.Init s = Returned st s' -> ok st = true ->
  Forall (resolves (schema_ (p_ s))) (action_param_list_ (p_ s)) /\
  SplitArrayListWithActionVisitorImpl.col_id_list_ (this s') =
  (SplitArrayListWithActionVisitorImpl.col_id_list_ (this s) ++
   map (GetFieldIndex (schema_ (p_ s))) (action_param_list_ (p_ s)))%list.
Proof.
  intros Hini HInit Hok. unfold SplitArrayListWithActionVisitorImpl.Init in HInit.
  eapply run_triple
    with (Q := fun _ (s1 : Frame SplitArrayListWithActionVisitorImpl.t) =>
            Forall (resolves (schema_ (p_ s))) (action_param_list_ (p_ s)) /\
            SplitArrayListWithActionVisitorImpl.col_id_list_ (this s1) =
            (SplitArrayListWithActionVisitorImpl.col_id_list_ (this s) ++
             map (GetFieldIndex (schema_ (p_ s))) (action_param_list_ (p_ s)))%list)
         (R := fun st (_ : Frame SplitArrayListWithActionVisitorImpl.t) => ok st = false)
    in HInit.
  - destruct HInit as [HQ | HR]; [exact HQ | congruence].
  - clear HInit.
    repeat first
      [ wp_step
      | lazymatch goal with
        | |- triple (for_each _ _ _) _ _ _ =>
            apply triple_for_each with
              (Inv := fun rest _ (s1 : Frame SplitArrayListWithActionVisitorImpl.t) =>
                 exists seen,
                   action_param_list_ (p_ s) = (seen ++ rest)%list /\
                   Forall (resolves (schema_ (p_ s))) seen /\
                   SplitArrayListWithActionVisitorImpl.col_id_list_ (this s1) =
                   (SplitArrayListWithActionVisitorImpl.col_id_list_ (this s) ++
                    map (GetFieldIndex (schema_ (p_ s))) seen)%list /\
                   schema_ (p_ s1) = schema_ (p_ s));
            [ exists []; rewrite app_nil_r; cbn; auto
            | intros x rest l s1 (seen & Hn & Hall & Hcols & Hsch)
            | intros l s1 (seen & Hn & Hall & Hcols & Hsch);
              rewrite app_nil_r in Hn; subst seen ]
        end ];
      cbn in *; try congruence; auto.
    rewrite Hsch in *.
    match goal with
    | E : ok (fst (ExprVisitorImpl.GetColumnIdAndFieldByName _ _)) = true
      |- _ =>
        apply GetColumnIdAndFieldByName_ok in E; destruct E as [Hres Hid]
    end.
    exists (seen ++ [x])%list. rewrite <- app_assoc. cbn.
    repeat split; auto.
    + apply Forall_app. split; [assumption | constructor; auto].
    + rewrite Hcols, Hid, map_app, <- app_assoc. reflexivity.
Qed.

Lemma aggregate_Init_resolves (s : Frame AggregateVisitorImpl.t) st s' :
  initialized_ (base (this s)) = false ->
  AggregateVisitorImpl.Init s = Returned st s' -> ok st = true ->
  Forall (resolves (schema_ (p_ s))) (param_field_names_ (p_ s)) /\
  AggregateVisitorImpl.col_id_list_ (this s') =
  (AggregateVisitorImpl.col_id_list_ (this s) ++
   map (GetFieldIndex (schema_ (p_ s))) (param_field_names_ (p_ s)))%list.
Proof.
  intros Hini HInit Hok. unfold AggregateVisitorImpl.Init in HInit.
  eapply run_triple
    with (Q := fun _ (s1 : Frame AggregateVisitorImpl.t) =>
            Forall (resolves (schema_ (p_ s))) (param_field_names_ (p_ s)) /\
            AggregateVisitorImpl.col_id_list_ (this s1) =
            (AggregateVisitorImpl.col_id_list_ (this s) ++
             map (GetFieldIndex (schema_ (p_ s))) (param_field_names_ (p_ s)))%list)
         (R := fun st (_ : Frame AggregateVisitorImpl.t) => ok st = false)
    in HInit.
  - destruct HInit as [HQ | HR]; [exact HQ | congruence].
  - clear HInit.
    repeat first
      [ wp_step
      | lazymatch goal with
        | |- triple (for_each _ _ _) _ _ _ =>
            apply triple_for_each with
              (Inv := fun rest _ (s1 : Frame AggregateVisitorImpl.t) =>
                 exists seen,
                   param_field_names_ (p_ s) = (seen ++ rest)%list /\
                   Forall (resolves (schema_ (p_ s))) seen /\
                   AggregateVisitorImpl.col_id_list_ (this s1) =
                   (AggregateVisitorImpl.col_id_list_ (this s) ++
                    map (GetFieldIndex (schema_ (p_ s))) seen)%list /\
                   schema_ (p_ s1) = schema_ (p_ s));
            [ exists []; rewrite app_nil_r; cbn; auto
            | intros x rest l s1 (seen & Hn & Hall & Hcols & Hsch)
            | intros l s1 (seen & Hn & Hall & Hcols & Hsch);
              rewrite app_nil_r in Hn; subst seen ]
        end ];
      cbn in *; try congruence; auto.
    rewrite Hsch in *.
    match goal with
    | E : ok (fst (ExprVisitorImpl.GetColumnIdAndFieldByName _ _)) = true
      |- _ =>
        apply GetColumnIdAndFieldByName_ok in E; destruct E as [Hres Hid]
    end.
    exists (seen ++ [x])%list. rewrite <- app_assoc. cbn.
    repeat split; auto.
    + apply Forall_app. split; [assumption | constructor; auto].
    + rewrite Hcols, Hid, map_app, <- app_assoc. reflexivity.
Qed.

Lemma encode_Init_resolves (s : Frame EncodeVisitorImpl.t) st s' :
  initialized_ (base (this s)) = false ->
  EncodeVisitorImpl.Init s = Returned st s' -> ok st = true ->
  Forall (resolves (schema_ (p_ s))) (param_field_names_ (p_ s)) /\
  EncodeVisitorImpl.col_id_list_ (this s') =
  (EncodeVisitorImpl.col_id_list_ (this s) ++
   map (GetFieldIndex (schema_ (p_ s))) (param_field_names_ (p_ s)))%list.
Proof.
  intros Hini HInit Hok. unfold EncodeVisitorImpl.Init in HInit.
  eapply run_triple
    with (Q := fun _ (s1 : Frame EncodeVisitorImpl.t) =>
            Forall (resolves (schema_ (p_ s))) (param_field_names_ (p_ s)) /\
            EncodeVisitorImpl.col_id_list_ (this s1) =
            (EncodeVisitorImpl.col_id_list_ (this s) ++
             map (GetFieldIndex (schema_ (p_ s))) (param_field_names_ (p_ s)))%list)
         (R := fun st (_ : Frame EncodeVisitorImpl.t) => ok st = false)
    in HInit.
  - destruct HInit as [HQ | HR]; [exact HQ | congruence].
  - clear HInit.
    repeat first
      [ wp_step
      | lazymatch goal with
        | |- triple (for_each _ _ _) _ _ _ =>
            apply triple_for_each with
              (Inv := fun rest _ (s1 : Frame EncodeVisitorImpl.t) =>
                 exists seen,
                   param_field_names_ (p_ s) = (seen ++ rest)%list /\
                   Forall (resolves (schema_ (p_ s))) seen /\
                   EncodeVisitorImpl.col_id_list_ (this s1) =
                   (EncodeVisitorImpl.col_id_list_ (this s) ++
                    map (GetFieldIndex (schema_ (p_ s))) seen)%list /\
                   schema_ (p_ s1) = schema_ (p_ s));
            [ exists []; rewrite app_nil_r; cbn; auto
            | intros x rest l s1 (seen & Hn & Hall & Hcols & Hsch)
            | intros l s1 (seen & Hn & Hall & Hcols & Hsch);
              rewrite app_nil_r in Hn; subst seen ]
        end ];
      cbn in *; try congruence; auto.
    rewrite Hsch in *.
    match goal with
    | E : ok (fst (ExprVisitorImpl.GetColumnIdAndFieldByName _ _)) = true
      |- _ =>
        apply GetColumnIdAndFieldByName_ok in E; destruct E as [Hres Hid]
    end.
    exists (seen ++ [x])%list. rewrite <- app_assoc. cbn.
    repeat split; auto.
    + apply Forall_app. split; [assumption | constructor; auto].
    + rewrite Hcols, Hid, map_app, <- app_assoc. reflexivity.
Qed.

Lemma shuffle_Init_resolves (s : Frame ShuffleArrayListVisitorImpl.t) st s' :
  initialized_ (base (this s)) = false ->
  ShuffleArrayListVisitorImpl.Init s = Returned st s' -> ok st = true ->
  Forall (resolves (schema_ (p_ s))) (param_field_names_ (p_ s)) /\
  ShuffleArrayListVisitorImpl.col_id_list_ (this s') =
  (ShuffleArrayListVisitorImpl.col_id_list_ (this s) ++
   map (GetFieldIndex (schema_ (p_ s))) (param_field_names_ (p_ s)))%list.
Proof.
  intros Hini HInit Hok. unfold ShuffleArrayListVisitorImpl.Init in HInit.
  eapply run_triple
    with (Q := fun _ (s1 : Frame ShuffleArrayListVisitorImpl.t) =>
            Forall (resolves (schema_ (p_ s))) (param_field_names_ (p_ s)) /\
            ShuffleArrayListVisitorImpl.col_id_list_ (this s1) =
            (ShuffleArrayListVisitorImpl.col_id_list_ (this s) ++
             map (GetFieldIndex (schema_ (p_ s))) (param_field_names_ (p_ s)))%list)
         (R := fun st (_ : Frame ShuffleArrayListVisitorImpl.t) => ok st = false)
    in HInit.
  - destruct HInit as [HQ | HR]; [exact HQ | congruence].
  - clear HInit.
    repeat first
      [ wp_step
      | lazymatch goal with
        | |- triple (for_each _ _ _) _ _ _ =>
            apply triple_for_each with
              (Inv := fun rest _ (s1 : Frame ShuffleArrayListVisitorImpl.t) =>
                 exists seen,
                   param_field_names_ (p_ s) = (seen ++ rest)%list /\
                   Forall (resolves (schema_ (p_ s))) seen /\
                   ShuffleArrayListVisitorImpl.col_id_list_ (this s1) =
                   (ShuffleArrayListVisitorImpl.col_id_list_ (this s) ++
                    map (GetFieldIndex (schema_ (p_ s))) seen)%list /\
                   schema_ (p_ s1) = schema_ (p_ s));
            [ exists []; rewrite app_nil_r; cbn; auto
            | intros x rest l s1 (seen & Hn & Hall & Hcols & Hsch)
            | intros l s1 (seen & Hn & Hall & Hcols & Hsch);
              rewrite app_nil_r in Hn; subst seen ]
        end ];
      cbn in *; try congruence; auto.
    rewrite Hsch in *.
    match goal with
    | E : ok (fst (ExprVisitorImpl.GetColumnIdAndFieldByName _ _)) = true
      |- _ =>
        apply GetColumnIdAndFieldByName_ok in E; destruct E as [Hres Hid]
    end.
    exists (seen ++ [x])%list. rewrite <- app_assoc. cbn.
    repeat split; auto.
    + apply Forall_app. split; [assumption | constructor; auto].
    + rewrite Hcols, Hid, map_app, <- app_assoc. reflexivity.
Qed.

Lemma probe_arrays_Init_resolves (s : Frame ProbeArraysVisitorImpl.t) st s' :
  initialized_ (base (this s)) = false ->
  ProbeArraysVisitorImpl.Init s = Returned st s' -> ok st = true ->
  Forall (resolves (schema_ (p_ s))) (param_field_names_ (p_ s)) /\
  ProbeArraysVisitorImpl.col_id_list_ (this s') =
  (ProbeArraysVisitorImpl.col_id_list_ (this s) ++
   map (GetFieldIndex (schema_ (p_ s))) (param_field_names_ (p_ s)))%list.
Proof.
  intros Hini HInit Hok. unfold ProbeArraysVisitorImpl.Init in HInit.
  eapply run_triple
    with (Q := fun _ (s1 : Frame ProbeArraysVisitorImpl.t) =>
            Forall (resolves (schema_ (p_ s))) (param_field_names_ (p_ s)) /\
            ProbeArraysVisitorImpl.col_id_list_ (this s1) =
            (ProbeArraysVisitorImpl.col_id_list_ (this s) ++
             map (GetFieldIndex (schema_ (p_ s))) (param_field_names_ (p_ s)))%list)
         (R := fun st (_ : Frame ProbeArraysVisitorImpl.t) => ok st = false)
    in HInit.
  - destruct HInit as [HQ | HR]; [exact HQ | congruence].
  - clear HInit.
    repeat first
      [ wp_step
      | lazymatch goal with
        | |- triple (for_each _ _ _) _ _ _ =>
            apply triple_for_each with
              (Inv := fun rest _ (s1 : Frame ProbeArraysVisitorImpl.t) =>
                 exists seen,
                   param_field_names_ (p_ s) = (seen ++ rest)%list /\
                   Forall (resolves (schema_ (p_ s))) seen /\
                   ProbeArraysVisitorImpl.col_id_list_ (this s1) =
                   (ProbeArraysVisitorImpl.col_id_list_ (this s) ++
                    map (GetFieldIndex (schema_ (p_ s))) seen)%list /\
                   schema_ (p_ s1) = schema_ (p_ s));
            [ exists []; rewrite app_nil_r; cbn; auto
            | intros x rest l s1 (seen & Hn & Hall & Hcols & Hsch)
            | intros l s1 (seen & Hn & Hall & Hcols & Hsch);
              rewrite app_nil_r in Hn; subst seen ]
        end ];
      cbn in *; try congruence; auto.
    rewrite Hsch in *.
    match goal with
    | E : ok (fst (ExprVisitorImpl.GetColumnIdAndFieldByName _ _)) = true
      |- _ =>
        apply GetColumnIdAndFieldByName_ok in E; destruct E as [Hres Hid]
    end.
    exists (seen ++ [x])%list. rewrite <- app_assoc. cbn.
    repeat split; auto.
    + apply Forall_app. split; [assumption | constructor; auto].
    + rewrite Hcols, Hid, map_app, <- app_assoc. reflexivity.
Qed.

Lemma probe_Init_resolves (s : Frame ProbeVisitorImpl.t) st s' :
  initialized_ (base (this s)) = false ->
  ProbeVisitorImpl.Init s = Returned st s' -> ok st = true ->
  Forall (resolves (schema_ (p_ s))) (param_field_names_ (p_ s)) /\
  [ProbeVisitorImpl.col_id_ (this s')] =
  map (GetFieldIndex (schema_ (p_ s))) (param_field_names_ (p_ s)).
Proof.
  intros Hini HInit Hok. unfold ProbeVisitorImpl.Init in HInit.
  eapply run_triple
    with (Q := fun _ (s1 : Frame ProbeVisitorImpl.t) =>
            Forall (resolves (schema_ (p_ s))) (param_field_names_ (p_ s)) /\
            [ProbeVisitorImpl.col_id_ (this s1)] =
            map (GetFieldIndex (schema_ (p_ s))) (param_field_names_ (p_ s)))
         (R := fun st (_ : Frame ProbeVisitorImpl.t) => ok st = false)
    in HInit.
  - destruct HInit as [HQ | HR]; [exact HQ | congruence].
  - clear HInit. wp; cbn in *; try congruence; auto.
    match goal with
    | E : ok (fst (ExprVisitorImpl.GetColumnIdAndFieldByName _ _)) = true
      |- _ =>
        apply GetColumnIdAndFieldByName_ok in E; destruct E as [Hres Hid];
        rewrite Hid
    end.
    split; [constructor; auto | reflexivity].
Qed.

Lemma take_Init_resolves (s : Frame TakeVisitorImpl.t) st s' :
  initialized_ (base (this s)) = false ->
  TakeVisitorImpl.Init s = Returned st s' -> ok st = true ->
  Forall (resolves (schema_ (p_ s))) (param_field_names_ (p_ s)) /\
  [TakeVisitorImpl.col_id_ (this s')] =
  map (GetFieldIndex (schema_ (p_ s))) (param_field_names_ (p_ s)).
Proof.
  intros Hini HInit Hok. unfold TakeVisitorImpl.Init in HInit.
  eapply run_triple
    with (Q := fun _ (s1 : Frame TakeVisitorImpl.t) =>
            Forall (resolves (schema_ (p_ s))) (param_field_names_ (p_ s)) /\
            [TakeVisitorImpl.col_id_ (this s1)] =
            map (GetFieldIndex (schema_ (p_ s))) (param_field_names_ (p_ s)))
         (R := fun st (_ : Frame TakeVisitorImpl.t) => ok st = false)
    in HInit.
  - destruct HInit as [HQ | HR]; [exact HQ | congruence].
  - clear HInit. wp; cbn in *; try congruence; auto.
    match goal with
    | E : ok (fst (ExprVisitorImpl.GetColumnIdAndFieldByName _ _)) = true
      |- _ =>
        apply GetColumnIdAndFieldByName_ok in E; destruct E as [Hres Hid];
        rewrite Hid
    end.
    split; [constructor; auto | reflexivity].
Qed.

Lemma ntake_Init_resolves (s : Frame NTakeVisitorImpl.t) st s' :
  initialized_ (base (this s)) = false ->
  NTakeVisitorImpl.Init s = Returned st s' -> ok st = true ->
  Forall (resolves (schema_ (p_ s))) (param_field_names_ (p_ s)) /\
  [NTakeVisitorImpl.col_id_ (this s')] =
  map (GetFieldIndex (schema_ (p_ s))) (param_field_names_ (p_ s)).
Proof.
  intros Hini HInit Hok. unfold NTakeVisitorImpl.Init in HInit.
  eapply run_triple
    with (Q := fun _ (s1 : Frame NTakeVisitorImpl.t) =>
            Forall (resolves (schema_ (p_ s))) (param_field_names_ (p_ s)) /\
            [NTakeVisitorImpl.col_id_ (this s1)] =
            map (GetFieldIndex (schema_ (p_ s))) (param_field_names_ (p_ s)))
         (R := fun st (_ : Frame NTakeVisitorImpl.t) => ok st = false)
    in HInit.
  - destruct HInit as [HQ | HR]; [exact HQ | congruence].
  - clear HInit. wp; cbn in *; try congruence; auto.
    match goal with
    | E : ok (fst (ExprVisitorImpl.GetColumnIdAndFieldByName _ _)) = true
      |- _ =>
        apply GetColumnIdAndFieldByName_ok in E; destruct E as [Hres Hid];
        rewrite Hid
    end.
    split; [constructor; auto | reflexivity].
Qed.

Lemma sort_Init_resolves (s : Frame SortArraysToIndicesVisitorImpl.t) st s' :
  initialized_ (base (this s)) = false ->
  SortArraysToIndicesVisitorImpl.Init s = Returned st s' -> ok st = true ->
  Forall (resolves (schema_ (p_ s))) (param_field_names_ (p_ s)) /\
  [SortArraysToIndicesVisitorImpl.col_id_ (this s')] =
  map (GetFieldIndex (schema_ (p_ s))) (param_field_names_ (p_ s)).
Proof.
  intros Hini HInit Hok. unfold SortArraysToIndicesVisitorImpl.Init in HInit.
  eapply run_triple
    with (Q := fun _ (s1 : Frame SortArraysToIndicesVisitorImpl.t) =>
            Forall (resolves (schema_ (p_ s))) (param_field_names_ (p_ s)) /\
            [SortArraysToIndicesVisitorImpl.col_id_ (this s1)] =
            map (GetFieldIndex (schema_ (p_ s))) (param_field_names_ (p_ s)))
         (R := fun st (_ : Frame SortArraysToIndicesVisitorImpl.t) => ok st = false)
    in HInit.
  - destruct HInit as [HQ | HR]; [exact HQ | congruence].
  - clear HInit. wp; cbn in *; try congruence; auto.
    match goal with
    | E : ok (fst (ExprVisitorImpl.GetColumnIdAndFieldByName _ _)) = true
      |- _ =>
        apply GetColumnIdAndFieldByName_ok in E; destruct E as [Hres Hid];
        rewrite Hid
    end.
    split; [constructor; auto | reflexivity].
Qed.

(** X4.  A successful [Init] of an operator that was not initialized
    found every column name it refers to in the schema, and the operator's
    resolved column indices are the positions of these names in the
    schema, in order: appended to the indices held before by the classes
    with a column-index vector, alone in the classes with one index.
    Every one of them is a valid position of the schema. *)
Theorem Init_resolved_columns (s : Frame Impl) st s' :
  initialized_ (base (this s)) = false ->
  Init s = Returned st s' -> ok st = true ->
  Forall (fun n => 0 <= GetFieldIndex (schema_ (p_ s)) n
                   < Z.of_nat (List.length (schema_ (p_ s))))
         (referenced_columns (this s) (p_ s)) /\
  resolved_columns (this s') =
  ((if has_column_list (this s) then resolved_columns (this s) else []) ++
   map (GetFieldIndex (schema_ (p_ s)))
       (referenced_columns (this s) (p_ s)))%list.
Proof.
  intros Hini HInit Hok. unfold Init in HInit.
  destruct s as [i p c it]. cbn [this p_] in *.
  destruct i; cbn in Hini; through_dispatch HInit;
    cbn [this with_this p_ has_column_list resolved_columns
         referenced_columns app].
  - match type of E with _ ?s1 = _ =>
      exact (split_Init_resolves s1 Hini E Hok) end.
  - match type of E with _ ?s1 = _ =>
      exact (aggregate_Init_resolves s1 Hini E Hok) end.
  - match type of E with _ ?s1 = _ =>
      exact (encode_Init_resolves s1 Hini E Hok) end.
  - match type of E with _ ?s1 = _ =>
      exact (probe_Init_resolves s1 Hini E Hok) end.
  - match type of E with _ ?s1 = _ =>
      exact (take_Init_resolves s1 Hini E Hok) end.
  - match type of E with _ ?s1 = _ =>
      exact (ntake_Init_resolves s1 Hini E Hok) end.
  - match type of E with _ ?s1 = _ =>
      exact (sort_Init_resolves s1 Hini E Hok) end.
  - match type of E with _ ?s1 = _ =>
      exact (shuffle_Init_resolves s1 Hini E Hok) end.
  - match type of E with _ ?s1 = _ =>
      exact (probe_arrays_Init_resolves s1 Hini E Hok) end.
Qed.

End Resolution.

Section EvalFacts.
Context `{KernalBase}.

Lemma split_Eval_out_of_range (s : Frame SplitArrayListWithActionVisitorImpl.t) :
  dependency_result_type_ (p_ s) = ArrowComputeResultType.Array ->
  Forall (fun c => 0 <= c)
         (SplitArrayListWithActionVisitorImpl.col_id_list_ (this s)) ->
  Exists (fun c => num_columns (in_record_batch_ (p_ s)) <= c)
         (SplitArrayListWithActionVisitorImpl.col_id_list_ (this s)) ->
  SplitArrayListWithActionVisitorImpl.Eval s =
  Returned (Status_Invalid
    ("SplitArrayListWithActionVisitorImpl Eval col_id is bigger than input "
     ++ "batch numColumns.")) s.
Proof.
  intros Htag Hall Hex. unfold SplitArrayListWithActionVisitorImpl.Eval.
  erewrite run_bind_Continue by reflexivity. rewrite Htag.
  erewrite run_bind_Return; [reflexivity|].
  exact (checked_columns_out_of_range _ _ Hall Hex [] s).
Qed.

Lemma aggregate_Eval_out_of_range (s : Frame AggregateVisitorImpl.t) :
  dependency_result_type_ (p_ s) = ArrowComputeResultType.None ->
  Forall (fun c => 0 <= c) (AggregateVisitorImpl.col_id_list_ (this s)) ->
  Exists (fun c => num_columns (in_record_batch_ (p_ s)) <= c)
         (AggregateVisitorImpl.col_id_list_ (this s)) ->
  AggregateVisitorImpl.Eval s =
  Returned (Status_Invalid
    ("AggregateVisitorImpl Eval col_id is bigger than input "
     ++ "batch numColumns.")) s.
Proof.
  intros Htag Hall Hex. unfold AggregateVisitorImpl.Eval.
  erewrite run_bind_Continue by reflexivity. rewrite Htag.
  erewrite run_bind_Return; [reflexivity|].
  exact (checked_columns_out_of_range _ _ Hall Hex [] s).
Qed.

Lemma sort_Eval_out_of_range (s : Frame SortArraysToIndicesVisitorImpl.t) :
  dependency_result_type_ (p_ s) = ArrowComputeResultType.None ->
  num_columns (in_record_batch_ (p_ s)) <=
  SortArraysToIndicesVisitorImpl.col_id_ (this s) ->
  SortArraysToIndicesVisitorImpl.Eval s =
  Returned (Status_Invalid
    ("SortArraysToIndicesVisitorImpl Eval col_id is bigger than input "
     ++ "batch numColumns.")) s.
Proof.
  intros Htag Hcol. unfold SortArraysToIndicesVisitorImpl.Eval.
  erewrite run_bind_Continue by reflexivity. rewrite Htag.
  replace (SortArraysToIndicesVisitorImpl.col_id_ (this s) >=?
           num_columns (in_record_batch_ (p_ s))) with true
    by (symmetry; rewrite Z.geb_leb; apply Z.leb_le; exact Hcol).
  reflexivity.
Qed.

(** X5.  In the split, aggregate, sort and shuffle operators an [Eval]
    that reaches the column loop (the tag is one the class supports; the
    shuffle operator reaches it under every tag) with a resolved column
    index at or beyond the input batch's column count fails with Invalid
    before any column is read or the kernel is called: the operator, its
    kernel and the context are left as they were. *)
Theorem Eval_out_of_range_checked (s : Frame Impl) :
  checks_bounds (this s) = true ->
  supports (this s) (dependency_result_type_ (p_ s)) = true \/
  is_shuffle (this s) = true ->
  Forall (fun c => 0 <= c) (resolved_columns (this s)) ->
  Exists (fun c => num_columns (in_record_batch_ (p_ s)) <= c)
         (resolved_columns (this s)) ->
  exists msg, Eval s = Returned (Status_Invalid msg) s.
Proof.
  intros Hc Hs Hall Hex. destruct s as [i p c it]; cbn [this p_] in *.
  destruct i; try discriminate Hc; cbn [resolved_columns] in *;
    eexists; unfold Eval; cbn [this];
    (apply dispatch_unchanged; [reflexivity|]).
  - apply split_Eval_out_of_range; cbn [this p_ with_this]; auto.
    destruct Hs as [Hs | Hs]; [|discriminate].
    destruct (dependency_result_type_ p); try discriminate; reflexivity.
  - apply aggregate_Eval_out_of_range; cbn [this p_ with_this]; auto.
    destruct Hs as [Hs | Hs]; [|discriminate].
    destruct (dependency_result_type_ p); try discriminate; reflexivity.
  - apply sort_Eval_out_of_range; cbn [this p_ with_this].
    + destruct Hs as [Hs | Hs]; [|discriminate].
      destruct (dependency_result_type_ p); try discriminate; reflexivity.
    + inversion Hex as [? ? Hx | ? ? Hx]; subst; [exact Hx | inversion Hx].
  - apply shuffle_Eval_out_of_range; cbn [this p_ with_this]; auto.
Qed.

Ltac eval_keeps T cols :=
  lazymatch goal with
  | HEval : run _ ?s = Returned _ _ |- _ =>
      eapply run_triple
        with (Q := fun _ (s1 : Frame T) =>
                     registration cols s1 = registration cols s)
             (R := fun _ (s1 : Frame T) =>
                     registration cols s1 = registration cols s)
        in HEval;
      [ destruct HEval as [Hi | Hi]; exact Hi
      | repeat first
          [ wp_step
          | lazymatch goal with
            | |- triple (for_each _ _ _) _ _ _ =>
                apply triple_for_each
                  with (Inv := fun _ _ s1 =>
                          registration cols s1 = registration cols s);
                [ | intros | intros]
            end ];
        unfold registration in *; cbn in *; auto ]
  end.

Ltac eval_finish T kind :=
  lazymatch goal with
  | HEval : run _ ?s = Returned _ _ |- _ =>
      eapply run_triple
        with (Q := fun _ (s1 : Frame T) =>
                     finish_return_type_ (base (this s1)) = kind /\
                     exists k, kernel_ (base (this s1)) = Some k)
             (R := fun st (_ : Frame T) => ok st = false)
        in HEval;
      [ destruct HEval as [HQ | HR]; [exact HQ | congruence]
      | repeat first
          [ wp_step
          | lazymatch goal with
            | |- triple (for_each _ _ _) _ _ _ =>
                apply triple_for_each with (Inv := fun _ _ _ => True);
                [ exact I | intros | intros]
            end ];
        cbn in *; try congruence; auto;
        try (split; [reflexivity | eexists; reflexivity]) ]
  end.

Lemma split_Eval_registration (s : Frame SplitArrayListWithActionVisitorImpl.t) st s' :
  SplitArrayListWithActionVisitorImpl.Eval s = Returned st s' ->
  registration SplitArrayListWithActionVisitorImpl.col_id_list_ s' = registration SplitArrayListWithActionVisitorImpl.col_id_list_ s.
Proof.
  intros HEval. unfold SplitArrayListWithActionVisitorImpl.Eval in HEval.
  eval_keeps SplitArrayListWithActionVisitorImpl.t SplitArrayListWithActionVisitorImpl.col_id_list_.
Qed.

Lemma split_Eval_finish_kind (s : Frame SplitArrayListWithActionVisitorImpl.t) st s' :
  SplitArrayListWithActionVisitorImpl.Eval s = Returned st s' -> ok st = true ->
  dependency_result_type_ (p_ s) <> ArrowComputeResultType.BatchIterator ->
  finish_return_type_ (base (this s')) = ArrowComputeResultType.Batch /\
  exists k, kernel_ (base (this s')) = Some k.
Proof.
  intros HEval Hok Htag. unfold SplitArrayListWithActionVisitorImpl.Eval in HEval.
  eval_finish SplitArrayListWithActionVisitorImpl.t ArrowComputeResultType.Batch.
Qed.

Lemma aggregate_Eval_registration (s : Frame AggregateVisitorImpl.t) st s' :
  AggregateVisitorImpl.Eval s = Returned st s' ->
  registration AggregateVisitorImpl.col_id_list_ s' = registration AggregateVisitorImpl.col_id_list_ s.
Proof.
  intros HEval. unfold AggregateVisitorImpl.Eval in HEval.
  eval_keeps AggregateVisitorImpl.t AggregateVisitorImpl.col_id_list_.
Qed.

Lemma aggregate_Eval_finish_kind (s : Frame AggregateVisitorImpl.t) st s' :
  AggregateVisitorImpl.Eval s = Returned st s' -> ok st = true ->
  dependency_result_type_ (p_ s) <> ArrowComputeResultType.BatchIterator ->
  finish_return_type_ (base (this s')) = ArrowComputeResultType.Batch /\
  exists k, kernel_ (base (this s')) = Some k.
Proof.
  intros HEval Hok Htag. unfold AggregateVisitorImpl.Eval in HEval.
  eval_finish AggregateVisitorImpl.t ArrowComputeResultType.Batch.
Qed.

Lemma encode_Eval_registration (s : Frame EncodeVisitorImpl.t) st s' :
  EncodeVisitorImpl.Eval s = Returned st s' ->
  registration EncodeVisitorImpl.col_id_list_ s' = registration EncodeVisitorImpl.col_id_list_ s.
Proof.
  intros HEval. unfold EncodeVisitorImpl.Eval in HEval.
  eval_keeps EncodeVisitorImpl.t EncodeVisitorImpl.col_id_list_.
Qed.

Lemma probe_Eval_registration (s : Frame ProbeVisitorImpl.t) st s' :
  ProbeVisitorImpl.Eval s = Returned st s' ->
  registration (fun o => [ProbeVisitorImpl.col_id_ o]) s' = registration (fun o => [ProbeVisitorImpl.col_id_ o]) s.
Proof.
  intros HEval. unfold ProbeVisitorImpl.Eval in HEval.
  eval_keeps ProbeVisitorImpl.t (fun o => [ProbeVisitorImpl.col_id_ o]).
Qed.

Lemma probe_Eval_finish_kind (s : Frame ProbeVisitorImpl.t) st s' :
  ProbeVisitorImpl.Eval s = Returned st s' -> ok st = true ->
  dependency_result_type_ (p_ s) <> ArrowComputeResultType.BatchIterator ->
  finish_return_type_ (base (this s')) = ArrowComputeResultType.Array /\
  exists k, kernel_ (base (this s')) = Some k.
Proof.
  intros HEval Hok Htag. unfold ProbeVisitorImpl.Eval in HEval.
  eval_finish ProbeVisitorImpl.t ArrowComputeResultType.Array.
Qed.

Lemma take_Eval_registration (s : Frame TakeVisitorImpl.t) st s' :
  TakeVisitorImpl.Eval s = Returned st s' ->
  registration (fun o => [TakeVisitorImpl.col_id_ o]) s' = registration (fun o => [TakeVisitorImpl.col_id_ o]) s.
Proof.
  intros HEval. unfold TakeVisitorImpl.Eval in HEval.
  eval_keeps TakeVisitorImpl.t (fun o => [TakeVisitorImpl.col_id_ o]).
Qed.

Lemma take_Eval_finish_kind (s : Frame TakeVisitorImpl.t) st s' :
  TakeVisitorImpl.Eval s = Returned st s' -> ok st = true ->
  dependency_result_type_ (p_ s) <> ArrowComputeResultType.BatchIterator ->
  finish_return_type_ (base (this s')) = ArrowComputeResultType.Array /\
  exists k, kernel_ (base (this s')) = Some k.
Proof.
  intros HEval Hok Htag. unfold TakeVisitorImpl.Eval in HEval.
  eval_finish TakeVisitorImpl.t ArrowComputeResultType.Array.
Qed.

Lemma ntake_Eval_registration (s : Frame NTakeVisitorImpl.t) st s' :
  NTakeVisitorImpl.Eval s = Returned st s' ->
  registration (fun o => [NTakeVisitorImpl.col_id_ o]) s' = registration (fun o => [NTakeVisitorImpl.col_id_ o]) s.
Proof.
  intros HEval. unfold NTakeVisitorImpl.Eval in HEval.
  eval_keeps NTakeVisitorImpl.t (fun o => [NTakeVisitorImpl.col_id_ o]).
Qed.

Lemma ntake_Eval_finish_kind (s : Frame NTakeVisitorImpl.t) st s' :
  NTakeVisitorImpl.Eval s = Returned st s' -> ok st = true ->
  dependency_result_type_ (p_ s) <> ArrowComputeResultType.BatchIterator ->
  finish_return_type_ (base (this s')) = ArrowComputeResultType.Array /\
  exists k, kernel_ (base (this s')) = Some k.
Proof.
  intros HEval Hok Htag. unfold NTakeVisitorImpl.Eval in HEval.
  eval_finish NTakeVisitorImpl.t ArrowComputeResultType.Array.
Qed.

Lemma sort_Eval_registration (s : Frame SortArraysToIndicesVisitorImpl.t) st s' :
  SortArraysToIndicesVisitorImpl.Eval s = Returned st s' ->
  registration (fun o => [SortArraysToIndicesVisitorImpl.col_id_ o]) s' = registration (fun o => [SortArraysToIndicesVisitorImpl.col_id_ o]) s.
Proof.
  intros HEval. unfold SortArraysToIndicesVisitorImpl.Eval in HEval.
  eval_keeps SortArraysToIndicesVisitorImpl.t (fun o => [SortArraysToIndicesVisitorImpl.col_id_ o]).
Qed.

Lemma sort_Eval_finish_kind (s : Frame SortArraysToIndicesVisitorImpl.t) st s' :
  SortArraysToIndicesVisitorImpl.Eval s = Returned st s' -> ok st = true ->
  dependency_result_type_ (p_ s) <> ArrowComputeResultType.BatchIterator ->
  finish_return_type_ (base (this s')) = ArrowComputeResultType.Array /\
  exists k, kernel_ (base (this s')) = Some k.
Proof.
  intros HEval Hok Htag. unfold SortArraysToIndicesVisitorImpl.Eval in HEval.
  eval_finish SortArraysToIndicesVisitorImpl.t ArrowComputeResultType.Array.
Qed.

Lemma shuffle_Eval_registration (s : Frame ShuffleArrayListVisitorImpl.t) st s' :
  ShuffleArrayListVisitorImpl.Eval s = Returned st s' ->
  registration ShuffleArrayListVisitorImpl.col_id_list_ s' = registration ShuffleArrayListVisitorImpl.col_id_list_ s.
Proof.
  intros HEval. unfold ShuffleArrayListVisitorImpl.Eval in HEval.
  eval_keeps ShuffleArrayListVisitorImpl.t ShuffleArrayListVisitorImpl.col_id_list_.
Qed.

Lemma shuffle_Eval_finish_kind (s : Frame ShuffleArrayListVisitorImpl.t) st s' :
  ShuffleArrayListVisitorImpl.Eval s = Returned st s' -> ok st = true ->
  dependency_result_type_ (p_ s) <> ArrowComputeResultType.BatchIterator ->
  finish_return_type_ (base (this s')) = ArrowComputeResultType.Batch /\
  exists k, kernel_ (base (this s')) = Some k.
Proof.
  intros HEval Hok Htag. unfold ShuffleArrayListVisitorImpl.Eval in HEval.
  eval_finish ShuffleArrayListVisitorImpl.t ArrowComputeResultType.Batch.
Qed.

Lemma probe_arrays_Eval_registration (s : Frame ProbeArraysVisitorImpl.t) st s' :
  ProbeArraysVisitorImpl.Eval s = Returned st s' ->
  registration ProbeArraysVisitorImpl.col_id_list_ s' = registration ProbeArraysVisitorImpl.col_id_list_ s.
Proof.
  intros HEval. unfold ProbeArraysVisitorImpl.Eval in HEval.
  eval_keeps ProbeArraysVisitorImpl.t ProbeArraysVisitorImpl.col_id_list_.
Qed.

Lemma probe_arrays_Eval_finish_kind (s : Frame ProbeArraysVisitorImpl.t) st s' :
  ProbeArraysVisitorImpl.Eval s = Returned st s' -> ok st = true ->
  dependency_result_type_ (p_ s) <> ArrowComputeResultType.BatchIterator ->
  finish_return_type_ (base (this s')) = ArrowComputeResultType.Batch /\
  exists k, kernel_ (base (this s')) = Some k.
Proof.
  intros HEval Hok Htag. unfold ProbeArraysVisitorImpl.Eval in HEval.
  eval_finish ProbeArraysVisitorImpl.t ArrowComputeResultType.Batch.
Qed.

(** X6.  [Eval] only reads what [Init] registered and the caller
    supplied: whatever it returns, the resolved column indices, the
    initialized flag, the result-field list, the schema, the parameter
    names, the input batch, the indices array and the member batch are
    the ones it was called with, nothing is printed and the caller's
    iterator holder is not written. *)
Theorem Eval_keeps_registration (s : Frame Impl) st s' :
  Eval s = Returned st s' ->
  registration resolved_columns s' = registration resolved_columns s.
Proof.
  intros HEval. unfold Eval in HEval.
  destruct s as [i p c it]. cbn [this] in HEval.
  destruct i; through_dispatch HEval;
    match type of E with
    | _ ?s1 = _ => unfold registration; cbn [this with_this p_ cout out_iter
                     resolved_columns base impl_derived impl_base]
    end.
  - exact (split_Eval_registration _ E).
  - exact (aggregate_Eval_registration _ E).
  - exact (encode_Eval_registration _ E).
  - exact (probe_Eval_registration _ E).
  - exact (take_Eval_registration _ E).
  - exact (ntake_Eval_registration _ E).
  - exact (sort_Eval_registration _ E).
  - exact (shuffle_Eval_registration _ E).
  - exact (probe_arrays_Eval_registration _ E).
Qed.

(** X7.  A successful [Eval] entered with a tag other than BatchIterator
    leaves the operator ready for its materialization: a kernel is bound
    and [finish_return_type_] is the value the class's [Finish] (for the
    probe-arrays class its [MakeResultIterator]) has a case for, Batch for
    the split, aggregate, shuffle and probe-arrays classes and Array for
    the probe-build, take, n-take and sort classes. *)
Theorem Eval_sets_finish_kind (s : Frame Impl) st s' kind :
  Eval s = Returned st s' -> ok st = true ->
  dependency_result_type_ (p_ s) <> ArrowComputeResultType.BatchIterator ->
  finish_kind (this s) = Some kind ->
  finish_return_type_ (base (this s')) = kind /\
  exists k, kernel_ (base (this s')) = Some k.
Proof.
  intros HEval Hok Htag Hkind. unfold Eval in HEval.
  destruct s as [i p c it]. cbn [this p_] in *.
  destruct i; try discriminate Hkind;
    injection Hkind as <-; through_dispatch HEval;
    cbn [this with_this base impl_derived impl_base].
  - exact (split_Eval_finish_kind _ E Hok Htag).
  - exact (aggregate_Eval_finish_kind _ E Hok Htag).
  - exact (probe_Eval_finish_kind _ E Hok Htag).
  - exact (take_Eval_finish_kind _ E Hok Htag).
  - exact (ntake_Eval_finish_kind _ E Hok Htag).
  - exact (sort_Eval_finish_kind _ E Hok Htag).
  - exact (shuffle_Eval_finish_kind _ E Hok Htag).
  - exact (probe_arrays_Eval_finish_kind _ E Hok Htag).
Qed.

End EvalFacts.

Section EvalFailure.
Context `{KernalBase}.

Ltac eval_fails T :=
  lazymatch goal with
  | HEval : run _ ?s = Returned _ _ |- _ =>
      eapply run_triple
        with (Q := fun st (_ : Frame T) => ok st = true)
             (R := fun _ (s1 : Frame T) => progress s1 = progress s)
        in HEval;
      [ destruct HEval as [HQ | HR]; [congruence | exact HR]
      | repeat first
          [ wp_step
          | lazymatch goal with
            | |- triple (for_each _ _ _) _ _ _ =>
                apply triple_for_each
                  with (Inv := fun _ _ s1 => progress s1 = progress s);
                [ | intros | intros]
            end ];
        unfold progress in *; cbn in *; auto ]
  end.

Lemma split_Eval_failure (s : Frame SplitArrayListWithActionVisitorImpl.t) st s' :
  SplitArrayListWithActionVisitorImpl.Eval s = Returned st s' -> ok st = false ->
  progress s' = progress s.
Proof.
  intros HEval Hok. unfold SplitArrayListWithActionVisitorImpl.Eval in HEval.
  eval_fails SplitArrayListWithActionVisitorImpl.t.
Qed.

Lemma aggregate_Eval_failure (s : Frame AggregateVisitorImpl.t) st s' :
  AggregateVisitorImpl.Eval s = Returned st s' -> ok st = false ->
  progress s' = progress s.
Proof.
  intros HEval Hok. unfold AggregateVisitorImpl.Eval in HEval.
  eval_fails AggregateVisitorImpl.t.
Qed.

Lemma encode_Eval_failure (s : Frame EncodeVisitorImpl.t) st s' :
  EncodeVisitorImpl.Eval s = Returned st s' -> ok st = false ->
  progress s' = progress s.
Proof.
  intros HEval Hok. unfold EncodeVisitorImpl.Eval in HEval.
  eval_fails EncodeVisitorImpl.t.
Qed.

Lemma probe_Eval_failure (s : Frame ProbeVisitorImpl.t) st s' :
  ProbeVisitorImpl.Eval s = Returned st s' -> ok st = false ->
  progress s' = progress s.
Proof.
  intros HEval Hok. unfold ProbeVisitorImpl.Eval in HEval.
  eval_fails ProbeVisitorImpl.t.
Qed.

Lemma take_Eval_failure (s : Frame TakeVisitorImpl.t) st s' :
  TakeVisitorImpl.Eval s = Returned st s' -> ok st = false ->
  progress s' = progress s.
Proof.
  intros HEval Hok. unfold TakeVisitorImpl.Eval in HEval.
  eval_fails TakeVisitorImpl.t.
Qed.

Lemma ntake_Eval_failure (s : Frame NTakeVisitorImpl.t) st s' :
  NTakeVisitorImpl.Eval s = Returned st s' -> ok st = false ->
  progress s' = progress s.
Proof.
  intros HEval Hok. unfold NTakeVisitorImpl.Eval in HEval.
  eval_fails NTakeVisitorImpl.t.
Qed.

Lemma sort_Eval_failure (s : Frame SortArraysToIndicesVisitorImpl.t) st s' :
  SortArraysToIndicesVisitorImpl.Eval s = Returned st s' -> ok st = false ->
  progress s' = progress s.
Proof.
  intros HEval Hok. unfold SortArraysToIndicesVisitorImpl.Eval in HEval.
  eval_fails SortArraysToIndicesVisitorImpl.t.
Qed.

Lemma shuffle_Eval_failure (s : Frame ShuffleArrayListVisitorImpl.t) st s' :
  ShuffleArrayListVisitorImpl.Eval s = Returned st s' -> ok st = false ->
  progress s' = progress s.
Proof.
  intros HEval Hok. unfold ShuffleArrayListVisitorImpl.Eval in HEval.
  eval_fails ShuffleArrayListVisitorImpl.t.
Qed.

Lemma probe_arrays_Eval_failure (s : Frame ProbeArraysVisitorImpl.t) st s' :
  ProbeArraysVisitorImpl.Eval s = Returned st s' -> ok st = false ->
  progress s' = progress s.
Proof.
  intros HEval Hok. unfold ProbeArraysVisitorImpl.Eval in HEval.
  eval_fails ProbeArraysVisitorImpl.t.
Qed.

(** X8.  An [Eval] that returns a status other than OK does not advance
    the operator: the context's [dependency_result_type_] and
    [return_type_] and the operator's [finish_return_type_] are the ones
    it was called with, whether the failure is a rejected tag, a column
    index out of range or an error of the kernel. *)
Theorem Eval_failure_keeps_state (s : Frame Impl) st s' :
  Eval s = Returned st s' -> ok st = false ->
  dependency_result_type_ (p_ s') = dependency_result_type_ (p_ s) /\
  finish_return_type_ (base (this s')) = finish_return_type_ (base (this s)) /\
  return_type_ (p_ s') = return_type_ (p_ s).
Proof.
  intros HEval Hok. unfold Eval in HEval.
  destruct s as [i p c it]. cbn [this] in HEval.
  assert (Hp : progress s' =
               progress {| this := i; p_ := p; cout := c; out_iter := it |}).
  { destruct i; through_dispatch HEval;
      unfold progress;
      cbn [this with_this p_ base impl_derived impl_base].
    - exact (split_Eval_failure _ E Hok).
    - exact (aggregate_Eval_failure _ E Hok).
    - exact (encode_Eval_failure _ E Hok).
    - exact (probe_Eval_failure _ E Hok).
    - exact (take_Eval_failure _ E Hok).
    - exact (ntake_Eval_failure _ E Hok).
    - exact (sort_Eval_failure _ E Hok).
    - exact (shuffle_Eval_failure _ E Hok).
    - exact (probe_arrays_Eval_failure _ E Hok).
  }
  unfold progress in Hp. inversion Hp. auto.
Qed.

End EvalFailure.

Section FinishFacts.
Context `{KernalBase}.

(** X9.  In the split, aggregate, probe-build, take, n-take and sort
    operators, [Finish] called while [finish_return_type_] is not the kind
    the class finishes with (for one, before any successful [Eval]) fails
    with NotImplemented and changes nothing: the kernel is not asked to
    finish. *)
Theorem Finish_wrong_kind (s : Frame Impl) kind :
  finish_switches (this s) = true ->
  finish_kind (this s) = Some kind ->
  finish_return_type_ (base (this s)) <> kind ->
  exists msg, Finish s = Returned (Status_NotImplemented msg) s.
Proof.
  intros Hsw Hkind Hfrt. destruct s as [i p c it]. cbn [this] in *.
  destruct i as [x|x|x|x|x|x|x|x|x]; try discriminate Hsw;
    injection Hkind as <-;
    destruct x as [[ini frt ker] ?]; cbn in Hfrt;
    destruct frt; try congruence; eexists;
    unfold Finish, SplitArrayListWithActionVisitorImpl.Finish,
      AggregateVisitorImpl.Finish, ProbeVisitorImpl.Finish,
      TakeVisitorImpl.Finish, NTakeVisitorImpl.Finish,
      SortArraysToIndicesVisitorImpl.Finish;
    msimpl; reflexivity.
Qed.

(** X10.  In the same six operators, [Finish] called with a kernel bound
    and [finish_return_type_] of the class's kind asks the kernel to
    finish into the holder of that kind, the result batch for the split
    and aggregate operators and the result array for the others.  It
    returns OK and publishes the kind in [return_type_] when the kernel
    returns OK; otherwise it returns the kernel's status and leaves
    [return_type_] as it was. *)
Theorem Finish_right_kind (s : Frame Impl) k :
  finish_switches (this s) = true ->
  finish_kind (this s) = Some (finish_return_type_ (base (this s))) ->
  kernel_ (base (this s)) = Some k ->
  (finish_return_type_ (base (this s)) = ArrowComputeResultType.Batch ->
   let r := Finish_batch k (result_batch_ (p_ s)) in
   exists s',
     Finish s = Returned (if ok (result r) then Status_OK else result r) s' /\
     result_batch_ (p_ s') = out r /\
     kernel_ (base (this s')) = Some (kernel' r) /\
     return_type_ (p_ s') =
     (if ok (result r) then ArrowComputeResultType.Batch
      else return_type_ (p_ s))) /\
  (finish_return_type_ (base (this s)) = ArrowComputeResultType.Array ->
   let r := Finish_array k (result_array_ (p_ s)) in
   exists s',
     Finish s = Returned (if ok (result r) then Status_OK else result r) s' /\
     result_array_ (p_ s') = out r /\
     kernel_ (base (this s')) = Some (kernel' r) /\
     return_type_ (p_ s') =
     (if ok (result r) then ArrowComputeResultType.Array
      else return_type_ (p_ s))).
Proof.
  intros Hsw Hkind Hk. destruct s as [i p c it]. cbn [this p_] in *.
  destruct i as [x|x|x|x|x|x|x|x|x]; try discriminate Hsw;
    destruct x as [[ini frt ker] ?]; cbn in Hkind, Hk;
    injection Hkind as <-; subst ker; destruct p;
    (split; intros Hfrt; try discriminate Hfrt; cbv zeta);
    unfold Finish, SplitArrayListWithActionVisitorImpl.Finish,
      AggregateVisitorImpl.Finish, ProbeVisitorImpl.Finish,
      TakeVisitorImpl.Finish, NTakeVisitorImpl.Finish,
      SortArraysToIndicesVisitorImpl.Finish;
    msimpl;
    match goal with
    | |- context [ok (result ?r)] =>
        destruct (ok (result r)) eqn:Eok
    end;
    (eexists; split; [reflexivity | repeat split]).
Qed.

End FinishFacts.

Section FactoryOutcome.
Variable Expression : Type.
Variables ARROW_COMPUTE GANDIVA COMPUTE_EXT : Z.
Variable create : list Expression -> Status * Z.

(** X11.  [CreateCodeGenerator] leaves a null generator exactly when the
    code-generation type that [ExprVisitor::create] reports is none of
    the three it has a case for, and then returns TypeError whatever the
    status of [create] was.  For a recognized type it makes the generator
    of that kind from its arguments and returns the status of [create]
    unchanged, an error status included. *)
Theorem CreateCodeGenerator_outcome schema_ptr exprs_vector ret_types
  return_when_finish :
  let r := CreateCodeGenerator ARROW_COMPUTE GANDIVA COMPUTE_EXT create
             schema_ptr exprs_vector ret_types return_when_finish in
  let t := snd (create exprs_vector) in
  let args := {| schema_ptr := schema_ptr; exprs_vector := exprs_vector;
                 ret_types := ret_types;
                 return_when_finish := return_when_finish |} in
  (snd r = None <->
   t <> ARROW_COMPUTE /\ t <> GANDIVA /\ t <> COMPUTE_EXT) /\
  (snd r = None -> fst r = Status_TypeError "Unrecognized expression type.") /\
  (snd r <> None -> fst r = fst (create exprs_vector)) /\
  (t = ARROW_COMPUTE -> snd r = Some (ArrowComputeCodeGenerator args)) /\
  (t <> ARROW_COMPUTE -> t = GANDIVA ->
   snd r = Some (GandivaCodeGenerator args)) /\
  (t <> ARROW_COMPUTE -> t <> GANDIVA -> t = COMPUTE_EXT ->
   snd r = Some (ComputeExtCodeGenerator args)).
Proof.
  cbv zeta. unfold CreateCodeGenerator.
  destruct (Z.eqb_spec (snd (create exprs_vector)) ARROW_COMPUTE) as [E1|E1];
    [| destruct (Z.eqb_spec (snd (create exprs_vector)) GANDIVA) as [E2|E2];
       [| destruct (Z.eqb_spec (snd (create exprs_vector)) COMPUTE_EXT)
            as [E3|E3] ] ];
    cbn [fst snd]; repeat split; intros;
    try congruence; try tauto;
    try match goal with
        | Hc : _ /\ _ /\ _ |- _ => destruct Hc as (? & ? & ?); congruence
        end.
Qed.

End FactoryOutcome.

Section InitEdges.
Context `{KernalBase}.

(** X12.  The probe-build, take, n-take and sort operators take exactly
    one parameter column.  [Init] of such an operator, not yet
    initialized, with no parameter name or with more than one first makes
    its kernel and then, if that succeeded, fails with Invalid; either
    way only the kernel pointer has changed: no column is resolved, no
    field is registered and the operator stays uninitialized. *)
Theorem Init_rejects_parameter_count (s : Frame Impl) m :
  has_column_list (this s) = false ->
  initialized_ (base (this s)) = false ->
  List.length (param_field_names_ (p_ s)) <> 1%nat ->
  kernel_made_first (this s) = Some m ->
  let r := Make m (kernel_ (base (this s))) in
  exists msg,
    Init s =
    Returned (if ok (fst r) then Status_Invalid msg else fst r)
             (with_kernel_ (snd r) s).
Proof.
  intros Hl Hini Hn Hm. destruct s as [i p c it]. cbn [this p_] in *.
  destruct i as [x|x|x|x|x|x|x|x|x]; try discriminate Hl;
    injection Hm as <-;
    destruct x as [[ini frt ker] ?]; cbn in Hini; subst ini;
    destruct p; cbn in Hn;
    destruct param_field_names_0 as [|n1 [|n2 rest]];
    try (exfalso; apply Hn; reflexivity);
    cbv zeta; eexists;
    unfold Init, ProbeVisitorImpl.Init, TakeVisitorImpl.Init,
      NTakeVisitorImpl.Init, SortArraysToIndicesVisitorImpl.Init,
      with_kernel_;
    msimpl;
    match goal with
    | |- context [ok (fst ?r)] => destruct (ok (fst r))
    end; reflexivity.
Qed.

(** X17.  With no parameter name at all, [Init] of an aggregate operator
    on a context with no result field yet reads the first element of the
    empty result-field list, and [Init] of a probe-arrays operator reads
    the first element of its empty type list: both are undefined. *)
Theorem Init_without_parameters_undefined (s : Frame Impl) :
  initialized_ (base (this s)) = false ->
  param_field_names_ (p_ s) = [] ->
  (forall o, this s = Aggregate o -> result_fields_ (p_ s) = [] ->
             Init s = Undefined) /\
  (forall o, this s = ProbeArrays o -> Init s = Undefined).
Proof.
  intros Hini Hn. destruct s as [i p c it]. cbn [this p_] in *.
  destruct p; cbn in Hn; subst.
  split; intros o ->.
  - intros Hrf. cbn in Hrf. subst.
    destruct o as [[ini frt ker] ids fn]. cbn in Hini. subst ini.
    reflexivity.
  - destruct o as [[ini frt ker] jt ck ids ct]. cbn in Hini. subst ini.
    reflexivity.
Qed.

End InitEdges.

Section MissingColumn.
Context `{KernalBase}.

Lemma GetColumnIdAndFieldByName_resolved schema col_name :
  resolves schema col_name ->
  fst (ExprVisitorImpl.GetColumnIdAndFieldByName schema col_name) = Status_OK.
Proof.
  unfold resolves, ExprVisitorImpl.GetColumnIdAndFieldByName. intros Hr.
  replace (GetFieldIndex schema col_name <? 0) with false
    by (symmetry; apply Z.ltb_ge; lia).
  reflexivity.
Qed.











End MissingColumn.

Section RegisteredFields.
Context `{KernalBase}.

Lemma split_Init_registers (s : Frame SplitArrayListWithActionVisitorImpl.t) st s' :
  initialized_ (base (this s)) = false ->
  SplitArrayListWithActionVisitorImpl.Init s = Returned st s' -> ok st = true ->
  exists fields,
    Forall2 (fun n f => GetFieldByName (schema_ (p_ s)) n = Some f)
            (action_param_list_ (p_ s)) fields /\
    result_fields_ (p_ s') =
    registered_fields (SplitArrayListWithAction (this s)) (result_fields_ (p_ s)) fields.
Proof.
  intros Hini HInit Hok. unfold SplitArrayListWithActionVisitorImpl.Init in HInit.
  eapply run_triple
    with (Q := fun _ (s1 : Frame SplitArrayListWithActionVisitorImpl.t) =>
            exists fields,
              Forall2 (fun n f => GetFieldByName (schema_ (p_ s)) n = Some f)
                      (action_param_list_ (p_ s)) fields /\
              result_fields_ (p_ s1) =
              registered_fields (SplitArrayListWithAction (this s)) (result_fields_ (p_ s))
                                fields)
         (R := fun st (_ : Frame SplitArrayListWithActionVisitorImpl.t) => ok st = false)
    in HInit.
  - destruct HInit as [HQ | HR]; [exact HQ | congruence].
  - clear HInit.
    repeat first
      [ wp_step
      | lazymatch goal with
        | |- triple (for_each _ _ _) _ _ _ =>
            apply triple_for_each
              with (Inv := fun rest _ (s1 : Frame SplitArrayListWithActionVisitorImpl.t) =>
                      exists seen fields,
                        action_param_list_ (p_ s) = (seen ++ rest)%list /\
                        Forall2 (fun n f =>
                                   GetFieldByName (schema_ (p_ s)) n = Some f)
                                seen fields /\
                        result_fields_ (p_ s1) =
                        (result_fields_ (p_ s) ++ fields)%list /\
                        schema_ (p_ s1) = schema_ (p_ s));
            [ exists [], []; rewrite ?app_nil_r; repeat split; constructor
            | intros x rest l s1 (seen & fields & Hn & Hall & Hrf & Hsch)
            | intros l s1 (seen & fields & Hn & Hall & Hrf & Hsch);
              rewrite app_nil_r in Hn; subst seen ]
        end ];
      cbn in *; try congruence; auto.
    + exists (seen ++ [x])%list, (fields ++ [a])%list.
      rewrite <- app_assoc. cbn. repeat split; auto.
      * apply Forall2_app; [assumption|]. constructor; [|constructor].
        rewrite <- Hsch, <- GetColumnIdAndFieldByName_field. assumption.
      * rewrite Hrf, <- app_assoc. reflexivity.
    + exists fields. auto.
Qed.

Lemma shuffle_Init_registers (s : Frame ShuffleArrayListVisitorImpl.t) st s' :
  initialized_ (base (this s)) = false ->
  ShuffleArrayListVisitorImpl.Init s = Returned st s' -> ok st = true ->
  exists fields,
    Forall2 (fun n f => GetFieldByName (schema_ (p_ s)) n = Some f)
            (param_field_names_ (p_ s)) fields /\
    result_fields_ (p_ s') =
    registered_fields (ShuffleArrayList (this s)) (result_fields_ (p_ s)) fields.
Proof.
  intros Hini HInit Hok. unfold ShuffleArrayListVisitorImpl.Init in HInit.
  eapply run_triple
    with (Q := fun _ (s1 : Frame ShuffleArrayListVisitorImpl.t) =>
            exists fields,
              Forall2 (fun n f => GetFieldByName (schema_ (p_ s)) n = Some f)
                      (param_field_names_ (p_ s)) fields /\
              result_fields_ (p_ s1) =
              registered_fields (ShuffleArrayList (this s)) (result_fields_ (p_ s))
                                fields)
         (R := fun st (_ : Frame ShuffleArrayListVisitorImpl.t) => ok st = false)
    in HInit.
  - destruct HInit as [HQ | HR]; [exact HQ | congruence].
  - clear HInit.
    repeat first
      [ wp_step
      | lazymatch goal with
        | |- triple (for_each _ _ _) _ _ _ =>
            apply triple_for_each
              with (Inv := fun rest _ (s1 : Frame ShuffleArrayListVisitorImpl.t) =>
                      exists seen fields,
                        param_field_names_ (p_ s) = (seen ++ rest)%list /\
                        Forall2 (fun n f =>
                                   GetFieldByName (schema_ (p_ s)) n = Some f)
                                seen fields /\
                        result_fields_ (p_ s1) =
                        (result_fields_ (p_ s) ++ fields)%list /\
                        schema_ (p_ s1) = schema_ (p_ s));
            [ exists [], []; rewrite ?app_nil_r; repeat split; constructor
            | intros x rest l s1 (seen & fields & Hn & Hall & Hrf & Hsch)
            | intros l s1 (seen & fields & Hn & Hall & Hrf & Hsch);
              rewrite app_nil_r in Hn; subst seen ]
        end ];
      cbn in *; try congruence; auto.
    + exists (seen ++ [x])%list, (fields ++ [a])%list.
      rewrite <- app_assoc. cbn. repeat split; auto.
      * apply Forall2_app; [assumption|]. constructor; [|constructor].
        rewrite <- Hsch, <- GetColumnIdAndFieldByName_field. assumption.
      * rewrite Hrf, <- app_assoc. reflexivity.
    + exists fields. auto.
Qed.

Lemma encode_Init_registers (s : Frame EncodeVisitorImpl.t) st s' :
  initialized_ (base (this s)) = false ->
  EncodeVisitorImpl.Init s = Returned st s' -> ok st = true ->
  exists fields,
    Forall2 (fun n f => GetFieldByName (schema_ (p_ s)) n = Some f)
            (param_field_names_ (p_ s)) fields /\
    result_fields_ (p_ s') =
    registered_fields (Encode (this s)) (result_fields_ (p_ s)) fields.
Proof.
  intros Hini HInit Hok. unfold EncodeVisitorImpl.Init in HInit.
  eapply run_triple
    with (Q := fun _ (s1 : Frame EncodeVisitorImpl.t) =>
            exists fields,
              Forall2 (fun n f => GetFieldByName (schema_ (p_ s)) n = Some f)
                      (param_field_names_ (p_ s)) fields /\
              result_fields_ (p_ s1) =
              registered_fields (Encode (this s)) (result_fields_ (p_ s))
                                fields)
         (R := fun st (_ : Frame EncodeVisitorImpl.t) => ok st = false)
    in HInit.
  - destruct HInit as [HQ | HR]; [exact HQ | congruence].
  - clear HInit.
    repeat first
      [ wp_step
      | lazymatch goal with
        | |- triple (for_each _ _ _) _ _ _ =>
            apply triple_for_each
              with (Inv := fun rest _ (s1 : Frame EncodeVisitorImpl.t) =>
                      exists seen fields,
                        param_field_names_ (p_ s) = (seen ++ rest)%list /\
                        Forall2 (fun n f =>
                                   GetFieldByName (schema_ (p_ s)) n = Some f)
                                seen fields /\
                        result_fields_ (p_ s1) =
                        (result_fields_ (p_ s) ++ [])%list /\
                        schema_ (p_ s1) = schema_ (p_ s));
            [ exists [], []; rewrite ?app_nil_r; repeat split; constructor
            | intros x rest l s1 (seen & fields & Hn & Hall & Hrf & Hsch)
            | intros l s1 (seen & fields & Hn & Hall & Hrf & Hsch);
              rewrite app_nil_r in Hn; subst seen ]
        end ];
      cbn in *; try congruence; auto.
    all: try (exists (seen ++ [x])%list, (fields ++ [a])%list;
              rewrite <- app_assoc; cbn; repeat split; auto;
              apply Forall2_app; [assumption|]; constructor; [|constructor];
              rewrite <- Hsch, <- GetColumnIdAndFieldByName_field;
              assumption).
    all: exists fields; split; [assumption|];
      rewrite Hrf, app_nil_r; reflexivity.
Qed.

Lemma probe_arrays_Init_registers (s : Frame ProbeArraysVisitorImpl.t) st s' :
  initialized_ (base (this s)) = false ->
  ProbeArraysVisitorImpl.Init s = Returned st s' -> ok st = true ->
  exists fields,
    Forall2 (fun n f => GetFieldByName (schema_ (p_ s)) n = Some f)
            (param_field_names_ (p_ s)) fields /\
    result_fields_ (p_ s') =
    registered_fields (ProbeArrays (this s)) (result_fields_ (p_ s)) fields.
Proof.
  intros Hini HInit Hok. unfold ProbeArraysVisitorImpl.Init in HInit.
  eapply run_triple
    with (Q := fun _ (s1 : Frame ProbeArraysVisitorImpl.t) =>
            exists fields,
              Forall2 (fun n f => GetFieldByName (schema_ (p_ s)) n = Some f)
                      (param_field_names_ (p_ s)) fields /\
              result_fields_ (p_ s1) =
              registered_fields (ProbeArrays (this s)) (result_fields_ (p_ s))
                                fields)
         (R := fun st (_ : Frame ProbeArraysVisitorImpl.t) => ok st = false)
    in HInit.
  - destruct HInit as [HQ | HR]; [exact HQ | congruence].
  - clear HInit.
    repeat first
      [ wp_step
      | lazymatch goal with
        | |- triple (for_each _ _ _) _ _ _ =>
            apply triple_for_each
              with (Inv := fun rest _ (s1 : Frame ProbeArraysVisitorImpl.t) =>
                      exists seen fields,
                        param_field_names_ (p_ s) = (seen ++ rest)%list /\
                        Forall2 (fun n f =>
                                   GetFieldByName (schema_ (p_ s)) n = Some f)
                                seen fields /\
                        result_fields_ (p_ s1) =
                        (result_fields_ (p_ s) ++ [])%list /\
                        schema_ (p_ s1) = schema_ (p_ s));
            [ exists [], []; rewrite ?app_nil_r; repeat split; constructor
            | intros x rest l s1 (seen & fields & Hn & Hall & Hrf & Hsch)
            | intros l s1 (seen & fields & Hn & Hall & Hrf & Hsch);
              rewrite app_nil_r in Hn; subst seen ]
        end ];
      cbn in *; try congruence; auto.
    all: try (exists (seen ++ [x])%list, (fields ++ [a])%list;
              rewrite <- app_assoc; cbn; repeat split; auto;
              apply Forall2_app; [assumption|]; constructor; [|constructor];
              rewrite <- Hsch, <- GetColumnIdAndFieldByName_field;
              assumption).
    all: exists fields; split; [assumption|];
      rewrite Hrf, app_nil_r; reflexivity.
Qed.

Lemma aggregate_Init_registers (s : Frame AggregateVisitorImpl.t) st s' :
  initialized_ (base (this s)) = false ->
  AggregateVisitorImpl.Init s = Returned st s' -> ok st = true ->
  exists fields,
    Forall2 (fun n f => GetFieldByName (schema_ (p_ s)) n = Some f)
            (param_field_names_ (p_ s)) fields /\
    result_fields_ (p_ s') =
    registered_fields (Aggregate (this s)) (result_fields_ (p_ s)) fields.
Proof.
  intros Hini HInit Hok. unfold AggregateVisitorImpl.Init in HInit.
  eapply run_triple
    with (Q := fun _ (s1 : Frame AggregateVisitorImpl.t) =>
            exists fields,
              Forall2 (fun n f => GetFieldByName (schema_ (p_ s)) n = Some f)
                      (param_field_names_ (p_ s)) fields /\
              result_fields_ (p_ s1) =
              registered_fields (Aggregate (this s)) (result_fields_ (p_ s))
                                fields)
         (R := fun st (_ : Frame AggregateVisitorImpl.t) => ok st = false)
    in HInit.
  - destruct HInit as [HQ | HR]; [exact HQ | congruence].
  - clear HInit.
    repeat first
      [ wp_step
      | lazymatch goal with
        | |- triple (for_each _ _ _) _ _ _ =>
            apply triple_for_each
              with (Inv := fun rest _ (s1 : Frame AggregateVisitorImpl.t) =>
                      exists seen fields,
                        param_field_names_ (p_ s) = (seen ++ rest)%list /\
                        Forall2 (fun n f =>
                                   GetFieldByName (schema_ (p_ s)) n = Some f)
                                seen fields /\
                        result_fields_ (p_ s1) =
                        (result_fields_ (p_ s) ++ fields)%list /\
                        schema_ (p_ s1) = schema_ (p_ s) /\
                        AggregateVisitorImpl.func_name_ (this s1) =
                        AggregateVisitorImpl.func_name_ (this s));
            [ exists [], []; rewrite ?app_nil_r; repeat split; constructor
            | intros x rest l s1 (seen & fields & Hn & Hall & Hrf & Hsch & Hfn)
            | intros l s1 (seen & fields & Hn & Hall & Hrf & Hsch & Hfn);
              rewrite app_nil_r in Hn; subst seen ]
        end ];
      cbn in *; try congruence; auto.
    1:{ exists (seen ++ [x])%list, (fields ++ [a])%list.
        rewrite <- app_assoc. cbn. repeat split; auto.
        - apply Forall2_app; [assumption|]. constructor; [|constructor].
          rewrite <- Hsch, <- GetColumnIdAndFieldByName_field. assumption.
        - rewrite Hrf, <- app_assoc. reflexivity. }
    all: exists fields; (split; [assumption|]); rewrite <- Hfn;
        repeat match goal with
               | E : String.eqb _ _ = _ |- _ => rewrite ?E; revert E
               end; intros;
        repeat match goal with
               | E : String.eqb ?a _ = true |- _ =>
                   apply String.eqb_eq in E; rewrite ?E
               end; cbn;
        try (rewrite Hrf; reflexivity);
        try (rewrite Hrf, <- app_assoc; reflexivity);
        try (rewrite <- Hrf; reflexivity).
Qed.

Lemma probe_Init_registers (s : Frame ProbeVisitorImpl.t) st s' :
  initialized_ (base (this s)) = false ->
  ProbeVisitorImpl.Init s = Returned st s' -> ok st = true ->
  exists fields,
    Forall2 (fun n f => GetFieldByName (schema_ (p_ s)) n = Some f)
            (param_field_names_ (p_ s)) fields /\
    result_fields_ (p_ s') =
    registered_fields (Probe (this s)) (result_fields_ (p_ s)) fields.
Proof.
  intros Hini HInit Hok. unfold ProbeVisitorImpl.Init in HInit.
  eapply run_triple
    with (Q := fun _ (s1 : Frame ProbeVisitorImpl.t) =>
            exists fields,
              Forall2 (fun n f => GetFieldByName (schema_ (p_ s)) n = Some f)
                      (param_field_names_ (p_ s)) fields /\
              result_fields_ (p_ s1) =
              registered_fields (Probe (this s)) (result_fields_ (p_ s))
                                fields)
         (R := fun st (_ : Frame ProbeVisitorImpl.t) => ok st = false)
    in HInit.
  - destruct HInit as [HQ | HR]; [exact HQ | congruence].
  - clear HInit. wp; cbn in *; try congruence; auto.
    exists [a]. split; [|reflexivity].
    constructor; [|constructor].
    rewrite <- GetColumnIdAndFieldByName_field. assumption.
Qed.

Lemma take_Init_registers (s : Frame TakeVisitorImpl.t) st s' :
  initialized_ (base (this s)) = false ->
  TakeVisitorImpl.Init s = Returned st s' -> ok st = true ->
  exists fields,
    Forall2 (fun n f => GetFieldByName (schema_ (p_ s)) n = Some f)
            (param_field_names_ (p_ s)) fields /\
    result_fields_ (p_ s') =
    registered_fields (Take (this s)) (result_fields_ (p_ s)) fields.
Proof.
  intros Hini HInit Hok. unfold TakeVisitorImpl.Init in HInit.
  eapply run_triple
    with (Q := fun _ (s1 : Frame TakeVisitorImpl.t) =>
            exists fields,
              Forall2 (fun n f => GetFieldByName (schema_ (p_ s)) n = Some f)
                      (param_field_names_ (p_ s)) fields /\
              result_fields_ (p_ s1) =
              registered_fields (Take (this s)) (result_fields_ (p_ s))
                                fields)
         (R := fun st (_ : Frame TakeVisitorImpl.t) => ok st = false)
    in HInit.
  - destruct HInit as [HQ | HR]; [exact HQ | congruence].
  - clear HInit. wp; cbn in *; try congruence; auto.
    exists [a]. split; [|reflexivity].
    constructor; [|constructor].
    rewrite <- GetColumnIdAndFieldByName_field. assumption.
Qed.

Lemma ntake_Init_registers (s : Frame NTakeVisitorImpl.t) st s' :
  initialized_ (base (this s)) = false ->
  NTakeVisitorImpl.Init s = Returned st s' -> ok st = true ->
  exists fields,
    Forall2 (fun n f => GetFieldByName (schema_ (p_ s)) n = Some f)
            (param_field_names_ (p_ s)) fields /\
    result_fields_ (p_ s') =
    registered_fields (NTake (this s)) (result_fields_ (p_ s)) fields.
Proof.
  intros Hini HInit Hok. unfold NTakeVisitorImpl.Init in HInit.
  eapply run_triple
    with (Q := fun _ (s1 : Frame NTakeVisitorImpl.t) =>
            exists fields,
              Forall2 (fun n f => GetFieldByName (schema_ (p_ s)) n = Some f)
                      (param_field_names_ (p_ s)) fields /\
              result_fields_ (p_ s1) =
              registered_fields (NTake (this s)) (result_fields_ (p_ s))
                                fields)
         (R := fun st (_ : Frame NTakeVisitorImpl.t) => ok st = false)
    in HInit.
  - destruct HInit as [HQ | HR]; [exact HQ | congruence].
  - clear HInit. wp; cbn in *; try congruence; auto.
    exists [a]. split; [|reflexivity].
    constructor; [|constructor].
    rewrite <- GetColumnIdAndFieldByName_field. assumption.
Qed.

Lemma sort_Init_registers (s : Frame SortArraysToIndicesVisitorImpl.t) st s' :
  initialized_ (base (this s)) = false ->
  SortArraysToIndicesVisitorImpl.Init s = Returned st s' -> ok st = true ->
  exists fields,
    Forall2 (fun n f => GetFieldByName (schema_ (p_ s)) n = Some f)
            (param_field_names_ (p_ s)) fields /\
    result_fields_ (p_ s') =
    registered_fields (SortArraysToIndices (this s)) (result_fields_ (p_ s)) fields.
Proof.
  intros Hini HInit Hok. unfold SortArraysToIndicesVisitorImpl.Init in HInit.
  eapply run_triple
    with (Q := fun _ (s1 : Frame SortArraysToIndicesVisitorImpl.t) =>
            exists fields,
              Forall2 (fun n f => GetFieldByName (schema_ (p_ s)) n = Some f)
                      (param_field_names_ (p_ s)) fields /\
              result_fields_ (p_ s1) =
              registered_fields (SortArraysToIndices (this s)) (result_fields_ (p_ s))
                                fields)
         (R := fun st (_ : Frame SortArraysToIndicesVisitorImpl.t) => ok st = false)
    in HInit.
  - destruct HInit as [HQ | HR]; [exact HQ | congruence].
  - clear HInit. wp; cbn in *; try congruence; auto.
    exists [a]. split; [|reflexivity].
    constructor; [|constructor].
    rewrite <- GetColumnIdAndFieldByName_field. assumption.
Qed.

(** X14.  A successful [Init] of an operator that was not initialized
    leaves the result-field list as the list before followed by what the
    class registers: the fields of the resolved columns in order for the
    split, shuffle, probe-build, take, n-take and sort operators and for
    the aggregate operator, which adds cnt after them for sum_count and
    drops the last element for avgByCount; the one field res of type
    uint32 for the encode operator and res of a 4-byte fixed-size binary
    type for the probe-arrays operator, whatever the columns. *)
Theorem Init_registered_fields (s : Frame Impl) st s' :
  initialized_ (base (this s)) = false ->
  Init s = Returned st s' -> ok st = true ->
  exists fields,
    Forall2 (fun n f => GetFieldByName (schema_ (p_ s)) n = Some f)
            (referenced_columns (this s) (p_ s)) fields /\
    result_fields_ (p_ s') =
    registered_fields (this s) (result_fields_ (p_ s)) fields.
Proof.
  intros Hini HInit Hok. unfold Init in HInit.
  destruct s as [i p c it]. cbn [this p_] in *.
  destruct i; cbn in Hini; through_dispatch HInit;
    cbn [this with_this p_ referenced_columns].
  - match type of E with _ ?s1 = _ =>
      exact (split_Init_registers s1 Hini E Hok) end.
  - match type of E with _ ?s1 = _ =>
      exact (aggregate_Init_registers s1 Hini E Hok) end.
  - match type of E with _ ?s1 = _ =>
      exact (encode_Init_registers s1 Hini E Hok) end.
  - match type of E with _ ?s1 = _ =>
      exact (probe_Init_registers s1 Hini E Hok) end.
  - match type of E with _ ?s1 = _ =>
      exact (take_Init_registers s1 Hini E Hok) end.
  - match type of E with _ ?s1 = _ =>
      exact (ntake_Init_registers s1 Hini E Hok) end.
  - match type of E with _ ?s1 = _ =>
      exact (sort_Init_registers s1 Hini E Hok) end.
  - match type of E with _ ?s1 = _ =>
      exact (shuffle_Init_registers s1 Hini E Hok) end.
  - match type of E with _ ?s1 = _ =>
      exact (probe_arrays_Init_registers s1 Hini E Hok) end.
Qed.

End RegisteredFields.

Section Materialization.
Context `{KernalBase}.

(** X15.  [MakeResultIterator] of the split operator fails with Invalid
    and changes nothing while [finish_return_type_] is not Batch.  With
    Batch and a kernel bound it hands the caller's holder to the kernel's
    [MakeResultIterator]; when the kernel returns OK it returns OK, adds
    the time the call took to the elapsed time and publishes the return
    kind BatchIterator, and otherwise it returns the kernel's status with
    the return kind and the elapsed time as they were. *)
Theorem split_MakeResultIterator (s : Frame Impl) o :
  this s = SplitArrayListWithAction o ->
  (forall schema,
     finish_return_type_ (base (this s)) <> ArrowComputeResultType.Batch ->
     exists msg,
       MakeResultIterator schema s = Returned (Status_Invalid msg) s) /\
  (forall schema k,
     finish_return_type_ (base (this s)) = ArrowComputeResultType.Batch ->
     kernel_ (base (this s)) = Some k ->
     let r := kernel_MakeResultIterator k schema (out_iter s) in
     exists s',
       MakeResultIterator schema s =
       Returned (if ok (result r) then Status_OK else result r) s' /\
       out_iter s' = out r /\
       kernel_ (base (this s')) = Some (kernel' r) /\
       return_type_ (p_ s') =
       (if ok (result r) then ArrowComputeResultType.BatchIterator
        else return_type_ (p_ s)) /\
       elapse_time_ (p_ s') =
       (if ok (result r) then uint64_add (elapse_time_ (p_ s)) (took r)
        else elapse_time_ (p_ s))).
Proof.
  intros Hthis. destruct s as [i p c it]. cbn in Hthis. subst i.
  destruct o as [[ini frt ker] ids]. destruct p.
  split.
  - intros schema Hfrt. cbn in Hfrt. eexists.
    unfold MakeResultIterator,
      SplitArrayListWithActionVisitorImpl.MakeResultIterator.
    destruct frt; try congruence; msimpl; reflexivity.
  - intros schema k Hfrt Hk. cbn in Hfrt, Hk. subst frt ker.
    unfold MakeResultIterator,
      SplitArrayListWithActionVisitorImpl.MakeResultIterator.
    msimpl.
    destruct (ok (result (kernel_MakeResultIterator k schema it))) eqn:Eok;
      (eexists; split; [reflexivity | repeat split]).
Qed.

(** X16.  A life-cycle method that a class does not override is the one
    of [ExprVisitorImpl]: [SetMember] outside the probe-build, take and
    n-take operators, [SetDependency] outside the shuffle operator and
    [MakeResultIterator] outside the split, shuffle and probe-arrays
    operators fail with NotImplemented and change nothing.  The message
    of [SetMember] speaks of Init, and that of [MakeResultIterator] names
    the context's function. *)
Theorem unoverridden_methods_NotImplemented (s : Frame Impl) :
  (overrides_SetMember (this s) = false ->
   SetMember s =
   Returned (Status_NotImplemented "ExprVisitorImpl Init is abstract.") s) /\
  (is_shuffle (this s) = false ->
   forall dependency_iter index,
     SetDependency dependency_iter index s =
     Returned
       (Status_NotImplemented "ExprVisitorImpl SetDependency is abstract.")
       s) /\
  (overrides_MakeResultIterator (this s) = false ->
   forall schema,
     MakeResultIterator schema s =
     Returned
       (Status_NotImplemented
          ("ExprVisitorImpl " ++ func_name_ (p_ s)
           ++ " MakeResultIterator is abstract."))
       s).
Proof.
  destruct s as [i p c it]. cbn [this p_].
  split; [|split]; intros Ho; destruct i; try discriminate Ho;
    intros; reflexivity.
Qed.

(** X18.  With the tag None and no concatenation kernel, [Eval] of the
    encode operator reads the column at the first of its resolved indices
    only, hands it to the kernel together with the result array holder
    and is done in one step: when the kernel returns OK it returns OK and
    publishes the return kind Array, otherwise it returns the kernel's
    status; [finish_return_type_] is not touched. *)
Theorem encode_Eval_single_key (s : Frame Impl) o c others col k :
  this s = Encode o ->
  dependency_result_type_ (p_ s) = ArrowComputeResultType.None ->
  EncodeVisitorImpl.concat_kernel_ o = None ->
  EncodeVisitorImpl.col_id_list_ o = c :: others ->
  0 <= c ->
  nth_error (in_record_batch_ (p_ s)) (Z.to_nat c) = Some col ->
  kernel_ (base (this s)) = Some k ->
  let r := Evaluate_array_to_array k (Some col) (result_array_ (p_ s)) in
  exists s',
    Eval s = Returned (if ok (result r) then Status_OK else result r) s' /\
    result_array_ (p_ s') = out r /\
    kernel_ (base (this s')) = Some (kernel' r) /\
    return_type_ (p_ s') =
    (if ok (result r) then ArrowComputeResultType.Array
     else return_type_ (p_ s)) /\
    finish_return_type_ (base (this s')) =
    finish_return_type_ (base (this s)).
Proof.
  intros Hthis Htag Hck Hids Hc Hnth Hk.
  destruct s as [i p cs it]. cbn in Hthis. subst i.
  destruct o as [[ini frt ker] ids ck ct]. cbn in Hck, Hids, Hk.
  subst ck ids ker. destruct p. cbn in Htag, Hnth. subst.
  assert (Hrange : 0 <= c < num_columns in_record_batch_0).
  { split; [exact Hc|]. unfold num_columns.
    assert (Z.to_nat c < List.length in_record_batch_0)%nat
      by (apply nth_error_Some; congruence).
    lia. }
  cbv zeta. unfold Eval. cbn [this]. unfold dispatch, EncodeVisitorImpl.Eval.
  erewrite run_bind_Continue by reflexivity.
  cbn [with_this p_ this dependency_result_type_
       EncodeVisitorImpl.concat_kernel_ EncodeVisitorImpl.col_id_list_
       in_record_batch_].
  erewrite run_bind_Continue.
  2:{ unfold bind at 1. cbn [deref nth_error ret].
      unfold bind at 1.
      destruct (column_in_range
                  (S:=Frame EncodeVisitorImpl.t) in_record_batch_0 Hrange)
        as [a [Ha Hcol]].
      rewrite Hcol. rewrite Hnth in Ha. injection Ha as <-. reflexivity. }
  msimpl.
  destruct (ok (result (Evaluate_array_to_array k (Some col) result_array_0)));
    (eexists; split; [reflexivity | repeat split]).
Qed.

(** X19.  [Finish] of the shuffle operator with an indices array in the
    context and a kernel bound first hands the indices to the kernel's
    [SetDependencyInput].  If the kernel refuses them, its status is
    returned.  Otherwise, with [finish_return_type_] other than Batch the
    call fails with Invalid, the kernel keeping the indices it was given;
    with Batch the kernel finishes into the result batch, and the return
    kind becomes Batch when it returns OK. *)
Theorem shuffle_Finish_with_indices (s : Frame Impl) o a k :
  this s = ShuffleArrayList o ->
  in_array_ (p_ s) = Some a ->
  kernel_ (base (this s)) = Some k ->
  let r1 := SetDependencyInput k (Some a) in
  (ok (result r1) = false ->
   Finish s = Returned (result r1) (rebind_kernel (kernel' r1) s)) /\
  (ok (result r1) = true ->
   finish_return_type_ (base (this s)) <> ArrowComputeResultType.Batch ->
   exists msg,
     Finish s =
     Returned (Status_Invalid msg) (rebind_kernel (kernel' r1) s)) /\
  (ok (result r1) = true ->
   finish_return_type_ (base (this s)) = ArrowComputeResultType.Batch ->
   let r2 := Finish_batch (kernel' r1) (result_batch_ (p_ s)) in
   exists s',
     Finish s = Returned (if ok (result r2) then Status_OK else result r2) s' /\
     result_batch_ (p_ s') = out r2 /\
     kernel_ (base (this s')) = Some (kernel' r2) /\
     return_type_ (p_ s') =
     (if ok (result r2) then ArrowComputeResultType.Batch
      else return_type_ (p_ s))).
Proof.
  intros Hthis Hin Hk.
  destruct s as [i p cs it]. cbn in Hthis. subst i.
  destruct o as [[ini frt ker] ids]. cbn in Hk. subst ker.
  destruct p. cbn in Hin. subst. cbv zeta.
  split; [|split].
  - intros Hok. unfold Finish, ShuffleArrayListVisitorImpl.Finish.
    msimpl. rewrite Hok. reflexivity.
  - intros Hok Hfrt. cbn in Hfrt. eexists.
    unfold Finish, ShuffleArrayListVisitorImpl.Finish.
    msimpl. rewrite Hok. destruct frt; try congruence; reflexivity.
  - intros Hok Hfrt. cbn in Hfrt. subst frt.
    unfold Finish, ShuffleArrayListVisitorImpl.Finish.
    msimpl. rewrite Hok. msimpl.
    match goal with
    | |- context [ok (result (Finish_batch ?k1 ?b))] =>
        destruct (ok (result (Finish_batch k1 b)))
    end;
    (eexists; split; [reflexivity | repeat split]).
Qed.

End Materialization.

(** ** Further runs on concrete inputs *)

Section MoreRuns.
#[local] Existing Instance Recorder.kernels.
Import Recorder.

(** [Init] of an aggregate operator with the name sum_count. *)
Lemma Init_changes_result_fields_only_witness :
  let s := frame (aggregate "sum_count")
             (visitor ["a"] ArrowComputeResultType.None three_columns None) in
  Init s = Returned Status_OK (after Init s) /\
  result_fields_ (p_ (after Init s)) = [field "a" int64; field "cnt" int64] /\
  set_result_fields_ (result_fields_ (p_ s)) (p_ (after Init s)) = p_ s.
Proof.
  split; [reflexivity|]. split; [reflexivity|].
  exact (proj1 (Init_changes_result_fields_only
                  (frame (aggregate "sum_count")
                     (visitor ["a"] ArrowComputeResultType.None
                        three_columns None))
                  (st := Status_OK) eq_refl)).
Defined.

(** [Init] of a take operator whose column is not in the schema. *)
Lemma Init_initialized_iff_OK_witness :
  let s := frame take
             (visitor ["zz"] ArrowComputeResultType.None three_columns None) in
  Init s =
  Returned
    (Status_Invalid "GetColumnIdAndFieldByName doesn't found col_name zz")
    (after Init s) /\
  initialized_ (base (this (after Init s))) = false.
Proof.
  split; [reflexivity|].
  exact (Init_initialized_iff_OK
           (frame take
              (visitor ["zz"] ArrowComputeResultType.None three_columns None))
           (st := Status_Invalid
                    "GetColumnIdAndFieldByName doesn't found col_name zz")
           eq_refl).
Defined.

(** [Init] of a shuffle operator over the columns cnt and a. *)
Lemma Init_resolved_columns_witness :
  let s := frame shuffle
             (visitor ["cnt"; "a"] ArrowComputeResultType.None
                three_columns None) in
  initialized_ (base (this s)) = false /\
  Init s = Returned Status_OK (after Init s) /\
  ok Status_OK = true /\
  resolved_columns (this (after Init s)) = [2; 0].
Proof.
  split; [reflexivity|]. split; [reflexivity|]. split; [reflexivity|].
  exact (proj2 (Init_resolved_columns
                  (frame shuffle
                     (visitor ["cnt"; "a"] ArrowComputeResultType.None
                        three_columns None))
                  (st := Status_OK) eq_refl eq_refl eq_refl)).
Defined.

(** An aggregate operator that resolved cnt to index 2, given a batch of
    one column. *)
Lemma Eval_out_of_range_checked_witness :
  let s := next_batch [[1; 2; 3]]
             (after Init
                (frame (aggregate "sum")
                   (visitor ["cnt"] ArrowComputeResultType.None
                      three_columns None))) in
  checks_bounds (this s) = true /\
  supports (this s) (dependency_result_type_ (p_ s)) = true /\
  resolved_columns (this s) = [2] /\
  num_columns (in_record_batch_ (p_ s)) = 1 /\
  exists msg, Eval s = Returned (Status_Invalid msg) s.
Proof.
  split; [reflexivity|]. split; [reflexivity|]. split; [reflexivity|].
  split; [reflexivity|].
  apply (Eval_out_of_range_checked
           (next_batch [[1; 2; 3]]
              (after Init
                 (frame (aggregate "sum")
                    (visitor ["cnt"] ArrowComputeResultType.None
                       three_columns None))))).
  - reflexivity.
  - left. reflexivity.
  - constructor; [discriminate | constructor].
  - constructor. discriminate.
Defined.

(** [Eval] of a sort operator after its [Init]. *)
Lemma Eval_keeps_registration_witness :
  let s := after Init
             (frame sort
                (visitor ["b"] ArrowComputeResultType.None
                   three_columns None)) in
  Eval s = Returned Status_OK (after Eval s) /\
  registration resolved_columns (after Eval s) =
  registration resolved_columns s.
Proof.
  split; [reflexivity|].
  exact (Eval_keeps_registration
           (after Init
              (frame sort
                 (visitor ["b"] ArrowComputeResultType.None
                    three_columns None)))
           (st := Status_OK) eq_refl).
Defined.

(** [Eval] of a take operator after its [Init]. *)
Lemma Eval_sets_finish_kind_witness :
  let s := after Init
             (frame take
                (visitor ["a"] ArrowComputeResultType.None
                   three_columns None)) in
  Eval s = Returned Status_OK (after Eval s) /\
  ok Status_OK = true /\
  dependency_result_type_ (p_ s) <> ArrowComputeResultType.BatchIterator /\
  finish_kind (this s) = Some ArrowComputeResultType.Array /\
  finish_return_type_ (base (this (after Eval s))) =
  ArrowComputeResultType.Array.
Proof.
  split; [reflexivity|]. split; [reflexivity|].
  split; [discriminate|]. split; [reflexivity|].
  refine (proj1 (Eval_sets_finish_kind
                   (after Init
                      (frame take
                         (visitor ["a"] ArrowComputeResultType.None
                            three_columns None)))
                   (st := Status_OK) eq_refl eq_refl _ eq_refl)).
  discriminate.
Defined.

(** [Eval] of an aggregate operator entered with the tag Array. *)
Lemma Eval_failure_keeps_state_witness :
  let s := retag ArrowComputeResultType.Array
             (after Init
                (frame (aggregate "sum")
                   (visitor ["a"] ArrowComputeResultType.None
                      three_columns None))) in
  outcome_code (Eval s) = Some NotImplemented /\
  dependency_result_type_ (p_ (after Eval s)) =
  ArrowComputeResultType.Array /\
  finish_return_type_ (base (this (after Eval s))) =
  finish_return_type_ (base (this s)).
Proof.
  split; [reflexivity|].
  pose proof (Eval_failure_keeps_state
                (retag ArrowComputeResultType.Array
                   (after Init
                      (frame (aggregate "sum")
                         (visitor ["a"] ArrowComputeResultType.None
                            three_columns None))))
                (st := Status_NotImplemented
                         "AggregateVisitorImpl: Does not support this type of input.")
                eq_refl eq_refl) as [Ht [Hf _]].
  split; [exact Ht | exact Hf].
Defined.

(** [Finish] of an aggregate operator that has not evaluated a batch. *)
Lemma Finish_wrong_kind_witness :
  let s := after Init
             (frame (aggregate "sum")
                (visitor ["a"] ArrowComputeResultType.None
                   three_columns None)) in
  finish_switches (this s) = true /\
  finish_kind (this s) = Some ArrowComputeResultType.Batch /\
  finish_return_type_ (base (this s)) <> ArrowComputeResultType.Batch /\
  exists msg, Finish s = Returned (Status_NotImplemented msg) s.
Proof.
  split; [reflexivity|]. split; [reflexivity|]. split; [discriminate|].
  refine (Finish_wrong_kind
            (after Init
               (frame (aggregate "sum")
                  (visitor ["a"] ArrowComputeResultType.None
                     three_columns None)))
            eq_refl eq_refl _).
  discriminate.
Defined.

(** [Finish] of an aggregate operator after [Init] and [Eval]. *)
Lemma Finish_right_kind_witness :
  let s := after Eval
             (after Init
                (frame (aggregate "sum")
                   (visitor ["a"] ArrowComputeResultType.None
                      three_columns None))) in
  let k := feed [[1; 2; 3]] (fresh (SumArrayKernel int64)) in
  finish_switches (this s) = true /\
  finish_kind (this s) = Some (finish_return_type_ (base (this s))) /\
  kernel_ (base (this s)) = Some k /\
  finish_return_type_ (base (this s)) = ArrowComputeResultType.Batch /\
  outcome_code (Finish s) = Some OK.
Proof.
  split; [reflexivity|]. split; [reflexivity|]. split; [reflexivity|].
  split; [reflexivity|].
  destruct (proj1 (Finish_right_kind
                     (after Eval
                        (after Init
                           (frame (aggregate "sum")
                              (visitor ["a"] ArrowComputeResultType.None
                                 three_columns None))))
                     (k := feed [[1; 2; 3]] (fresh (SumArrayKernel int64)))
                     eq_refl eq_refl eq_refl) eq_refl) as [s' [HF _]].
  rewrite HF. reflexivity.
Defined.

(** [Init] of a sort operator given two parameter columns. *)
Lemma Init_rejects_parameter_count_witness :
  let s := frame sort
             (visitor ["a"; "b"] ArrowComputeResultType.None
                three_columns None) in
  has_column_list (this s) = false /\
  initialized_ (base (this s)) = false /\
  List.length (param_field_names_ (p_ s)) <> 1%nat /\
  kernel_made_first (this s) = Some (SortArraysToIndicesKernel false true) /\
  exists msg,
    Init s =
    Returned (Status_Invalid msg)
      (with_kernel_ (Some (fresh (SortArraysToIndicesKernel false true))) s).
Proof.
  split; [reflexivity|]. split; [reflexivity|]. split; [discriminate|].
  split; [reflexivity|].
  refine (Init_rejects_parameter_count
            (frame sort
               (visitor ["a"; "b"] ArrowComputeResultType.None
                  three_columns None))
            eq_refl eq_refl _ eq_refl).
  discriminate.
Defined.


(** [Init] of an encode operator over two key columns. *)
Lemma Init_registered_fields_witness :
  let s := frame encode
             (visitor ["a"; "b"] ArrowComputeResultType.None
                three_columns None) in
  initialized_ (base (this s)) = false /\
  Init s = Returned Status_OK (after Init s) /\
  ok Status_OK = true /\
  result_fields_ (p_ (after Init s)) = [field "res" uint32] /\
  exists fields,
    Forall2 (fun n f => GetFieldByName (schema_ (p_ s)) n = Some f)
            (referenced_columns (this s) (p_ s)) fields /\
    result_fields_ (p_ (after Init s)) =
    registered_fields (this s) (result_fields_ (p_ s)) fields.
Proof.
  split; [reflexivity|]. split; [reflexivity|]. split; [reflexivity|].
  split; [reflexivity|].
  exact (Init_registered_fields
           (frame encode
              (visitor ["a"; "b"] ArrowComputeResultType.None
                 three_columns None))
           (st := Status_OK) eq_refl eq_refl eq_refl).
Defined.

(** [MakeResultIterator] of a split operator that has not evaluated. *)
Lemma split_MakeResultIterator_witness :
  let s := after Init
             (frame split
                (visitor ["a"] ArrowComputeResultType.None
                   three_columns (Some [0; 1; 0]))) in
  finish_return_type_ (base (this s)) <> ArrowComputeResultType.Batch /\
  exists msg, MakeResultIterator [] s = Returned (Status_Invalid msg) s.
Proof.
  split; [discriminate|].
  refine (proj1 (split_MakeResultIterator
                   (after Init
                      (frame split
                         (visitor ["a"] ArrowComputeResultType.None
                            three_columns (Some [0; 1; 0]))))
                   eq_refl) [] _).
  discriminate.
Defined.

(** [Init] of a probe-arrays operator with no parameter column. *)
Lemma Init_without_parameters_undefined_witness :
  let s := frame probe_arrays
             (visitor [] ArrowComputeResultType.None three_columns None) in
  initialized_ (base (this s)) = false /\
  param_field_names_ (p_ s) = [] /\
  Init s = Undefined.
Proof.
  split; [reflexivity|]. split; [reflexivity|].
  exact (proj2 (Init_without_parameters_undefined
                  (frame probe_arrays
                     (visitor [] ArrowComputeResultType.None
                        three_columns None))
                  eq_refl eq_refl) _ eq_refl).
Defined.

(** [Eval] of an encode operator over the one key column b. *)
Lemma encode_Eval_single_key_witness :
  let s := after Init
             (frame encode
                (visitor ["b"] ArrowComputeResultType.None
                   three_columns None)) in
  resolved_columns (this s) = [1] /\
  nth_error (in_record_batch_ (p_ s)) 1 = Some [4; 5; 6] /\
  kernel_ (base (this s)) = Some (fresh EncodeArrayKernel) /\
  outcome_code (Eval s) = Some OK.
Proof.
  split; [reflexivity|]. split; [reflexivity|]. split; [reflexivity|].
  destruct (encode_Eval_single_key
              (after Init
                 (frame encode
                    (visitor ["b"] ArrowComputeResultType.None
                       three_columns None)))
              (c := 1) (others := []) (col := [4; 5; 6])
              (k := fresh EncodeArrayKernel)
              eq_refl eq_refl eq_refl eq_refl ltac:(discriminate)
              eq_refl eq_refl) as [s' [HE _]].
  rewrite HE. reflexivity.
Defined.

(** [Finish] of a shuffle operator after [Init] and [Eval], with the
    indices 2, 0, 1 in the context. *)
Lemma shuffle_Finish_with_indices_witness :
  let s := after Eval
             (after Init
                (frame shuffle
                   (visitor ["a"; "b"] ArrowComputeResultType.None
                      three_columns (Some [2; 0; 1])))) in
  let k := feed [[1; 2; 3]; [4; 5; 6]]
             (fresh (ShuffleArrayListKernel [int64; float64])) in
  in_array_ (p_ s) = Some [2; 0; 1] /\
  kernel_ (base (this s)) = Some k /\
  ok (result (SetDependencyInput k (Some [2; 0; 1]))) = true /\
  finish_return_type_ (base (this s)) = ArrowComputeResultType.Batch /\
  outcome_code (Finish s) = Some OK.
Proof.
  split; [reflexivity|]. split; [reflexivity|]. split; [reflexivity|].
  split; [reflexivity|].
  destruct (proj2 (proj2 (shuffle_Finish_with_indices
                            (after Eval
                               (after Init
                                  (frame shuffle
                                     (visitor ["a"; "b"]
                                        ArrowComputeResultType.None
                                        three_columns (Some [2; 0; 1])))))
                            (a := [2; 0; 1])
                            (k := feed [[1; 2; 3]; [4; 5; 6]]
                                    (fresh (ShuffleArrayListKernel
                                              [int64; float64])))
                            eq_refl eq_refl eq_refl))
              eq_refl eq_refl) as [s' [HF _]].
  rewrite HF. reflexivity.
Defined.

End MoreRuns.
